(** * Course management: local persistence and progress tracking

    A shallow embedding of the sanitizer (utils/htmlSanitizer.js), the
    migration engine (utils/dataMigration.js), the course store
    (redux/courseSlice.js), the progress ledger (utils/progressTracking.js)
    and the analytics aggregator (utils/analytics.js).

    Conventions.
    - A JavaScript string is the list of its UTF-16 code units.
    - A JavaScript number is an IEEE-754 binary64 value ([float]); counters
      that the code only increments by one are kept as [nat].
    - [localStorage] is a record with one field per logical key.  A stored
      text is kept in parsed form when it is JSON, and as the raw string
      when [JSON.parse] rejects it.  Storage calls themselves are taken to
      succeed; the exceptions modelled are those of [JSON.parse] and of
      explicit [throw] statements. *)

From Stdlib Require Import ZArith List String Ascii Floats Lia Bool.
From stdpp Require Import gmap strings list pretty sorting.

Set Default Proof Using "Type".

(** ** JavaScript strings *)

Module JsString.
Local Open Scope N_scope.

Definition jsstring := list N.

(** An ASCII literal as a JavaScript string. *)
Definition lit (s : string) : jsstring :=
  map N_of_ascii (list_ascii_of_string s).

Definition LT : N := 60.   (* '<' *)
Definition GT : N := 62.   (* '>' *)
Definition AMP : N := 38.  (* '&' *)
Definition SP : N := 32.   (* ' ' *)
Definition LF : N := 10.   (* '\n' *)

(** The class [\s] of ECMAScript regular expressions, which is also what
    [String.prototype.trim] removes: WhiteSpace and LineTerminator. *)
Definition is_space (c : N) : bool :=
  (9 <=? c) && (c <=? 13)
  || (c =? 32) || (c =? 160) || (c =? 5760)
  || (8192 <=? c) && (c <=? 8202)
  || (c =? 8232) || (c =? 8233) || (c =? 8239) || (c =? 8287)
  || (c =? 12288) || (c =? 65279).

Fixpoint drop_while (p : N -> bool) (s : jsstring) : jsstring :=
  match s with
  | [] => []
  | c :: r => if p c then drop_while p r else s
  end.

Fixpoint take_while (p : N -> bool) (s : jsstring) : jsstring :=
  match s with
  | [] => []
  | c :: r => if p c then c :: take_while p r else []
  end.

(** [s.trimEnd()] *)
Fixpoint trim_end (s : jsstring) : jsstring :=
  match s with
  | [] => []
  | c :: r =>
    match trim_end r with
    | [] => if is_space c then [] else [c]
    | r' => c :: r'
    end
  end.

(** [s.trim()] *)
Definition trim (s : jsstring) : jsstring :=
  trim_end (drop_while is_space s).

Fixpoint starts_with (pat s : jsstring) : bool :=
  match pat, s with
  | [], _ => true
  | p :: pat', c :: s' => (p =? c) && starts_with pat' s'
  | _ :: _, [] => false
  end.


(** [s.replace(/pat/g, rep)] for a literal, non-empty pattern: matches are
    taken leftmost and do not overlap.  [skip] counts the code units of the
    current match that are still to be passed over. *)
Fixpoint replace_from (pat rep : jsstring) (skip : nat) (s : jsstring) : jsstring :=
  match s with
  | [] => []
  | c :: r =>
    match skip with
    | S k => replace_from pat rep k r
    | O =>
      if starts_with pat s
      then (rep ++ replace_from pat rep (Nat.pred (length pat)) r)%list
      else c :: replace_from pat rep O r
    end
  end.

Definition replace_all (pat rep s : jsstring) : jsstring :=
  replace_from pat rep O s.

(** [s.replace(/\s+/g, ' ')]: every maximal run of white space becomes one
    space, emitted at the last code unit of the run. *)
Fixpoint collapse_spaces (s : jsstring) : jsstring :=
  match s with
  | [] => []
  | c :: r =>
    if is_space c then
      match r with
      | c' :: _ => if is_space c' then collapse_spaces r else SP :: collapse_spaces r
      | [] => [SP]
      end
    else c :: collapse_spaces r
  end.

(** Index of the last line feed of [w], if any. *)
Fixpoint last_newline (w : jsstring) : option nat :=
  match w with
  | [] => None
  | c :: r =>
    match last_newline r with
    | Some i => Some (S i)
    | None => if c =? LF then Some O else None
    end
  end.

(** [s.replace(/\n\s*\n/g, '\n')]: at a line feed, the greedy [\s*] takes
    the whole white-space run that follows and backtracks to its last line
    feed; without one there is no match at this position. *)
Fixpoint collapse_blank_lines_from (skip : nat) (s : jsstring) : jsstring :=
  match s with
  | [] => []
  | c :: r =>
    match skip with
    | S k => collapse_blank_lines_from k r
    | O =>
      if c =? LF then
        match last_newline (take_while is_space r) with
        | Some i => LF :: collapse_blank_lines_from (S i) r
        | None => c :: collapse_blank_lines_from O r
        end
      else c :: collapse_blank_lines_from O r
    end
  end.

Definition collapse_blank_lines (s : jsstring) : jsstring :=
  collapse_blank_lines_from O s.

(** [s.replace(/<[^>]*>/g, '')].  At a ['<'] the pattern matches up to the
    first ['>'] that follows; when none follows, nothing matches there.
    [in_tag] says that the scan is inside a match. *)
Fixpoint remove_tags_from (in_tag : bool) (s : jsstring) : jsstring :=
  match s with
  | [] => []
  | c :: r =>
    if in_tag then remove_tags_from (negb (c =? GT)) r
    else if (c =? LT) && existsb (N.eqb GT) r then remove_tags_from true r
    else c :: remove_tags_from false r
  end.

Definition remove_tags (s : jsstring) : jsstring := remove_tags_from false s.

(** [/<[^>]*>/.test(s)]: some ['<'] is followed, anywhere later, by ['>']. *)
Fixpoint has_tag (s : jsstring) : bool :=
  match s with
  | [] => false
  | c :: r => (c =? LT) && existsb (N.eqb GT) r || has_tag r
  end.

(** [a === b] on strings. *)
Fixpoint eqb (a b : jsstring) : bool :=
  match a, b with
  | [], [] => true
  | x :: a', y :: b' => (x =? y) && eqb a' b'
  | _, _ => false
  end.

(** The property name of array index [i]. *)
Definition index_key (i : nat) : jsstring := lit (pretty (N.of_nat i)).

End JsString.

(** ** JSON values and the object heap *)

Module Json.
Import JsString.

(** The value a JSON text denotes. *)
Local Unset Elimination Schemes.
Inductive json :=
| JNull
| JBool (b : bool)
| JNumber (x : float)
| JString (s : jsstring)
| JArray (items : list json)
| JObject (props : list (jsstring * json)).
Local Set Elimination Schemes.

(** Own property [k] of a property list; the first entry counts. *)
Fixpoint assoc {A : Type} (k : jsstring) (l : list (jsstring * A)) : option A :=
  match l with
  | [] => None
  | (k', a) :: r => if eqb k k' then Some a else assoc k r
  end.

(** [o[k] = a] on a property list: an existing key keeps its place. *)
Fixpoint set_assoc {A : Type} (k : jsstring) (a : A) (l : list (jsstring * A))
  : list (jsstring * A) :=
  match l with
  | [] => [(k, a)]
  | (k', a') :: r => if eqb k k' then (k, a) :: r else (k', a') :: set_assoc k a r
  end.

(** Truthiness of a JSON value. *)
Definition json_truthy (j : json) : bool :=
  match j with
  | JNull => false
  | JBool b => b
  | JNumber x => negb (is_zero x || is_nan x)
  | JString s => match s with [] => false | _ => true end
  | JArray _ | JObject _ => true
  end.

End Json.

Module JsHeap.
Import JsString Json.

Abbreviation loc := nat.

(** A JavaScript value: a primitive, or a reference to an object or array. *)
Inductive value :=
| VUndefined
| VNull
| VBool (b : bool)
| VNumber (x : float)
| VString (s : jsstring)
| VObject (l : loc).

Inductive cell :=
| Object (props : list (jsstring * value))
| Array (items : list value).

(** The heap: the cell of reference [l] is at position [l]; allocation
    appends. *)
Abbreviation heap := (list cell).

Definition alloc (c : cell) (h : heap) : heap * loc := ((h ++ [c])%list, length h).

(** JavaScript truthiness. *)
Definition truthy (v : value) : bool :=
  match v with
  | VUndefined | VNull => false
  | VBool b => b
  | VNumber x => negb (is_zero x || is_nan x)
  | VString s => match s with [] => false | _ => true end
  | VObject _ => true
  end.

(** [v.k] for the keys the sanitizer reads ([description], [content],
    [sections], [lessons]): none of them is an array index or [length], so
    only a plain object can have one. *)
Definition get_prop (h : heap) (v : value) (k : jsstring) : value :=
  match v with
  | VObject l =>
    match h !! l with
    | Some (Object props) => default VUndefined (assoc k props)
    | _ => VUndefined
    end
  | _ => VUndefined
  end.

(** [o.k = v] on the object at [l]. *)
Definition set_prop (h : heap) (l : loc) (k : jsstring) (v : value) : heap :=
  match h !! l with
  | Some (Object props) => <[l := Object (set_assoc k v props)]> h
  | _ => h
  end.

(** [Array.isArray(v)], with the elements. *)
Definition as_array (h : heap) (v : value) : option (list value) :=
  match v with
  | VObject l =>
    match h !! l with
    | Some (Array items) => Some items
    | _ => None
    end
  | _ => None
  end.

(** Own enumerable properties, as the spread [{ ...v }] copies them. *)
Definition own_props (h : heap) (v : value) : list (jsstring * value) :=
  match v with
  | VObject l =>
    match h !! l with
    | Some (Object props) => props
    | Some (Array items) => imap (fun i x => (index_key i, x)) items
    | None => []
    end
  | VString s => imap (fun i c => (index_key i, VString [c])) s
  | _ => []
  end.

(** [{ ...v }]: a new object. *)
Definition spread (v : value) (h : heap) : heap * loc :=
  alloc (Object (own_props h v)) h.

(** A callback that allocates, run over the elements of a list in order:
    the loop of [items.map(f)]. *)
Section map_heap.
Context {A B : Type}.
Variable f : A -> heap -> heap * B.

Fixpoint map_heap (items : list A) (h : heap) : heap * list B :=
  match items with
  | [] => (h, [])
  | x :: r =>
    let '(h1, y) := f x h in
    let '(h2, ys) := map_heap r h1 in
    (h2, y :: ys)
  end.

End map_heap.

(** A number as [JSON.stringify] writes it and [JSON.parse] reads it back:
    [NaN] and the infinities become [null], and [-0] becomes [0]. *)
Definition json_number (x : float) : json :=
  if is_finite x then (if is_zero x then JNumber 0%float else JNumber x) else JNull.

Fixpoint sequence {A : Type} (l : list (option A)) : option (list A) :=
  match l with
  | [] => Some []
  | None :: _ => None
  | Some a :: r => match sequence r with Some r' => Some (a :: r') | None => None end
  end.

Definition defined (p : jsstring * value) : bool :=
  match snd p with VUndefined => false | _ => true end.

(** The value [JSON.stringify] serialises, read off the heap.  A property
    whose value is [undefined] is left out, an [undefined] array element is
    written as [null].  [None]: the structure is circular (a [TypeError] in
    the source), which shows as running out of [fuel]. *)
Fixpoint to_json (fuel : nat) (h : heap) (v : value) : option json :=
  match v with
  | VUndefined | VNull => Some JNull
  | VBool b => Some (JBool b)
  | VNumber x => Some (json_number x)
  | VString s => Some (JString s)
  | VObject l =>
    match fuel with
    | O => None
    | S n =>
      match h !! l with
      | Some (Object props) =>
        JObject <$>
          sequence (map (fun p => pair (fst p) <$> to_json n h (snd p))
                        (List.filter defined props))
      | Some (Array items) => JArray <$> sequence (map (to_json n h) items)
      | None => None
      end
    end
  end.

(** A path that visits no object twice is no longer than the heap. *)
Definition JSON_stringify (h : heap) (v : value) : option json :=
  to_json (length h) h v.

(** [JSON.parse] of the text of [j]: the value is built from new objects,
    children first. *)
Fixpoint JSON_parse (j : json) (h : heap) : heap * value :=
  match j with
  | JNull => (h, VNull)
  | JBool b => (h, VBool b)
  | JNumber x => (h, VNumber x)
  | JString s => (h, VString s)
  | JArray items =>
    let '(h1, vs) := map_heap JSON_parse items h in
    let '(h2, l) := alloc (Array vs) h1 in
    (h2, VObject l)
  | JObject props =>
    let '(h1, ps) :=
      map_heap (fun p h => let '(h1, v) := JSON_parse (snd p) h in (h1, (fst p, v)))
               props h in
    let '(h2, l) := alloc (Object ps) h1 in
    (h2, VObject l)
  end.

End JsHeap.

(** ** utils/htmlSanitizer.js *)

Module HtmlSanitizer.
Import JsString Json JsHeap.

(** What the code reads back from the temporary [div] after assigning
    [innerHTML]. *)
Record Element := { textContent : jsstring; innerText : jsstring }.

(** The host's [document]: [None] when there is none (the first statement of
    the [try] block then throws), otherwise the HTML parser behind
    [innerHTML], which is the browser's and not this program's. *)
Definition Document := option (jsstring -> Element).

(** [a || b] on strings. *)
Definition or_string (a b : jsstring) : jsstring :=
  match a with [] => b | _ => a end.

Definition stripHtmlTags_dom (tempDiv : Element) : jsstring :=
  let plainText := or_string (textContent tempDiv) (or_string (innerText tempDiv) []) in
  trim (collapse_blank_lines (collapse_spaces plainText)).

Definition stripHtmlTags_fallback (htmlString : jsstring) : jsstring :=
  trim
    (collapse_spaces
      (replace_all (lit "&#39;") (lit "'")
        (replace_all (lit "&quot;") [34%N]
          (replace_all (lit "&gt;") (lit ">")
            (replace_all (lit "&lt;") (lit "<")
              (replace_all (lit "&amp;") (lit "&")
                (replace_all (lit "&nbsp;") (lit " ")
                  (remove_tags htmlString)))))))).

(** [stripHtmlTags] on a string argument. *)
Definition stripHtmlTags (document : Document) (htmlString : jsstring) : jsstring :=
  match htmlString with
  | [] => []
  | _ =>
    match document with
    | Some parse => stripHtmlTags_dom (parse htmlString)
    | None => stripHtmlTags_fallback htmlString
    end
  end.

(** [containsHtmlTags] on a string argument. *)
Definition containsHtmlTags (content : jsstring) : bool :=
  match content with
  | [] => false
  | _ => has_tag content
  end.


(** [stripHtmlTags(v)] on any value: what is not a string gives [''] . *)
Definition stripHtmlTags_value (document : Document) (v : value) : jsstring :=
  match v with
  | VString s => stripHtmlTags document s
  | _ => []
  end.

(** [if (o.k) { o.k = stripHtmlTags(o.k); }] for the object [o] at [l]. *)
Definition sanitize_field (document : Document) (k : jsstring) (l : loc) (h : heap) : heap :=
  let v := get_prop h (VObject l) k in
  if truthy v then set_prop h l k (VString (stripHtmlTags_value document v)) else h.

(** The callback of [sanitizedSection.lessons.map]. *)
Definition sanitizeLesson (document : Document) (lesson : value) (h : heap) : heap * value :=
  let '(h1, sanitizedLesson) := spread lesson h in
  let h2 := sanitize_field document (lit "content") sanitizedLesson h1 in
  let h3 := sanitize_field document (lit "description") sanitizedLesson h2 in
  (h3, VObject sanitizedLesson).

(** The callback of [sanitizedCourse.sections.map]. *)
Definition sanitizeSection (document : Document) (section : value) (h : heap) : heap * value :=
  let '(h1, sanitizedSection) := spread section h in
  let h2 := sanitize_field document (lit "description") sanitizedSection h1 in
  match as_array h2 (get_prop h2 (VObject sanitizedSection) (lit "lessons")) with
  | Some lessons =>
    let '(h3, mapped) := map_heap (sanitizeLesson document) lessons h2 in
    let '(h4, a) := alloc (Array mapped) h3 in
    (set_prop h4 sanitizedSection (lit "lessons") (VObject a), VObject sanitizedSection)
  | None => (h2, VObject sanitizedSection)
  end.

(** [sanitizeCourseForStorage(course)].  The [catch] branch is reached only
    from [JSON.stringify]; it returns the argument itself. *)
Definition sanitizeCourseForStorage (document : Document) (course : value) (h : heap)
  : heap * value :=
  match course with
  | VObject _ =>
    match JSON_stringify h course with
    | Some j =>
      let '(h1, sanitizedCourse) := JSON_parse j h in
      match sanitizedCourse with
      | VObject c =>
        let h2 := sanitize_field document (lit "description") c h1 in
        match as_array h2 (get_prop h2 sanitizedCourse (lit "sections")) with
        | Some sections =>
          let '(h3, mapped) := map_heap (sanitizeSection document) sections h2 in
          let '(h4, a) := alloc (Array mapped) h3 in
          (set_prop h4 c (lit "sections") (VObject a), sanitizedCourse)
        | None => (h2, sanitizedCourse)
        end
      | _ => (h1, sanitizedCourse)
      end
    | None => (h, course)
    end
  | _ => (h, course)
  end.

(** [sanitizeCoursesForStorage(courses)] *)
Definition sanitizeCoursesForStorage (document : Document) (courses : value) (h : heap)
  : heap * value :=
  match as_array h courses with
  | Some items =>
    let '(h1, mapped) := map_heap (sanitizeCourseForStorage document) items h in
    let '(h2, a) := alloc (Array mapped) h1 in
    (h2, VObject a)
  | None => (h, courses)
  end.

(** [JSON.stringify(sanitizeCoursesForStorage(courses))] for a value that
    was just parsed: its objects are private, so the heap is local. *)
Definition sanitized_text (document : Document) (courses : json) : option json :=
  let '(h, v) := JSON_parse courses [] in
  let '(h', v') := sanitizeCoursesForStorage document v h in
  JSON_stringify h' v'.

End HtmlSanitizer.

(** ** Numbers *)

Module Number.
Local Open Scope Z_scope.

(** The double of an integer; exact for [|z| <= 2^53]. *)
Definition of_Z (z : Z) : float :=
  if z <? 0 then (- of_uint63 (Uint63.of_Z (- z)))%float
  else of_uint63 (Uint63.of_Z z).

(** A counter or an array length as a double. *)
Definition of_nat (n : nat) : float := of_Z (Z.of_nat n).

(** The integer [floor (m * 2^e + 1/2)], for [e < 0]. *)
Definition round_half_up (m e : Z) : Z := (2 * m + 2 ^ (- e)) / 2 ^ (1 - e).

(** The integer [floor (m * 2^e)], for [e < 0]. *)
Definition round_down (m e : Z) : Z := m / 2 ^ (- e).

Definition signed (s : bool) (m : positive) : Z := if s then Z.neg m else Z.pos m.

(** [Math.round(x)]: the nearest integer, ties towards [+Infinity]; [-0]
    for [-0.5 <= x < 0]; [NaN], infinities, zeros and integral values
    unchanged. *)
Definition Math_round (x : float) : float :=
  match Prim2SF x with
  | S754_finite s m e =>
    if 0 <=? e then x
    else
      let z := round_half_up (signed s m) e in
      if z =? 0 then (if s then neg_zero else zero) else of_Z z
  | _ => x
  end.

(** [Math.floor(x)] *)
Definition Math_floor (x : float) : float :=
  match Prim2SF x with
  | S754_finite s m e =>
    if 0 <=? e then x
    else
      let z := round_down (signed s m) e in
      if z =? 0 then zero else of_Z z
  | _ => x
  end.

(** [x || 0] on a property that holds a number or is missing. *)
Definition or_zero (x : option float) : float :=
  match x with
  | Some v => if is_zero v || is_nan v then zero else v
  | None => zero
  end.

End Number.

(** ** The data model *)

Module Model.
Import JsString Json.

(** A progress record [{ completed, completedAt, ...metadata }]: a JSON
    object, as a finite map from property names. *)
Abbreviation ProgressRecord := (gmap jsstring json).

(** The ledger: lesson id to progress record. *)
Abbreviation Progress := (gmap jsstring ProgressRecord).

(** The streak object.  [activityDates] is [None] when the property is
    missing, as in the value the error paths return. *)
Record StreakData := {
  currentStreak : nat;
  longestStreak : nat;
  lastActivity : option jsstring;
  activityDates : option (list jsstring)
}.

Record Lesson := { lesson_id : jsstring }.

Record Section := { lessons : option (list Lesson) }.

Record Course := {
  course_id : jsstring;
  status : option jsstring;
  enrolledStudents : option float;
  rating : option float;
  sections : option (list Section)
}.

End Model.

(** ** localStorage *)

Module Storage.
Import JsString Json Model.

(** A stored string: the JSON text of a value, kept as that value, or a
    string that [JSON.parse] rejects (the empty string included). *)
Inductive text (A : Type) :=
| Raw (s : jsstring)
| Doc (a : A).
Arguments Raw {A} s.
Arguments Doc {A} a.

Record localStorage := {
  courses : option (text json);                  (* "courses" *)
  course_progress : option (text Progress);      (* "course_progress" *)
  course_bookmarks : option (text (list jsstring)); (* "course_bookmarks" *)
  learning_streak : option (text StreakData);    (* "learning_streak" *)
  migration_version : option jsstring;           (* "course_data_migration_version" *)
  backups : gmap Z (text json)                   (* "courses_backup_<ms>" *)
}.

Definition empty_storage : localStorage :=
  {| courses := None; course_progress := None; course_bookmarks := None;
     learning_streak := None; migration_version := None; backups := ∅ |}.

Definition set_courses (v : option (text json)) (st : localStorage) : localStorage :=
  {| courses := v; course_progress := course_progress st;
     course_bookmarks := course_bookmarks st; learning_streak := learning_streak st;
     migration_version := migration_version st; backups := backups st |}.

Definition set_course_progress (v : option (text Progress)) (st : localStorage) : localStorage :=
  {| courses := courses st; course_progress := v;
     course_bookmarks := course_bookmarks st; learning_streak := learning_streak st;
     migration_version := migration_version st; backups := backups st |}.

Definition set_course_bookmarks (v : option (text (list jsstring))) (st : localStorage)
  : localStorage :=
  {| courses := courses st; course_progress := course_progress st;
     course_bookmarks := v; learning_streak := learning_streak st;
     migration_version := migration_version st; backups := backups st |}.

Definition set_learning_streak (v : option (text StreakData)) (st : localStorage) : localStorage :=
  {| courses := courses st; course_progress := course_progress st;
     course_bookmarks := course_bookmarks st; learning_streak := v;
     migration_version := migration_version st; backups := backups st |}.

Definition set_migration_version (v : option jsstring) (st : localStorage) : localStorage :=
  {| courses := courses st; course_progress := course_progress st;
     course_bookmarks := course_bookmarks st; learning_streak := learning_streak st;
     migration_version := v; backups := backups st |}.

Definition set_backups (v : gmap Z (text json)) (st : localStorage) : localStorage :=
  {| courses := courses st; course_progress := course_progress st;
     course_bookmarks := course_bookmarks st; learning_streak := learning_streak st;
     migration_version := migration_version st; backups := v |}.

(** *** Programs over the store *)

Inductive exn :=
| SyntaxError
| TypeError
| Error (message : string).

Inductive outcome (A : Type) :=
| Return (a : A)
| Throw (e : exn).
Arguments Return {A} a.
Arguments Throw {A} e.

Definition Js (A : Type) := localStorage -> outcome A * localStorage.

Definition ret {A : Type} (a : A) : Js A := fun st => (Return a, st).

Definition throw {A : Type} (e : exn) : Js A := fun st => (Throw e, st).

Definition bind {A B : Type} (m : Js A) (k : A -> Js B) : Js B :=
  fun st =>
    match m st with
    | (Return a, st') => k a st'
    | (Throw e, st') => (Throw e, st')
    end.

(** [try { body } catch (error) { handler }] *)
Definition try_catch {A : Type} (body : Js A) (handler : exn -> Js A) : Js A :=
  fun st =>
    match body st with
    | (Return a, st') => (Return a, st')
    | (Throw e, st') => handler e st'
    end.

(** [localStorage.getItem] of one key. *)
Definition getItem {A : Type} (field : localStorage -> A) : Js A :=
  fun st => (Return (field st), st).

(** [localStorage.setItem] and [removeItem] of one key. *)
Definition update (f : localStorage -> localStorage) : Js unit :=
  fun st => (Return tt, f st).

(** [!stored]: no entry, or the empty string. *)
Definition missing {A : Type} (stored : option (text A)) : bool :=
  match stored with
  | None | Some (Raw []) => true
  | _ => false
  end.

(** [JSON.parse(stored)] *)
Definition JSON_parse {A : Type} (stored : option (text A)) : Js A :=
  match stored with
  | Some (Doc a) => ret a
  | _ => throw SyntaxError
  end.

End Storage.

Declare Scope js_scope.
Delimit Scope js_scope with js.
Notation "'let!' x ':=' m 'in' k" := (Storage.bind m (fun x => k))
  (at level 10, x name, m at level 100, k at level 200) : js_scope.
Notation "m ';;' k" := (Storage.bind m (fun _ => k))
  (at level 100, k at level 200, right associativity) : js_scope.

(** ** utils/dataMigration.js *)

Module DataMigration.
Import JsString Json Model Storage.
Local Open Scope js_scope.

Definition CURRENT_MIGRATION_VERSION : jsstring := lit "1.0.0".

(** [isMigrationNeeded()] *)
Definition isMigrationNeeded : Js bool :=
  try_catch
    (let! currentVersion := getItem migration_version in
     ret (match currentVersion with
          | Some v => negb (eqb v CURRENT_MIGRATION_VERSION)
          | None => true
          end))
    (fun _ => ret true).

(** The result of a migration run.  The size report ([beforeAnalysis],
    [originalSize], [newSize], ...) is left out: it is computed from values
    already read and does not touch the store. *)
Record MigrationResult := {
  success : bool;
  message : string;
  error : option exn;
  coursesProcessed : option nat
}.

(** [migrateExistingData(createBackup)].  [now] is [Date.now()]. *)
Definition migrateExistingData (document : HtmlSanitizer.Document) (now : Z)
    (createBackup : bool) : Js MigrationResult :=
  try_catch
    (let! stored := getItem courses in
     if missing stored then
       update (set_migration_version (Some CURRENT_MIGRATION_VERSION));;
       ret {| success := true; message := "No existing data to migrate";
              error := None; coursesProcessed := Some O |}
     else
       (if createBackup
        then match stored with
             | Some t => update (fun st => set_backups (<[now := t]> (backups st)) st)
             | None => ret tt
             end
        else ret tt);;
       let! parsed := JSON_parse stored in
       match parsed with
       | JArray items =>
         match HtmlSanitizer.sanitized_text document parsed with
         | Some sanitizedCourses =>
           update (set_courses (Some (Doc sanitizedCourses)));;
           update (set_migration_version (Some CURRENT_MIGRATION_VERSION));;
           ret {| success := true; message := "Data migration completed successfully";
                  error := None; coursesProcessed := Some (length items) |}
         | None => throw TypeError
         end
       | _ => throw (Error "Invalid course data format")
       end)
    (fun e =>
       ret {| success := false; message := "Data migration failed";
              error := Some e; coursesProcessed := None |}).

(** One entry of [listBackups()]. *)
Record Backup := {
  timestamp : Z;
  coursesCount : nat
}.

Definition newer (a b : Backup) : Prop := (timestamp b <= timestamp a)%Z.

Global Instance newer_dec : RelDecision newer.
Proof. intros a b. unfold newer. apply _. Defined.

(** [listBackups()]: the backups whose payload parses, newest first. *)
Definition listBackups : Js (list Backup) :=
  try_catch
    (let! all := getItem backups in
     ret (merge_sort newer
            (omap (fun kv =>
                     match snd kv with
                     | Doc (JArray items) =>
                       Some {| timestamp := fst kv; coursesCount := length items |}
                     | Doc _ => Some {| timestamp := fst kv; coursesCount := O |}
                     | Raw _ => None
                     end)
                  (map_to_list all))))
    (fun _ => ret []).

Record CleanupResult := {
  backupsRemoved : nat;
  backupsRemaining : nat
}.

(** [cleanupOldBackups(keepCount)] *)
Definition cleanupOldBackups (keepCount : nat) : Js CleanupResult :=
  let! found := listBackups in
  if length found <=? keepCount then
    ret {| backupsRemoved := O; backupsRemaining := length found |}
  else
    let backupsToRemove := drop keepCount found in
    update (fun st =>
      set_backups (foldr (fun b m => delete (timestamp b) m) (backups st) backupsToRemove) st);;
    ret {| backupsRemoved := length backupsToRemove;
           backupsRemaining := length found - length backupsToRemove |}.

(** [runAutoMigration()]; the boolean is [migrationRun]. *)
Definition runAutoMigration (document : HtmlSanitizer.Document) (now : Z)
  : Js (MigrationResult * bool) :=
  try_catch
    (let! needed := isMigrationNeeded in
     if negb needed then
       ret ({| success := true; message := "No migration needed";
               error := None; coursesProcessed := None |}, false)
     else
       let! result := migrateExistingData document now true in
       (if success result then (cleanupOldBackups 3;; ret tt) else ret tt);;
       ret (result, true))
    (fun e =>
       ret ({| success := false; message := "Auto migration failed";
               error := Some e; coursesProcessed := None |}, false)).

End DataMigration.

(** ** redux/courseSlice.js *)

Module CourseSlice.
Import JsString Json Model Storage.
Local Open Scope js_scope.

(** [typeof course.k === 'string'] *)
Definition string_prop (k : jsstring) (course : json) : bool :=
  match course with
  | JObject props => match assoc k props with Some (JString _) => true | _ => false end
  | _ => false
  end.

Definition isValid (course : json) : bool :=
  string_prop (lit "id") course && string_prop (lit "title") course
  && string_prop (lit "description") course.

(** [loadCoursesFromStorage()] *)
Definition loadCoursesFromStorage (document : HtmlSanitizer.Document) (now : Z)
  : Js (list json) :=
  try_catch
    (DataMigration.runAutoMigration document now;;
     let! stored := getItem courses in
     if missing stored then ret []
     else
       let! parsed := JSON_parse stored in
       match parsed with
       | JArray items => ret (List.filter isValid items)
       | _ => ret []
       end)
    (fun _ =>
       try_catch (update (set_courses None)) (fun _ => ret tt);;
       ret []).

(** [loadProgressFromStorage()] of this file. *)
Definition loadProgressFromStorage : Js Progress :=
  try_catch
    (let! stored := getItem course_progress in
     if missing stored then ret ∅ else JSON_parse stored)
    (fun _ => ret ∅).

End CourseSlice.

(** ** utils/progressTracking.js *)

Module ProgressTracking.
Import JsString Json Model Storage Number.
Local Open Scope js_scope.

(** What the code takes from [Date]: the two renderings of a time value and
    the time value of [new Date(string)] ([NaN] for an invalid date). *)
Record Host := {
  toISOString : Z -> jsstring;
  toDateString : Z -> jsstring;
  Date_parse : jsstring -> float
}.

(** [lessonProgress && lessonProgress.completed] *)
Definition is_completed (lessonProgress : option ProgressRecord) : bool :=
  match lessonProgress with
  | Some r => match r !! lit "completed" with Some j => json_truthy j | None => false end
  | None => false
  end.

(** [loadProgressFromStorage()] *)
Definition loadProgressFromStorage : Js Progress :=
  try_catch
    (let! stored := getItem course_progress in
     if missing stored then ret ∅ else JSON_parse stored)
    (fun _ => ret ∅).

(** [saveProgressToStorage(progress)] *)
Definition saveProgressToStorage (progress : Progress) : Js bool :=
  try_catch
    (update (set_course_progress (Some (Doc progress)));; ret true)
    (fun _ => ret false).

(** [getLessonProgress(lessonId)]; [None] is [null]. *)
Definition getLessonProgress (lessonId : jsstring) : Js (option ProgressRecord) :=
  let! allProgress := loadProgressFromStorage in
  ret (allProgress !! lessonId).

(** [(a, b) => b - a] *)
Definition newest_first (a b : float) : float := (b - a)%float.

(** [Array.prototype.sort] with a comparator, as a stable insertion sort:
    [x] goes in front of the first element it has to precede. *)
Fixpoint insert_sorted (cmp : float -> float -> float) (x : float) (l : list float)
  : list float :=
  match l with
  | [] => [x]
  | y :: r => if (cmp x y <? 0)%float then x :: l else y :: insert_sorted cmp x r
  end.

Definition sort (cmp : float -> float -> float) (l : list float) : list float :=
  fold_left (fun acc x => insert_sorted cmp x acc) l [].

(** The [for] loop of [updateLearningStreak] from index [i] on, [prev] being
    [sortedDates[i-1]]: the number of increments before the [break]. *)
Fixpoint consecutive_days (prev : float) (rest : list float) : nat :=
  match rest with
  | [] => O
  | d :: r =>
    let dayDiff := Math_floor ((prev - d) / 86400000)%float in
    if (dayDiff =? 1)%float then S (consecutive_days d r) else O
  end.

Definition streak_of (sortedDates : list float) : nat :=
  match sortedDates with
  | [] => 1
  | d :: r => S (consecutive_days d r)
  end.

Definition no_streak : StreakData :=
  {| currentStreak := O; longestStreak := O; lastActivity := None; activityDates := Some [] |}.

(** The object the [catch] branches return: it has no [activityDates]. *)
Definition streak_error : StreakData :=
  {| currentStreak := O; longestStreak := O; lastActivity := None; activityDates := None |}.

Section with_host.
Variable host : Host.

(** [updateLearningStreak()]; [now] is the time value of [new Date()]. *)
Definition updateLearningStreak (now : Z) : Js StreakData :=
  try_catch
    (let today := toDateString host now in
     let! stored := getItem learning_streak in
     let! streakData := (if missing stored then ret no_streak else JSON_parse stored) in
     match activityDates streakData with
     | None => throw TypeError
     | Some dates =>
       if existsb (eqb today) dates then ret streakData
       else
         let dates := (dates ++ [today])%list in
         let sortedDates := sort newest_first (map (Date_parse host) dates) in
         let current := streak_of sortedDates in
         let streakData :=
           {| currentStreak := current;
              longestStreak := Nat.max (longestStreak streakData) current;
              lastActivity := Some today;
              activityDates := Some dates |} in
         update (set_learning_streak (Some (Doc streakData)));;
         ret streakData
     end)
    (fun _ => ret streak_error).

(** [getLearningStreak()] *)
Definition getLearningStreak : Js StreakData :=
  try_catch
    (let! stored := getItem learning_streak in
     if missing stored then ret no_streak else JSON_parse stored)
    (fun _ => ret streak_error).

(** [{ completed: true, completedAt: ..., ...additionalData }]: the spread
    comes last, so its properties win. *)
Definition completed_record (now : Z) (additionalData : ProgressRecord) : ProgressRecord :=
  additionalData ∪
  <[lit "completed" := JBool true]> (<[lit "completedAt" := JString (toISOString host now)]> ∅).

(** [markLessonCompleted(lessonId, additionalData)] *)
Definition markLessonCompleted (now : Z) (lessonId : jsstring)
    (additionalData : ProgressRecord) : Js bool :=
  try_catch
    (let! progress := loadProgressFromStorage in
     let progress := <[lessonId := completed_record now additionalData]> progress in
     updateLearningStreak now;;
     saveProgressToStorage progress)
    (fun _ => ret false).

(** [markLessonIncomplete(lessonId)] *)
Definition markLessonIncomplete (lessonId : jsstring) : Js bool :=
  try_catch
    (let! progress := loadProgressFromStorage in
     let progress := delete lessonId progress in
     saveProgressToStorage progress)
    (fun _ => ret false).

(** [toggleLessonCompletion(lessonId, additionalData)] *)
Definition toggleLessonCompletion (now : Z) (lessonId : jsstring)
    (additionalData : ProgressRecord) : Js bool :=
  let! currentProgress := getLessonProgress lessonId in
  if is_completed currentProgress then
    markLessonIncomplete lessonId;; ret false
  else
    markLessonCompleted now lessonId additionalData;; ret true.

End with_host.

Record CourseProgress := {
  totalLessons : nat;
  completedLessons : nat;
  completionPercentage : float;
  completedSections : nat;
  totalSections : nat
}.

(** The body of [section.lessons.forEach]; the state is [totalLessons],
    [completedLessons], [sectionCompleted]. *)
Definition count_lesson (progress : Progress) (acc : nat * nat * nat) (lesson : Lesson)
  : nat * nat * nat :=
  let '(totalLessons, completedLessons, sectionCompleted) := acc in
  let lessonProgress := progress !! lesson_id lesson in
  if is_completed lessonProgress
  then (S totalLessons, S completedLessons, S sectionCompleted)
  else (S totalLessons, completedLessons, sectionCompleted).

(** The body of [course.sections.forEach]; the state is [totalLessons],
    [completedLessons], [completedSections]. *)
Definition count_section (progress : Progress) (acc : nat * nat * nat) (section : Section)
  : nat * nat * nat :=
  let '(totalLessons, completedLessons, completedSections) := acc in
  match lessons section with
  | None => acc
  | Some ls =>
    let sectionLessons := length ls in
    let '(totalLessons, completedLessons, sectionCompleted) :=
      fold_left (count_lesson progress) ls (totalLessons, completedLessons, O) in
    if (0 <? sectionLessons)%nat && (sectionCompleted =? sectionLessons)%nat
    then (totalLessons, completedLessons, S completedSections)
    else (totalLessons, completedLessons, completedSections)
  end.

(** [Math.round((completedLessons / totalLessons) * 100)] *)
Definition percentage (completedLessons totalLessons : nat) : float :=
  Math_round ((of_nat completedLessons / of_nat totalLessons) * 100)%float.

(** [calculateCourseProgress(course)]; [None] is a missing course. *)
Definition calculateCourseProgress (course : option Course) : Js CourseProgress :=
  match course with
  | Some {| sections := Some secs |} =>
    let! progress := loadProgressFromStorage in
    let '(totalLessons, completedLessons, completedSections) :=
      fold_left (count_section progress) secs (O, O, O) in
    let completionPercentage :=
      if (0 <? totalLessons)%nat then percentage completedLessons totalLessons else 0%float in
    ret {| totalLessons := totalLessons;
           completedLessons := completedLessons;
           completionPercentage := completionPercentage;
           completedSections := completedSections;
           totalSections := length secs |}
  | _ =>
    ret {| totalLessons := O; completedLessons := O; completionPercentage := 0%float;
           completedSections := O; totalSections := O |}
  end.

(** [loadBookmarkedCourses()] *)
Definition loadBookmarkedCourses : Js (list jsstring) :=
  try_catch
    (let! stored := getItem course_bookmarks in
     if missing stored then ret [] else JSON_parse stored)
    (fun _ => ret []).

(** [saveBookmarkedCourses(bookmarks)] *)
Definition saveBookmarkedCourses (bookmarks : list jsstring) : Js bool :=
  try_catch
    (update (set_course_bookmarks (Some (Doc bookmarks)));; ret true)
    (fun _ => ret false).

(** [toggleCourseBookmark(courseId)] *)
Definition toggleCourseBookmark (courseId : jsstring) : Js bool :=
  try_catch
    (let! bookmarks := loadBookmarkedCourses in
     if existsb (eqb courseId) bookmarks then
       saveBookmarkedCourses (List.filter (fun id => negb (eqb id courseId)) bookmarks);;
       ret false
     else
       saveBookmarkedCourses (bookmarks ++ [courseId])%list;;
       ret true)
    (fun _ => ret false).

End ProgressTracking.

(** ** utils/analytics.js *)

Module Analytics.
Import JsString Json Model Storage Number.
Local Open Scope js_scope.

Record CompletionStats := {
  totalProgress : float;
  averageCompletion : float;
  completedCourses : nat;
  inProgressCourses : nat
}.

(** The result of [calculateCourseAnalytics].  The histograms, the three
    top-five lists and the per-course map of the completion block are left
    out; none of them feeds another field. *)
Record CourseAnalytics := {
  totalCourses : nat;
  publishedCourses : nat;
  draftCourses : nat;
  archivedCourses : nat;
  totalStudents : float;
  averageRating : float;
  totalSections : nat;
  totalLessons : nat;
  completionStats : CompletionStats
}.

Definition has_status (s : string) (c : Course) : bool :=
  match status c with
  | Some v => eqb v (lit s)
  | None => false
  end.

(** [section.lessons ? section.lessons.length : 0] *)
Definition lessons_length (s : Section) : nat :=
  match lessons s with Some ls => length ls | None => O end.

(** Lessons of one course, as both files count them. *)
Definition course_lessons (c : Course) : nat :=
  match sections c with
  | Some secs => fold_left (fun sum s => (sum + lessons_length s)%nat) secs O
  | None => O
  end.

(** The body of [safeCourses.forEach] in [calculateCompletionStats]; the
    state is [totalCompletionPercentage], [completedCourses],
    [inProgressCourses]. *)
Definition completion_step (progressData : Progress) (acc : float * nat * nat) (c : Course)
  : float * nat * nat :=
  let '(totalCompletionPercentage, completedCourses, inProgressCourses) := acc in
  let totalLessons := course_lessons c in
  if (totalLessons =? 0)%nat then acc
  else
    let completedLessons :=
      match sections c with
      | Some secs =>
        fold_left
          (fun n s =>
             match lessons s with
             | Some ls =>
               fold_left
                 (fun n l =>
                    if ProgressTracking.is_completed (progressData !! lesson_id l)
                    then S n else n)
                 ls n
             | None => n
             end)
          secs O
      | None => O
      end in
    let completionPercentage := ProgressTracking.percentage completedLessons totalLessons in
    let total := (totalCompletionPercentage + completionPercentage)%float in
    if (completionPercentage =? 100)%float then (total, S completedCourses, inProgressCourses)
    else if (0 <? completionPercentage)%float then (total, completedCourses, S inProgressCourses)
    else (total, completedCourses, inProgressCourses).

(** [calculateCompletionStats(courses, progressData)] on a non-empty array. *)
Definition calculateCompletionStats (safeCourses : list Course) (progressData : Progress)
  : CompletionStats :=
  let '(totalCompletionPercentage, completedCourses, inProgressCourses) :=
    fold_left (completion_step progressData) safeCourses (0%float, O, O) in
  {| totalProgress := totalCompletionPercentage;
     averageCompletion :=
       Math_round (totalCompletionPercentage / of_nat (length safeCourses))%float;
     completedCourses := completedCourses;
     inProgressCourses := inProgressCourses |}.

(** [calculateCourseAnalytics(courses)]; [None] is an argument that is not
    an array. *)
Definition calculateCourseAnalytics (courses : option (list Course)) : Js CourseAnalytics :=
  let safeCourses := default [] courses in
  match safeCourses with
  | [] =>
    ret {| totalCourses := O; publishedCourses := O; draftCourses := O;
           archivedCourses := O; totalStudents := 0%float; averageRating := 0%float;
           totalSections := O; totalLessons := O;
           completionStats :=
             {| totalProgress := 0%float; averageCompletion := 0%float;
                completedCourses := O; inProgressCourses := O |} |}
  | _ =>
    let totalCourses := length safeCourses in
    let totalStudents :=
      fold_left (fun sum course => (sum + or_zero (enrolledStudents course))%float)
                safeCourses 0%float in
    let totalRatings :=
      fold_left (fun sum course => (sum + or_zero (rating course))%float)
                safeCourses 0%float in
    let averageRating :=
      if (0 <? totalCourses)%nat then (totalRatings / of_nat totalCourses)%float
      else 0%float in
    let totalSections :=
      fold_left (fun sum course =>
                   (sum + match sections course with Some s => length s | None => O end)%nat)
                safeCourses O in
    let totalLessons :=
      fold_left (fun sum course => (sum + course_lessons course)%nat) safeCourses O in
    let! progressData := CourseSlice.loadProgressFromStorage in
    ret {| totalCourses := totalCourses;
           publishedCourses := length (List.filter (has_status "published") safeCourses);
           draftCourses := length (List.filter (has_status "draft") safeCourses);
           archivedCourses := length (List.filter (has_status "archived") safeCourses);
           totalStudents := totalStudents;
           averageRating := (Math_round (averageRating * 10) / 10)%float;
           totalSections := totalSections;
           totalLessons := totalLessons;
           completionStats := calculateCompletionStats safeCourses progressData |}
  end.

End Analytics.

(** ** utils/progressTracking.js: bookmarks, reset, export and import *)

Module ProgressData.
Import JsString Json Model Storage ProgressTracking.
Local Open Scope js_scope.


(** [getAllCoursesProgress(courses)]; [None] is an argument that is not an
    array.  The result object maps course ids to statistics; a later course
    with the same id overwrites an earlier one. *)
Definition getAllCoursesProgress (courses : option (list Course))
  : Js (gmap jsstring CourseProgress) :=
  match courses with
  | None => ret ∅
  | Some cs =>
    fold_left
      (fun acc course =>
         let! allProgress := acc in
         let! p := calculateCourseProgress (Some course) in
         ret (<[course_id course := p]> allProgress))
      cs (ret ∅)
  end.


(** The object [exportProgressData] builds and [importProgressData] reads.
    A field is [None] when the property is missing from the object that is
    imported; objects and arrays are truthy, so a present field is used. *)
Record ProgressDump := {
  progress : option Progress;
  bookmarks : option (list jsstring);
  streak : option StreakData;
  exportDate : option jsstring
}.

Section with_host.
Variable host : Host.


End with_host.

(** [importProgressData(data)]; [None] is [null] or [undefined], on which
    the first property access throws. *)
Definition importProgressData (data : option ProgressDump) : Js bool :=
  try_catch
    (match data with
     | None => throw TypeError
     | Some d =>
       (match progress d with
        | Some p => saveProgressToStorage p;; ret tt
        | None => ret tt
        end);;
       (match bookmarks d with
        | Some b => saveBookmarkedCourses b;; ret tt
        | None => ret tt
        end);;
       (match streak d with
        | Some s => update (set_learning_streak (Some (Doc s)))
        | None => ret tt
        end);;
       ret true
     end)
    (fun _ => ret false).

End ProgressData.

(** ** utils/dataMigration.js: restoring a backup *)

Module BackupRestore.
Import JsString Json Model Storage.
Local Open Scope js_scope.

Record RestoreResult := {
  success : bool;
  message : string;
  error : option exn;
  coursesRestored : option nat
}.

(** [restoreFromBackup(backupKey)] for a key [courses_backup_<backupKey>]. *)
Definition restoreFromBackup (backupKey : Z) : Js RestoreResult :=
  try_catch
    (let! all := getItem backups in
     let backupData := all !! backupKey in
     if missing backupData then throw (Error "Backup not found")
     else
       let! parsed := JSON_parse backupData in
       match parsed with
       | JArray items =>
         update (set_courses backupData);;
         update (set_migration_version None);;
         ret {| success := true; message := "Data restored from backup successfully";
                error := None; coursesRestored := Some (length items) |}
       | _ => throw (Error "Invalid backup data format")
       end)
    (fun e =>
       ret {| success := false; message := "Failed to restore from backup";
              error := Some e; coursesRestored := None |}).

End BackupRestore.

(** ** redux/courseSlice.js: saving the state *)

Module CourseStore.
Import JsString Json Model Storage.
Local Open Scope js_scope.


End CourseStore.

(** ** utils/htmlSanitizer.js: preview and display formatting *)

Module HtmlDisplay.
Import JsString Json HtmlSanitizer.

(** [getContentPreview(content, maxLength)] on a string argument, for a
    [maxLength] that is a non-negative integer. *)
Definition getContentPreview (document : Document) (content : jsstring) (maxLength : nat)
  : jsstring :=
  match content with
  | [] => []
  | _ =>
    let plainText := stripHtmlTags document content in
    if length plainText <=? maxLength then plainText
    else trim (take maxLength plainText) ++ lit "..."
  end.

(** [s.split('\n')] *)
Fixpoint split_lines (s : jsstring) : list jsstring :=
  match s with
  | [] => [[]]
  | c :: r =>
    if N.eqb c LF then [] :: split_lines r
    else
      match split_lines r with
      | line :: lines => (c :: line) :: lines
      | [] => [[c]]
      end
  end.

(** [line.trim().length > 0] *)
Definition not_blank (line : jsstring) : bool :=
  match trim line with [] => false | _ => true end.

(** [restoreBasicHtmlFormatting(plainText)] on a string argument. *)
Definition restoreBasicHtmlFormatting (plainText : jsstring) : jsstring :=
  match plainText with
  | [] => []
  | _ =>
    let paragraphs :=
      concat (map (fun line => lit "<p>" ++ trim line ++ lit "</p>")
                  (List.filter not_blank (split_lines plainText))) in
    match paragraphs with
    | [] => lit "<p>" ++ plainText ++ lit "</p>"
    | _ => paragraphs
    end
  end.

End HtmlDisplay.

(** ** pages/CourseDetail.jsx: the analysis of the stored courses *)

Module DataAnalysis.
Import JsString Json Model Storage HtmlSanitizer Number.
Local Open Scope js_scope.

(** The five counters of [analyzeExistingData]. *)
Record Tally := {
  coursesWithHtml : nat;
  sectionsWithHtml : nat;
  lessonsWithHtml : nat;
  totalOriginalSize : nat;
  totalCleanedSize : nat
}.

Definition no_html : Tally :=
  {| coursesWithHtml := 0; sectionsWithHtml := 0; lessonsWithHtml := 0;
     totalOriginalSize := 0; totalCleanedSize := 0 |}.

(** The three shapes of the object the function returns: the all-zero
    report for an empty store, [{hasData: false, error}], and the full
    report. *)
Inductive Analysis :=
| NoData
| Failed (error : exn)
| Analysed (totalCourses : nat) (counters : Tally) (estimatedSavings : Z)
    (savingsPercentage : float).

(** [v.k] on a parsed value, for the keys read here ([description],
    [sections], [lessons], [content]): [None] is the TypeError of a read on
    [null]; arrays, strings, numbers and booleans have no such property. *)
Definition read (k : jsstring) (v : json) : option (option json) :=
  match v with
  | JNull => None
  | JObject props => Some (assoc k props)
  | _ => Some None
  end.

Definition course_found (t : Tally) : Tally :=
  {| coursesWithHtml := S (coursesWithHtml t); sectionsWithHtml := sectionsWithHtml t;
     lessonsWithHtml := lessonsWithHtml t;
     totalOriginalSize := totalOriginalSize t; totalCleanedSize := totalCleanedSize t |}.

Definition section_found (t : Tally) : Tally :=
  {| coursesWithHtml := coursesWithHtml t; sectionsWithHtml := S (sectionsWithHtml t);
     lessonsWithHtml := lessonsWithHtml t;
     totalOriginalSize := totalOriginalSize t; totalCleanedSize := totalCleanedSize t |}.

Definition lesson_found (t : Tally) : Tally :=
  {| coursesWithHtml := coursesWithHtml t; sectionsWithHtml := sectionsWithHtml t;
     lessonsWithHtml := S (lessonsWithHtml t);
     totalOriginalSize := totalOriginalSize t; totalCleanedSize := totalCleanedSize t |}.

Definition add_sizes (original cleaned : nat) (t : Tally) : Tally :=
  {| coursesWithHtml := coursesWithHtml t; sectionsWithHtml := sectionsWithHtml t;
     lessonsWithHtml := lessonsWithHtml t;
     totalOriginalSize := totalOriginalSize t + original;
     totalCleanedSize := totalCleanedSize t + cleaned |}.

(** [forEach] with a callback that may throw. *)
Fixpoint for_each {A S : Type} (f : S -> A -> option S) (l : list A) (s : S) : option S :=
  match l with
  | [] => Some s
  | a :: r =>
    match f s a with
    | Some s' => for_each f r s'
    | None => None
    end
  end.

Section with_document.
Variable document : Document.

(** [if (x && containsHtmlTags(x)) { n++; ... += x.length; ... }];
    [containsHtmlTags] is false on what is not a string. *)
Definition count_text (found : Tally -> Tally) (x : option json) (t : Tally) : Tally :=
  match x with
  | Some (JString s) =>
    if containsHtmlTags s
    then add_sizes (length s) (length (stripHtmlTags document s)) (found t)
    else t
  | _ => t
  end.

Definition analyse_lesson (t : Tally) (lesson : json) : option Tally :=
  match read (lit "content") lesson with
  | None => None
  | Some content => Some (count_text lesson_found content t)
  end.

Definition analyse_section (t : Tally) (section : json) : option Tally :=
  match read (lit "description") section with
  | None => None
  | Some description =>
    let t1 := count_text section_found description t in
    match read (lit "lessons") section with
    | None => None
    | Some (Some (JArray lessons)) => for_each analyse_lesson lessons t1
    | Some _ => Some t1
    end
  end.

Definition analyse_course (t : Tally) (course : json) : option Tally :=
  match read (lit "description") course with
  | None => None
  | Some description =>
    let t1 := count_text course_found description t in
    match read (lit "sections") course with
    | None => None
    | Some (Some (JArray sections)) => for_each analyse_section sections t1
    | Some _ => Some t1
    end
  end.

(** [analyzeExistingData()] *)
Definition analyzeExistingData : Js Analysis :=
  try_catch
    (let! stored := getItem courses in
     if missing stored then ret NoData
     else
       let! parsed := JSON_parse stored in
       match parsed with
       | JArray items =>
         match for_each analyse_course items no_html with
         | Some t =>
           let estimatedSavings :=
             (Z.of_nat (totalOriginalSize t) - Z.of_nat (totalCleanedSize t))%Z in
           let savingsPercentage :=
             if (0 <? totalOriginalSize t)%nat
             then Math_round (of_Z estimatedSavings / of_nat (totalOriginalSize t) * 100)%float
             else 0%float in
           ret (Analysed (length items) t estimatedSavings savingsPercentage)
         | None => throw TypeError
         end
       | _ => ret (Failed (Error "Invalid data format"))
       end)
    (fun e => ret (Failed e)).

End with_document.

End DataAnalysis.

(** * Checks on concrete inputs *)

Section examples.
Import JsString Json JsHeap HtmlSanitizer.

Definition sample_course : json :=
  JObject [(lit "id", JString (lit "c1"));
           (lit "description", JString (lit "<p>Hi</p>"));
           (lit "sections", JArray [
              JObject [(lit "id", JString (lit "s1"));
                       (lit "description", JString (lit "<b>One</b>"));
                       (lit "lessons", JArray [
                          JObject [(lit "id", JString (lit "L1"));
                                   (lit "content", JString (lit "<p>Test lesson content</p>"))]])]])].

Example sanitized_text_sample :
  sanitized_text None (JArray [sample_course]) =
  Some (JArray [
    JObject [(lit "id", JString (lit "c1"));
             (lit "description", JString (lit "Hi"));
             (lit "sections", JArray [
                JObject [(lit "id", JString (lit "s1"));
                         (lit "description", JString (lit "One"));
                         (lit "lessons", JArray [
                            JObject [(lit "id", JString (lit "L1"));
                                     (lit "content", JString (lit "Test lesson content"))]])]])]]).
Proof. vm_compute. reflexivity. Qed.

End examples.

Section number_examples.
Import Number.
Local Open Scope float_scope.

Example Math_round_examples :
  Math_round 14.5 = 15 /\ Math_round (23 / 40 * 100) = 57 /\ Math_round 2.25 = 2
  /\ Math_round (-2.5) = -2 /\ Math_round (-0.25) = neg_zero /\ Math_round 0.25 = 0
  /\ Math_round (next_down 0.5) = 0 /\ Math_round 100 = 100.
Proof. vm_compute. repeat split; reflexivity. Qed.

Example Math_floor_examples :
  Math_floor 1.75 = 1 /\ Math_floor (-0.5) = -1 /\ Math_floor 0.875 = 0 /\ Math_floor 3 = 3.
Proof. vm_compute. repeat split; reflexivity. Qed.

End number_examples.

Section progress_examples.
Import JsString Json Model Storage ProgressTracking.

Definition test_host : Host :=
  {| toISOString := fun t => lit "2025-01-01T00:00:00.000Z";
     toDateString := fun t => index_key (Z.to_nat (t / 86400000));
     Date_parse := fun s => Number.of_Z (Z.of_nat (length s) * 86400000) |}.

Definition two_lessons : Course :=
  {| course_id := lit "c"; status := None; enrolledStudents := None; rating := None;
     sections := Some [ {| lessons := Some [ {| lesson_id := lit "L1" |};
                                             {| lesson_id := lit "L2" |} ] |} ] |}.

(** The scenario of the specification: two lessons, the first one marked
    complete. *)
Example calculateCourseProgress_scenario :
  let st := snd (markLessonCompleted test_host 0 (lit "L1") ∅ empty_storage) in
  fst (calculateCourseProgress (Some two_lessons) st)
  = Return {| totalLessons := 2; completedLessons := 1; completionPercentage := 50%float;
              completedSections := 0; totalSections := 1 |}.
Proof. vm_compute. reflexivity. Qed.

End progress_examples.

(** * Properties *)

(** ** Strings *)

Section string_facts.
Import JsString.
Local Arguments N.eqb : simpl never.
Local Open Scope N_scope.


(** Normal form of [collapse_spaces]: white space occurs only as single,
    isolated spaces. *)
Fixpoint single_spaced (s : jsstring) : bool :=
  match s with
  | [] => true
  | c :: r =>
    (if is_space c
     then (c =? SP) && match r with c' :: _ => negb (is_space c') | [] => true end
     else true)
    && single_spaced r
  end.











(** No line feed survives [collapse_spaces], so the blank-line pass that
    follows it in [stripHtmlTags] finds nothing to do. *)
Lemma collapse_blank_lines_from_no_LF s :
  ~ In LF s -> collapse_blank_lines_from O s = s.
Proof.
  induction s as [|c r IH]; intros H; [reflexivity|].
  cbn [collapse_blank_lines_from].
  destruct (N.eqb_spec c LF) as [->|_]; [exfalso; apply H; left; reflexivity|].
  rewrite IH; [reflexivity|]. intros Hin. apply H. right. exact Hin.
Qed.

Lemma collapse_spaces_no_space c s :
  In c (collapse_spaces s) -> c = SP \/ (is_space c = false /\ In c s).
Proof.
  induction s as [|d r IH]; [intros []|].
  cbn [collapse_spaces]. destruct (is_space d) eqn:Hd.
  - destruct r as [|c' r'].
    + intros [<-|[]]. left. reflexivity.
    + destruct (is_space c') eqn:Hc'.
      * intros H. destruct (IH H) as [->|[H1 H2]]; [left; reflexivity|].
        right. split; [exact H1|right; exact H2].
      * intros [<-|H]; [left; reflexivity|].
        destruct (IH H) as [->|[H1 H2]]; [left; reflexivity|].
        right. split; [exact H1|right; exact H2].
  - intros [<-|H].
    + right. split; [exact Hd|left; reflexivity].
    + destruct (IH H) as [->|[H1 H2]]; [left; reflexivity|].
      right. split; [exact H1|right; exact H2].
Qed.

Lemma collapse_blank_lines_collapse_spaces s :
  collapse_blank_lines (collapse_spaces s) = collapse_spaces s.
Proof.
  apply collapse_blank_lines_from_no_LF. intros H.
  destruct (collapse_spaces_no_space _ _ H) as [E|[E _]]; discriminate E.
Qed.

(** *** Removing tags *)

Lemma remove_tags_from_sub m s c : In c (remove_tags_from m s) -> In c s.
Proof.
  revert m. induction s as [|d r IH]; intros m; [intros []|].
  cbn [remove_tags_from]. destruct m.
  - intros H. right. exact (IH _ H).
  - destruct ((d =? LT) && existsb (N.eqb GT) r).
    + intros H. right. exact (IH _ H).
    + intros [<-|H]; [left; reflexivity|right; exact (IH _ H)].
Qed.



Lemma remove_tags_no_tag s : has_tag s = false -> remove_tags s = s.
Proof.
  unfold remove_tags. induction s as [|c r IH]; [reflexivity|].
  cbn [has_tag remove_tags_from]. intros H. apply orb_false_iff in H as [H1 H2].
  rewrite H1, (IH H2). reflexivity.
Qed.

(** *** Entity replacement on a string without ampersand *)

Lemma starts_with_amp pat s : ~ In AMP s -> starts_with (AMP :: pat) s = false.
Proof.
  destruct s as [|c r]; [reflexivity|]. intros H. simpl.
  destruct (N.eqb_spec AMP c) as [E|_]; [|reflexivity].
  exfalso. apply H. left. symmetry. exact E.
Qed.

Lemma replace_all_no_amp pat rep s :
  ~ In AMP s -> replace_all (AMP :: pat) rep s = s.
Proof.
  unfold replace_all. induction s as [|c r IH]; intros H; [reflexivity|].
  cbn [replace_from]. rewrite (starts_with_amp pat (c :: r) H).
  rewrite IH; [reflexivity|]. intros Hin. apply H. right. exact Hin.
Qed.

Lemma fallback_no_amp s :
  ~ In AMP s ->
  HtmlSanitizer.stripHtmlTags_fallback s = trim (collapse_spaces (remove_tags s)).
Proof.
  intros H. unfold HtmlSanitizer.stripHtmlTags_fallback.
  assert (Hr : ~ In AMP (remove_tags s)).
  { intros Hin. apply H. exact (remove_tags_from_sub _ _ _ Hin). }
  change (lit "&nbsp;") with (AMP :: lit "nbsp;").
  change (lit "&amp;") with (AMP :: lit "amp;").
  change (lit "&lt;") with (AMP :: lit "lt;").
  change (lit "&gt;") with (AMP :: lit "gt;").
  change (lit "&quot;") with (AMP :: lit "quot;").
  change (lit "&#39;") with (AMP :: lit "#39;").
  rewrite !(replace_all_no_amp _ _ _ Hr). reflexivity.
Qed.

End string_facts.

(** ** Sanitizer: [stripHtmlTags] *)

Section stripHtmlTags_facts.
Import JsString HtmlSanitizer.
Local Arguments N.eqb : simpl never.
Local Open Scope N_scope.

Lemma no_amp_In s : existsb (N.eqb AMP) s = false -> ~ In AMP s.
Proof.
  intros H Hin. assert (E : existsb (N.eqb AMP) s = true).
  { apply existsb_exists. exists AMP. split; [exact Hin|apply N.eqb_refl]. }
  congruence.
Qed.

Lemma In_no_amp s : ~ In AMP s -> existsb (N.eqb AMP) s = false.
Proof.
  intros H. destruct (existsb (N.eqb AMP) s) eqn:E; [|reflexivity].
  apply existsb_exists in E as [x [Hin Hx]]. apply N.eqb_eq in Hx. subst x. contradiction.
Qed.




Lemma trim_end_head s d r : trim_end s = d :: r -> exists r0, s = d :: r0.
Proof.
  destruct s as [|c s']; [discriminate|]. cbn [trim_end].
  destruct (trim_end s') as [|e r'].
  - destruct (is_space c); [discriminate|]. intros [= <- <-]. exists s'. reflexivity.
  - intros [= <- <-]. exists s'. reflexivity.
Qed.

Lemma drop_while_head p s d r : drop_while p s = d :: r -> p d = false.
Proof.
  induction s as [|c s' IH]; [discriminate|]. simpl.
  destruct (p c) eqn:E; [exact IH|]. intros [= <- <-]. exact E.
Qed.

Lemma trim_end_idem s : trim_end (trim_end s) = trim_end s.
Proof.
  induction s as [|c r IH]; [reflexivity|]. cbn [trim_end].
  destruct (trim_end r) as [|e r'] eqn:E.
  - destruct (is_space c) eqn:Hc; [reflexivity|]. cbn [trim_end]. rewrite Hc. reflexivity.
  - cbn [trim_end] in *. rewrite IH. reflexivity.
Qed.

Lemma trim_idem s : trim (trim s) = trim s.
Proof.
  unfold trim. set (y := drop_while is_space s).
  assert (E : drop_while is_space (trim_end y) = trim_end y).
  { destruct (trim_end y) as [|d r] eqn:Ey; [reflexivity|].
    destruct (trim_end_head _ _ _ Ey) as [r0 Hy].
    assert (Hd : is_space d = false) by exact (drop_while_head _ _ _ _ Hy).
    simpl. rewrite Hd. reflexivity. }
  rewrite E. apply trim_end_idem.
Qed.

Lemma single_spaced_tail c r : single_spaced (c :: r) = true -> single_spaced r = true.
Proof. cbn [single_spaced]. intros H. apply andb_true_iff in H as [_ H]. exact H. Qed.

Lemma single_spaced_collapse_spaces s : single_spaced (collapse_spaces s) = true.
Proof.
  induction s as [|c r IH]; [reflexivity|].
  cbn [collapse_spaces]. destruct (is_space c) eqn:Hc.
  - destruct r as [|c' r']; [reflexivity|].
    destruct (is_space c') eqn:Hc'; [exact IH|].
    cbn [collapse_spaces] in *. rewrite Hc' in *.
    cbn [single_spaced]. rewrite Hc'. cbn [single_spaced] in IH. rewrite Hc' in IH.
    exact IH.
  - cbn [single_spaced]. rewrite Hc, IH. reflexivity.
Qed.

Lemma collapse_spaces_single_spaced s :
  single_spaced s = true -> collapse_spaces s = s.
Proof.
  induction s as [|c r IH]; [reflexivity|]. intros H.
  pose proof (single_spaced_tail _ _ H) as Hr.
  cbn [collapse_spaces single_spaced] in *. destruct (is_space c) eqn:Hc.
  - apply andb_true_iff in H as [H _]. apply andb_true_iff in H as [H1 H2].
    apply N.eqb_eq in H1. subst c. destruct r as [|c' r']; [reflexivity|].
    apply negb_true_iff in H2. rewrite H2, (IH Hr). reflexivity.
  - rewrite (IH Hr). reflexivity.
Qed.

Lemma single_spaced_drop_while s :
  single_spaced s = true -> single_spaced (drop_while is_space s) = true.
Proof.
  induction s as [|c r IH]; [reflexivity|]. intros H. simpl.
  destruct (is_space c); [apply IH, (single_spaced_tail _ _ H)|exact H].
Qed.

Lemma single_spaced_trim_end s :
  single_spaced s = true -> single_spaced (trim_end s) = true.
Proof.
  induction s as [|c r IH]; [reflexivity|]. intros H.
  pose proof (IH (single_spaced_tail _ _ H)) as IHr.
  cbn [trim_end]. destruct (trim_end r) as [|d r'] eqn:E.
  - destruct (is_space c) eqn:Hc; [reflexivity|]. cbn [single_spaced]. rewrite Hc. reflexivity.
  - destruct (trim_end_head _ _ _ E) as [r0 ->].
    cbn [single_spaced] in *. apply andb_true_iff in H as [H _].
    rewrite H, IHr. reflexivity.
Qed.

Lemma single_spaced_trim s : single_spaced s = true -> single_spaced (trim s) = true.
Proof. intros H. apply single_spaced_trim_end, single_spaced_drop_while, H. Qed.












End stripHtmlTags_facts.

(** ** Migration and loading *)

Section migration_facts.
Import JsString Json Model Storage DataMigration.

(** A stored payload the migration cannot use: a non-empty string that does
    not parse, or the text of a value that is not an array. *)
Definition unusable (stored : option (text json)) : Prop :=
  match stored with
  | Some (Raw (_ :: _)) => True
  | Some (Doc (JArray _)) => False
  | Some (Doc _) => True
  | _ => False
  end.

Lemma isMigrationNeeded_run st :
  isMigrationNeeded st =
  (Return match migration_version st with
          | Some v => negb (eqb v CURRENT_MIGRATION_VERSION)
          | None => true
          end, st).
Proof. reflexivity. Qed.

Lemma isMigrationNeeded_same_version st st' :
  migration_version st' = migration_version st ->
  fst (isMigrationNeeded st') = fst (isMigrationNeeded st).
Proof. intros H. rewrite !isMigrationNeeded_run. simpl. rewrite H. reflexivity. Qed.

(** Whatever makes a run fail, the marker is as it was. *)
Lemma migrateExistingData_failure_keeps_version document now createBackup st r st' :
  migrateExistingData document now createBackup st = (Return r, st') ->
  success r = false ->
  migration_version st' = migration_version st.
Proof.
  unfold migrateExistingData, try_catch, bind, getItem, update, ret, throw, Storage.JSON_parse.
  destruct (courses st) as [[[|c s]|j]|] eqn:Hc; cbn [missing].
  - intros [= <- <-]. discriminate.
  - destruct createBackup; cbn; intros [= <- <-]; reflexivity.
  - destruct createBackup; destruct j; cbn;
      try (intros [= <- <-]; reflexivity);
      destruct (HtmlSanitizer.sanitized_text document (JArray items)); cbn;
      intros [= <- <-]; try discriminate; reflexivity.
  - intros [= <- <-]. discriminate.
Qed.

Lemma migrateExistingData_unusable document now createBackup st :
  unusable (courses st) ->
  exists r st',
    migrateExistingData document now createBackup st = (Return r, st')
    /\ success r = false /\ courses st' = courses st.
Proof.
  unfold migrateExistingData, try_catch, bind, getItem, update, ret, throw, Storage.JSON_parse.
  destruct (courses st) as [[[|c s]|j]|] eqn:Hc; cbn [missing unusable]; try contradiction.
  - intros _. destruct createBackup; eexists _, _; (split; [reflexivity|]); split;
      try reflexivity; simpl; first [exact Hc | symmetry; exact Hc].
  - destruct j; try contradiction; intros _;
      destruct createBackup; eexists _, _; (split; [reflexivity|]); split;
      try reflexivity; simpl; first [exact Hc | symmetry; exact Hc].
Qed.

(** C2.  When the stored payload does not parse, or parses to something that
    is not an array, [migrateExistingData] returns a failure result, leaves
    the version marker as it was, and a following [isMigrationNeeded]
    answers as it did before (so [true] stays [true]). *)
Theorem migrateExistingData_failure document now createBackup st :
  unusable (courses st) ->
  exists r st',
    migrateExistingData document now createBackup st = (Return r, st')
    /\ success r = false
    /\ migration_version st' = migration_version st
    /\ fst (isMigrationNeeded st') = fst (isMigrationNeeded st).
Proof.
  intros H. destruct (migrateExistingData_unusable document now createBackup st H)
    as (r & st' & Hrun & Hfail & _).
  exists r, st'. split; [exact Hrun|]. split; [exact Hfail|].
  pose proof (migrateExistingData_failure_keeps_version _ _ _ _ _ _ Hrun Hfail) as Hv.
  split; [exact Hv|]. apply isMigrationNeeded_same_version, Hv.
Qed.

Definition corrupt_courses : localStorage :=
  set_courses (Some (Raw (lit "not json"))) empty_storage.

Lemma migrateExistingData_failure_witness :
  unusable (courses corrupt_courses)
  /\ exists r st',
       migrateExistingData None 1700000000000 true corrupt_courses = (Return r, st')
       /\ success r = false
       /\ migration_version st' = migration_version corrupt_courses
       /\ fst (isMigrationNeeded st') = fst (isMigrationNeeded corrupt_courses).
Proof.
  split; [exact I|].
  apply (migrateExistingData_failure None 1700000000000 true corrupt_courses). exact I.
Defined.

Example isMigrationNeeded_after_failure :
  fst (isMigrationNeeded (snd (migrateExistingData None 1700000000000 true corrupt_courses)))
  = Return true.
Proof. vm_compute. reflexivity. Qed.

End migration_facts.

Section loading_facts.
Import JsString Json Model Storage.

Lemma runAutoMigration_unusable document now st :
  unusable (courses st) ->
  exists r st',
    DataMigration.runAutoMigration document now st = (Return r, st')
    /\ courses st' = courses st.
Proof.
  intros H. unfold DataMigration.runAutoMigration, try_catch, bind.
  rewrite isMigrationNeeded_run.
  destruct (match migration_version st with
            | Some v => negb (eqb v DataMigration.CURRENT_MIGRATION_VERSION)
            | None => true
            end); cbn [negb].
  - destruct (migrateExistingData_unusable document now true st H)
      as (r & st' & Hrun & Hfail & Hc).
    rewrite Hrun, Hfail. eexists _, _. split; [reflexivity|exact Hc].
  - eexists _, _. split; reflexivity.
Qed.

Lemma loadCoursesFromStorage_corrupt document now st c s :
  courses st = Some (Raw (c :: s)) ->
  exists st',
    CourseSlice.loadCoursesFromStorage document now st = (Return [], st')
    /\ courses st' = None.
Proof.
  intros Hc.
  assert (Hu : unusable (courses st)) by (rewrite Hc; exact I).
  destruct (runAutoMigration_unusable document now st Hu) as (r & st1 & Hrun & Hsame).
  unfold CourseSlice.loadCoursesFromStorage, try_catch, bind at 1.
  rewrite Hrun. unfold bind, getItem, update, ret, throw, Storage.JSON_parse.
  rewrite Hsame, Hc. cbn [missing]. eexists. split; reflexivity.
Qed.

(** C3, as the code has it.  A stored string that does not parse never makes
    a loader throw.  [loadCoursesFromStorage] removes the key and returns
    the empty array; the loaders of the progress ledger return their
    defaults and leave the store as it is. *)
Theorem load_corrupted document host now st c s :
  (courses st = Some (Raw (c :: s)) ->
   exists st', CourseSlice.loadCoursesFromStorage document now st = (Return [], st')
               /\ courses st' = None)
  /\ (course_progress st = Some (Raw (c :: s)) ->
      ProgressTracking.loadProgressFromStorage st = (Return ∅, st)
      /\ CourseSlice.loadProgressFromStorage st = (Return ∅, st))
  /\ (course_bookmarks st = Some (Raw (c :: s)) ->
      ProgressTracking.loadBookmarkedCourses st = (Return [], st))
  /\ (learning_streak st = Some (Raw (c :: s)) ->
      ProgressTracking.getLearningStreak st = (Return ProgressTracking.streak_error, st)
      /\ ProgressTracking.updateLearningStreak host now st
         = (Return ProgressTracking.streak_error, st)).
Proof.
  split; [exact (loadCoursesFromStorage_corrupt _ _ _ _ _)|].
  unfold ProgressTracking.loadProgressFromStorage, CourseSlice.loadProgressFromStorage,
    ProgressTracking.loadBookmarkedCourses, ProgressTracking.getLearningStreak,
    ProgressTracking.updateLearningStreak,
    try_catch, bind, getItem, ret, throw, Storage.JSON_parse.
  split; [|split]; intros H; rewrite H; repeat split.
Qed.

Definition all_corrupt : localStorage :=
  {| courses := Some (Raw (lit "not json"));
     course_progress := Some (Raw (lit "not json"));
     course_bookmarks := Some (Raw (lit "not json"));
     learning_streak := Some (Raw (lit "not json"));
     migration_version := None;
     backups := ∅ |}.

Lemma load_corrupted_witness :
  (exists st', CourseSlice.loadCoursesFromStorage None 0 all_corrupt = (Return [], st')
               /\ courses st' = None)
  /\ ProgressTracking.loadProgressFromStorage all_corrupt = (Return ∅, all_corrupt)
  /\ ProgressTracking.loadBookmarkedCourses all_corrupt = (Return [], all_corrupt)
  /\ ProgressTracking.getLearningStreak all_corrupt
     = (Return ProgressTracking.streak_error, all_corrupt).
Proof.
  destruct (load_corrupted None test_host 0 all_corrupt 110%N (lit "ot json"))
    as (H1 & H2 & H3 & H4).
  split; [exact (H1 eq_refl)|]. split; [exact (proj1 (H2 eq_refl))|].
  split; [exact (H3 eq_refl)|exact (proj1 (H4 eq_refl))].
Defined.

(** C3 fails as stated: only the course loader deletes what it cannot
    parse. *)
Lemma loadProgressFromStorage_keeps_corrupt_key :
  ProgressTracking.loadProgressFromStorage all_corrupt = (Return ∅, all_corrupt)
  /\ course_progress (snd (ProgressTracking.loadProgressFromStorage all_corrupt))
     = Some (Raw (lit "not json"))
  /\ course_bookmarks (snd (ProgressTracking.loadBookmarkedCourses all_corrupt))
     = Some (Raw (lit "not json"))
  /\ learning_streak (snd (ProgressTracking.getLearningStreak all_corrupt))
     = Some (Raw (lit "not json")).
Proof. repeat split; reflexivity. Qed.

End loading_facts.

(** ** Progress ledger *)

Section ledger_facts.
Import JsString Json Model Storage ProgressTracking.
Variable host : Host.

Lemma eqb_refl (a : jsstring) : eqb a a = true.
Proof. induction a as [|c a IH]; [reflexivity|]. simpl. rewrite N.eqb_refl. exact IH. Qed.

Lemma eqb_eq (a b : jsstring) : eqb a b = true <-> a = b.
Proof.
  split; [|intros ->; apply eqb_refl].
  revert b. induction a as [|c a IH]; intros [|d b]; simpl; try discriminate; [reflexivity|].
  intros H. apply andb_true_iff in H as [H1 H2]. apply N.eqb_eq in H1. subst d.
  rewrite (IH b H2). reflexivity.
Qed.

(** The ledger a loader sees: the empty one when the key is missing or does
    not parse. *)
Definition ledger (st : localStorage) : Progress :=
  match course_progress st with
  | Some (Doc p) => p
  | _ => ∅
  end.

Lemma loadProgressFromStorage_run st :
  loadProgressFromStorage st = (Return (ledger st), st).
Proof.
  unfold loadProgressFromStorage, ledger, try_catch, bind, getItem, ret, throw, Storage.JSON_parse.
  destruct (course_progress st) as [[[|c s]|p]|]; reflexivity.
Qed.

(** *** The streak *)

Ltac run_js :=
  unfold updateLearningStreak, getLearningStreak, loadProgressFromStorage,
    saveProgressToStorage, try_catch, bind, getItem, ret, throw, update, Storage.JSON_parse.

Lemma updateLearningStreak_returns now st :
  exists d, fst (updateLearningStreak host now st) = Return d.
Proof.
  run_js.
  destruct (learning_streak st) as [[[|c s]|d]|]; cbn -[sort streak_of app];
    try (eexists; reflexivity).
  - destruct (activityDates d) as [dates|]; cbn -[sort streak_of app]; [|eexists; reflexivity].
    destruct (existsb (eqb (toDateString host now)) dates); eexists; reflexivity.
Qed.

Lemma updateLearningStreak_frame now st :
  let st' := snd (updateLearningStreak host now st) in
  courses st' = courses st /\ course_progress st' = course_progress st
  /\ course_bookmarks st' = course_bookmarks st
  /\ migration_version st' = migration_version st /\ backups st' = backups st.
Proof.
  run_js.
  destruct (learning_streak st) as [[[|c s]|d]|]; cbn -[sort streak_of app];
    try (repeat split; reflexivity).
  destruct (activityDates d) as [dates|]; cbn -[sort streak_of app];
    [|repeat split; reflexivity].
  destruct (existsb (eqb (toDateString host now)) dates); repeat split; reflexivity.
Qed.

(** A second call on the same calendar day changes nothing and returns what
    the first call returned. *)
Lemma updateLearningStreak_again now now' st :
  toDateString host now' = toDateString host now ->
  updateLearningStreak host now' (snd (updateLearningStreak host now st))
  = updateLearningStreak host now st.
Proof.
  intros Hday. run_js.
  rewrite Hday. set (today := toDateString host now).
  assert (Hlast : forall dates, existsb (eqb today) (dates ++ [today]) = true).
  { intros dates. rewrite existsb_app. simpl. rewrite eqb_refl, orb_true_r. reflexivity. }
  destruct (learning_streak st) as [[[|c s]|d]|] eqn:Hs; cbn -[sort streak_of app].
  - rewrite Hlast. reflexivity.
  - rewrite Hs. reflexivity.
  - destruct (activityDates d) as [dates|] eqn:Hd; cbn -[sort streak_of app].
    + destruct (existsb (eqb today) dates) eqn:Hin; cbn -[sort streak_of app].
      * rewrite Hs. cbn -[sort streak_of app]. rewrite Hd. cbn -[sort streak_of app].
        rewrite Hin. reflexivity.
      * rewrite Hlast. reflexivity.
    + rewrite Hs. cbn -[sort streak_of app]. rewrite Hd. reflexivity.
  - rewrite Hlast. reflexivity.
Qed.

(** The first call at [now], then one call at each of [later], in order; the
    result is that of the last call. *)
Fixpoint updateLearningStreak_calls (now : Z) (later : list Z) (st : localStorage)
  : outcome StreakData * localStorage :=
  match later with
  | [] => updateLearningStreak host now st
  | t :: r => updateLearningStreak_calls t r (snd (updateLearningStreak host now st))
  end.

End ledger_facts.

Section streak_idempotent.
Import JsString Json Model Storage ProgressTracking.

(** C6.  However many calls follow the first one within the same calendar
    day, the record returned and the stored state are those of the first
    call. *)
Theorem updateLearningStreak_same_day (host : Host) (now : Z) (later : list Z)
    (st : localStorage) :
  Forall (fun t => toDateString host t = toDateString host now) later ->
  updateLearningStreak_calls host now later st = updateLearningStreak host now st.
Proof.
  revert now st. induction later as [|t r IH]; intros now st H; [reflexivity|].
  inversion H as [|? ? Ht Hr]; subst. cbn [updateLearningStreak_calls].
  rewrite IH.
  - apply updateLearningStreak_again, Ht.
  - clear - Ht Hr. induction Hr as [|u r' Hu Hr' IHr]; constructor.
    + rewrite Hu, Ht. reflexivity.
    + exact IHr.
Qed.

Lemma updateLearningStreak_same_day_witness :
  Forall (fun t => toDateString test_host t = toDateString test_host 172800000)
         [172800001; 180000000; 259199999]%Z
  /\ updateLearningStreak_calls test_host 172800000 [172800001; 180000000; 259199999]%Z
       empty_storage
     = updateLearningStreak test_host 172800000 empty_storage.
Proof.
  assert (H : Forall (fun t => toDateString test_host t = toDateString test_host 172800000)
                     [172800001; 180000000; 259199999]%Z).
  { repeat constructor. }
  split; [exact H|].
  exact (updateLearningStreak_same_day test_host 172800000 _ empty_storage H).
Defined.

End streak_idempotent.

Section toggle_facts.
Import JsString Json Model Storage ProgressTracking.
Variable host : Host.

Lemma ledger_updateLearningStreak now st :
  ledger (snd (updateLearningStreak host now st)) = ledger st.
Proof.
  unfold ledger. destruct (updateLearningStreak_frame host now st) as (_ & H & _).
  cbv zeta in H. rewrite H. reflexivity.
Qed.

Lemma markLessonCompleted_ledger now lessonId additionalData st :
  ledger (snd (markLessonCompleted host now lessonId additionalData st))
  = <[lessonId := completed_record host now additionalData]> (ledger st).
Proof.
  unfold markLessonCompleted, try_catch, bind at 1.
  rewrite loadProgressFromStorage_run. unfold bind.
  destruct (updateLearningStreak_returns host now st) as [d Hd].
  pose proof (ledger_updateLearningStreak now st) as Hl.
  destruct (updateLearningStreak host now st) as [o st1]. cbn [fst snd] in *. subst o.
  unfold saveProgressToStorage, try_catch, bind, update, ret. cbn. reflexivity.
Qed.

Lemma markLessonIncomplete_ledger lessonId st :
  ledger (snd (markLessonIncomplete lessonId st)) = delete lessonId (ledger st).
Proof.
  unfold markLessonIncomplete, try_catch, bind at 1.
  rewrite loadProgressFromStorage_run.
  unfold saveProgressToStorage, try_catch, bind, update, ret. cbn. reflexivity.
Qed.

(** What one toggle does to the ledger. *)
Lemma toggleLessonCompletion_ledger now lessonId additionalData st :
  ledger (snd (toggleLessonCompletion host now lessonId additionalData st))
  = if is_completed (ledger st !! lessonId)
    then delete lessonId (ledger st)
    else <[lessonId := completed_record host now additionalData]> (ledger st).
Proof.
  unfold toggleLessonCompletion, getLessonProgress, bind at 1 2.
  rewrite loadProgressFromStorage_run. unfold ret at 1.
  destruct (is_completed (ledger st !! lessonId)); unfold bind.
  - rewrite <- markLessonIncomplete_ledger.
    destruct (markLessonIncomplete lessonId st) as [[b|e] st1]; reflexivity.
  - rewrite <- (markLessonCompleted_ledger now lessonId additionalData st).
    destruct (markLessonCompleted host now lessonId additionalData st) as [[b|e] st1];
      reflexivity.
Qed.

(** A progress record without its time stamp. *)
Definition without_time (r : ProgressRecord) : ProgressRecord :=
  delete (lit "completedAt") r.

End toggle_facts.

Section toggle_twice.
Import JsString Json Model Storage ProgressTracking.

(** C4, as the code has it.  Two toggles of a lesson give back the ledger,
    time stamps aside, when the lesson had no record and the metadata of the
    first call leaves [completed] truthy, or when it had a completed record
    whose other properties are those the second call writes. *)
Theorem toggleLessonCompletion_twice (host : Host) (now1 now2 : Z) (lessonId : jsstring)
    (data1 data2 : ProgressRecord) (st : localStorage) :
  match ledger st !! lessonId with
  | None => is_completed (Some (completed_record host now1 data1)) = true
  | Some r =>
    is_completed (Some r) = true
    /\ without_time r = without_time (completed_record host now2 data2)
  end ->
  without_time <$>
    ledger (snd (toggleLessonCompletion host now2 lessonId data2
                   (snd (toggleLessonCompletion host now1 lessonId data1 st))))
  = without_time <$> ledger st.
Proof.
  intros H. rewrite !toggleLessonCompletion_ledger.
  destruct (ledger st !! lessonId) as [r|] eqn:Hr.
  - destruct H as [Hc Hsame]. rewrite Hc, lookup_delete_eq. cbn [is_completed].
    rewrite insert_delete_eq, fmap_insert, <- Hsame, <- fmap_insert.
    rewrite (insert_id _ _ _ Hr). reflexivity.
  - cbn [is_completed]. rewrite lookup_insert_eq, H.
    rewrite (delete_insert_id _ _ _ Hr). reflexivity.
Qed.

Lemma toggleLessonCompletion_twice_witness :
  is_completed (Some (completed_record test_host 0 ∅)) = true
  /\ without_time <$>
       ledger (snd (toggleLessonCompletion test_host 5 (lit "L1") ∅
                      (snd (toggleLessonCompletion test_host 0 (lit "L1") ∅ empty_storage))))
     = without_time <$> ledger empty_storage.
Proof.
  split; [reflexivity|].
  apply (toggleLessonCompletion_twice test_host 0 5 (lit "L1") ∅ ∅ empty_storage).
  reflexivity.
Defined.

(** A ledger in which lesson [L1] was completed with a score. *)
Definition scored_ledger : localStorage :=
  set_course_progress
    (Some (Doc {[ lit "L1" :=
                  <[lit "completed" := JBool true]>
                    (<[lit "completedAt" := JString (lit "2024-12-31T10:00:00.000Z")]>
                      {[ lit "score" := JNumber 95%float ]}) ]}))
    empty_storage.

Definition scored_ledger_toggled : localStorage :=
  snd (toggleLessonCompletion test_host 5 (lit "L1") ∅
         (snd (toggleLessonCompletion test_host 0 (lit "L1") ∅ scored_ledger))).

(** C4 fails as stated: un-completing deletes the record, so the metadata it
    carried is gone after the second toggle. *)
Lemma toggleLessonCompletion_loses_metadata :
  (ledger scored_ledger !! lit "L1") ≫= (fun r => r !! lit "score") = Some (JNumber 95%float)
  /\ (ledger scored_ledger_toggled !! lit "L1") ≫= (fun r => r !! lit "score") = None
  /\ without_time <$> ledger scored_ledger_toggled <> without_time <$> ledger scored_ledger.
Proof.
  split; [vm_compute; reflexivity|]. split; [vm_compute; reflexivity|].
  intros H.
  apply (f_equal (fun m : Progress => (m !! lit "L1") ≫= (fun r => r !! lit "score"))) in H.
  vm_compute in H. discriminate H.
Qed.

End toggle_twice.

(** ** Doubles *)

Section float_facts.
Import Number.
Local Open Scope Z_scope.


Lemma binary_round_aux_sign s m e l :
  match binary_round_aux prec emax s m e l with
  | S754_zero s' | S754_infinity s' | S754_finite s' _ _ => s' = s
  | S754_nan => True
  end.
Proof.
  unfold binary_round_aux.
  destruct (shr_fexp prec emax m e l) as [mrs e1].
  destruct (shr_fexp prec emax _ e1 loc_Exact) as [mrs2 e2].
  destruct (shr_m mrs2); [reflexivity| |exact I].
  destruct (e2 <=? emax - prec); reflexivity.
Qed.

Lemma to_Z_of_Z_small z : 0 <= z < 2 ^ 63 -> Uint63.to_Z (Uint63.of_Z z) = z.
Proof.
  intros H. rewrite Uint63.of_Z_spec. apply Z.mod_small. exact H.
Qed.




Lemma digits2_pos_bounds p :
  2 ^ (Z.pos (digits2_pos p) - 1) <= Z.pos p < 2 ^ Z.pos (digits2_pos p).
Proof.
  induction p as [p IH|p IH|]; cbn [digits2_pos].
  - rewrite Pos2Z.inj_succ. replace (Z.succ (Z.pos (digits2_pos p)) - 1)
      with (Z.succ (Z.pos (digits2_pos p) - 1)) by lia.
    rewrite !Z.pow_succ_r by lia. lia.
  - rewrite Pos2Z.inj_succ. replace (Z.succ (Z.pos (digits2_pos p)) - 1)
      with (Z.succ (Z.pos (digits2_pos p) - 1)) by lia.
    rewrite !Z.pow_succ_r by lia. lia.
  - simpl. lia.
Qed.






End float_facts.

(** ** Course progress *)

Section course_progress_counts.
Import JsString Json Model Storage ProgressTracking.

(** A lesson that has a completed record. *)
Definition lesson_done (progress : Progress) (l : Lesson) : bool :=
  is_completed (progress !! lesson_id l).

(** The lessons of a course, section after section. *)
Definition lessons_of (secs : list Section) : list Lesson :=
  flat_map (fun s => default [] (lessons s)) secs.

(** A section with at least one lesson, all of them completed. *)
Definition section_done (progress : Progress) (s : Section) : bool :=
  match lessons s with
  | Some ls => (0 <? length ls)%nat && forallb (lesson_done progress) ls
  | None => false
  end.

Lemma count_lesson_eq progress a b c l :
  count_lesson progress (a, b, c) l
  = if lesson_done progress l then (S a, S b, S c) else (S a, b, c).
Proof. reflexivity. Qed.

Lemma count_section_eq progress a b c s :
  count_section progress (a, b, c) s
  = match lessons s with
    | None => (a, b, c)
    | Some ls =>
      let '(t, d, k) := fold_left (count_lesson progress) ls (a, b, O) in
      if (0 <? length ls)%nat && (k =? length ls)%nat then (t, d, S c) else (t, d, c)
    end.
Proof. reflexivity. Qed.

Lemma count_lesson_fold progress ls a b c :
  fold_left (count_lesson progress) ls (a, b, c)
  = (a + length ls, b + length (List.filter (lesson_done progress) ls),
     c + length (List.filter (lesson_done progress) ls)).
Proof.
  revert a b c. induction ls as [|l ls IH]; intros a b c; cbn [fold_left List.filter length].
  - rewrite !pair_equal_spec; repeat split; lia.
  - rewrite count_lesson_eq.
    destruct (lesson_done progress l); rewrite IH; cbn [length]; rewrite !pair_equal_spec; repeat split; lia.
Qed.

Lemma filter_length_le {A : Type} (f : A -> bool) (l : list A) :
  length (List.filter f l) <= length l.
Proof. induction l as [|x l IH]; simpl; [lia|]. destruct (f x); simpl; lia. Qed.

Lemma filter_all {A : Type} (f : A -> bool) (l : list A) :
  (length (List.filter f l) =? length l) = forallb f l.
Proof.
  induction l as [|x l IH]; [reflexivity|]. simpl.
  pose proof (filter_length_le f l) as Hle.
  destruct (f x); simpl.
  - exact IH.
  - apply Nat.eqb_neq. lia.
Qed.

Lemma count_section_fold progress secs a b c :
  fold_left (count_section progress) secs (a, b, c)
  = (a + length (lessons_of secs),
     b + length (List.filter (lesson_done progress) (lessons_of secs)),
     c + length (List.filter (section_done progress) secs)).
Proof.
  revert a b c. induction secs as [|s secs IH]; intros a b c.
  - simpl. rewrite !pair_equal_spec; repeat split; lia.
  - cbn [fold_left]. rewrite count_section_eq. unfold lessons_of.
    cbn [flat_map List.filter]. fold (lessons_of secs). unfold section_done at 1.
    destruct (lessons s) as [ls|]; cbn [default].
    + rewrite count_lesson_fold. cbv zeta. rewrite Nat.add_0_l, filter_all.
      rewrite List.filter_app, !length_app.
      destruct ((0 <? length ls)%nat && forallb (lesson_done progress) ls);
        rewrite IH; unfold id; cbn [length]; rewrite !pair_equal_spec; repeat split; lia.
    + rewrite IH. reflexivity.
Qed.

Definition course_with (secs : option (list Section)) : Course :=
  {| course_id := []; status := None; enrolledStudents := None; rating := None;
     sections := secs |}.

(** The counters of [calculateCourseProgress], read off the course. *)
Lemma calculateCourseProgress_run (c : Course) (secs : list Section) st :
  sections c = Some secs ->
  let total := length (lessons_of secs) in
  let completed := length (List.filter (lesson_done (ledger st)) (lessons_of secs)) in
  calculateCourseProgress (Some c) st =
  (Return {| totalLessons := total;
             completedLessons := completed;
             completionPercentage :=
               if (0 <? total)%nat then percentage completed total else 0%float;
             completedSections := length (List.filter (section_done (ledger st)) secs);
             totalSections := length secs |}, st).
Proof.
  intros Hs. destruct c as [i stt en ra se]. cbn in Hs. subst se.
  unfold calculateCourseProgress, bind. rewrite loadProgressFromStorage_run.
  rewrite count_section_fold. reflexivity.
Qed.

Lemma calculateCourseProgress_no_sections (c : Course) st :
  sections c = None ->
  calculateCourseProgress (Some c) st =
  (Return {| totalLessons := O; completedLessons := O; completionPercentage := 0%float;
             completedSections := O; totalSections := O |}, st).
Proof. intros Hs. destruct c as [i stt en ra se]. cbn in Hs. subst se. reflexivity. Qed.

End course_progress_counts.

Section course_progress_spec.
Import JsString Json Model Storage ProgressTracking Number.

Definition sections_of (course : option Course) : list Section :=
  match course with
  | Some c => default [] (sections c)
  | None => []
  end.



Definition forty_lessons : Course :=
  course_with (Some [ {| lessons := Some (map (fun i => {| lesson_id := index_key i |}) (seq 0 40)) |} ]).

Definition twenty_three_done : localStorage :=
  set_course_progress
    (Some (Doc (list_to_map
                  (map (fun i => (index_key i, {[ lit "completed" := JBool true ]})) (seq 0 23)))))
    empty_storage.



End course_progress_spec.

(** ** Analytics *)

Section analytics_facts.
Import JsString Json Model Storage Number Analytics.



Lemma or_zero_missing : or_zero None = 0%float.
Proof. reflexivity. Qed.

Lemma CourseSlice_loadProgressFromStorage_run st :
  CourseSlice.loadProgressFromStorage st = (Return (ledger st), st).
Proof.
  unfold CourseSlice.loadProgressFromStorage, ledger, try_catch, bind, getItem, ret, throw,
    Storage.JSON_parse.
  destruct (course_progress st) as [[[|c s]|p]|]; reflexivity.
Qed.


Definition rated (r : option float) : Course :=
  {| course_id := []; status := None; enrolledStudents := None; rating := r;
     sections := None |}.

Example averageRating_three_courses :
  exists a,
    calculateCourseAnalytics (Some [rated (Some 4.5%float); rated None; rated (Some 4%float)])
      empty_storage = (Return a, empty_storage)
    /\ averageRating a = (28 / 10)%float.
Proof. eexists. split; vm_compute; reflexivity. Qed.

End analytics_facts.

(** ** Course sanitizer on the heap *)

Section json_induction.
Import JsString Json.

Lemma json_induction (P : json -> Prop) :
  P JNull -> (forall b, P (JBool b)) -> (forall x, P (JNumber x)) ->
  (forall s, P (JString s)) ->
  (forall items, Forall P items -> P (JArray items)) ->
  (forall props, Forall (fun p => P (snd p)) props -> P (JObject props)) ->
  forall j, P j.
Proof.
  intros Hnull Hbool Hnum Hstr Harr Hobj.
  fix IH 1. intros [| b | x | s | items | props].
  - exact Hnull.
  - apply Hbool.
  - apply Hnum.
  - apply Hstr.
  - apply Harr. induction items as [|j items IHl]; constructor; [apply IH|exact IHl].
  - apply Hobj. induction props as [|[k j] props IHl]; constructor; [apply IH|exact IHl].
Qed.

End json_induction.

Section heap_facts.
Import JsString Json JsHeap.

(** [v] is the image of the tree [j] in the heap, all of its cells lying at
    locations that satisfy [P]. *)
Local Unset Elimination Schemes.
Inductive mirrors (P : loc -> Prop) (h : heap) : value -> json -> Prop :=
| mirrors_null : mirrors P h VNull JNull
| mirrors_bool b : mirrors P h (VBool b) (JBool b)
| mirrors_number x : mirrors P h (VNumber x) (JNumber x)
| mirrors_string s : mirrors P h (VString s) (JString s)
| mirrors_array l vs js :
    P l -> h !! l = Some (Array vs) -> Forall2 (mirrors P h) vs js ->
    mirrors P h (VObject l) (JArray js)
| mirrors_object l vps jps :
    P l -> h !! l = Some (Object vps) ->
    Forall2 (fun vp jp => fst vp = fst jp /\ mirrors P h (snd vp) (snd jp)) vps jps ->
    mirrors P h (VObject l) (JObject jps).
Local Set Elimination Schemes.

(** Property lists that agree key by key, the values being images. *)
Definition props_mirror (P : loc -> Prop) (h : heap)
    (vps : list (jsstring * value)) (jps : list (jsstring * json)) : Prop :=
  Forall2 (fun vp jp => fst vp = fst jp /\ mirrors P h (snd vp) (snd jp)) vps jps.

Lemma Forall2_under {A B : Type} (R R' : A -> B -> Prop) (l : list A) (l' : list B) :
  Forall (fun b => forall a, R a b -> R' a b) l' -> Forall2 R l l' -> Forall2 R' l l'.
Proof.
  intros HF H2. induction H2 as [|a b l l' Hab _ IH]; [constructor|].
  inversion HF as [|? ? Hb Hl']; subst. constructor; [apply Hb, Hab|apply IH, Hl'].
Qed.

Lemma props_under (R R' : value -> json -> Prop) vps (jps : list (jsstring * json)) :
  Forall (fun jp => forall v, R v (snd jp) -> R' v (snd jp)) jps ->
  Forall2 (fun vp jp => fst vp = fst jp /\ R (snd vp) (snd jp)) vps jps ->
  Forall2 (fun vp jp => fst vp = fst jp /\ R' (snd vp) (snd jp)) vps jps.
Proof.
  intros HF. apply Forall2_under. eapply List.Forall_impl; [|exact HF].
  intros jp Hjp vp [Hk Hv]. split; [exact Hk|apply Hjp, Hv].
Qed.

Lemma mirrors_agree P h h' v j :
  (forall l, P l -> h' !! l = h !! l) -> mirrors P h v j -> mirrors P h' v j.
Proof.
  intros Hag. revert v. induction j as [| b | x | s | items IH | props IH] using json_induction;
    intros v Hm; inversion Hm as [| | | |l vs js Hl Hc Hvs|l vps jps Hl Hc Hps];
    subst; try constructor.
  - apply mirrors_array with vs; [exact Hl|rewrite (Hag l Hl); exact Hc|].
    exact (Forall2_under _ _ _ _ IH Hvs).
  - apply mirrors_object with vps; [exact Hl|rewrite (Hag l Hl); exact Hc|].
    exact (props_under _ _ _ _ IH Hps).
Qed.

Lemma mirrors_weaken (P Q : loc -> Prop) h v j :
  (forall l, P l -> Q l) -> mirrors P h v j -> mirrors Q h v j.
Proof.
  intros HPQ. revert v. induction j as [| b | x | s | items IH | props IH] using json_induction;
    intros v Hm; inversion Hm as [| | | |l vs js Hl Hc Hvs|l vps jps Hl Hc Hps];
    subst; try constructor.
  - apply mirrors_array with vs; [exact (HPQ l Hl)|exact Hc|].
    exact (Forall2_under _ _ _ _ IH Hvs).
  - apply mirrors_object with vps; [exact (HPQ l Hl)|exact Hc|].
    exact (props_under _ _ _ _ IH Hps).
Qed.

(** Cells that an image visits exist, so a longer heap shows the same image. *)
Lemma mirrors_prefix P h h' v j :
  h `prefix_of` h' -> mirrors P h v j -> mirrors P h' v j.
Proof.
  intros [ext ->]. revert v.
  induction j as [| b | x | s | items IH | props IH] using json_induction;
    intros v Hm; inversion Hm as [| | | |l vs js Hl Hc Hvs|l vps jps Hl Hc Hps];
    subst; try constructor.
  - apply mirrors_array with vs; [exact Hl|apply lookup_app_l_Some; exact Hc|].
    exact (Forall2_under _ _ _ _ IH Hvs).
  - apply mirrors_object with vps; [exact Hl|apply lookup_app_l_Some; exact Hc|].
    exact (props_under _ _ _ _ IH Hps).
Qed.

Definition in_range (a b : nat) (l : loc) : Prop := a <= l < b.

Lemma props_mirror_prefix P h h' vps jps :
  h `prefix_of` h' -> props_mirror P h vps jps -> props_mirror P h' vps jps.
Proof.
  intros Hp. intros HF2; eapply Forall2_impl; [exact HF2|]; intros vp jp [Hk Hv].
  split; [exact Hk|exact (mirrors_prefix _ _ _ _ _ Hp Hv)].
Qed.

Lemma props_mirror_weaken (P Q : loc -> Prop) h vps jps :
  (forall l, P l -> Q l) -> props_mirror P h vps jps -> props_mirror Q h vps jps.
Proof.
  intros HPQ. intros HF2; eapply Forall2_impl; [exact HF2|]; intros vp jp [Hk Hv].
  split; [exact Hk|exact (mirrors_weaken _ _ _ _ _ HPQ Hv)].
Qed.

Lemma props_mirror_agree P h h' vps jps :
  (forall l, P l -> h' !! l = h !! l) -> props_mirror P h vps jps -> props_mirror P h' vps jps.
Proof.
  intros Hag. intros HF2; eapply Forall2_impl; [exact HF2|]; intros vp jp [Hk Hv].
  split; [exact Hk|exact (mirrors_agree _ _ _ _ _ Hag Hv)].
Qed.

Lemma lookup_alloc (h : heap) (c : cell) : (h ++ [c]) !! length h = Some c.
Proof. rewrite lookup_app_r by lia. rewrite Nat.sub_diag. reflexivity. Qed.

(** What [JSON.parse] builds is the image of the tree, made of new cells. *)
Definition parse_ok (j : json) : Prop :=
  forall h h' v, JSON_parse j h = (h', v) ->
    h `prefix_of` h' /\ mirrors (in_range (length h) (length h')) h' v j.

Lemma parse_items_spec (js : list json) :
  Forall parse_ok js ->
  forall h hc vs, map_heap JSON_parse js h = (hc, vs) ->
    h `prefix_of` hc /\ Forall2 (mirrors (in_range (length h) (length hc)) hc) vs js.
Proof.
  induction 1 as [|j js Hj _ IH]; intros h hc vs; cbn [map_heap].
  - intros [= <- <-]. split; [reflexivity|constructor].
  - destruct (JSON_parse j h) as [h1 v] eqn:E1.
    destruct (map_heap JSON_parse js h1) as [h2 vs'] eqn:E2. intros [= <- <-].
    destruct (Hj _ _ _ E1) as [Hp1 Hm1]. destruct (IH _ _ _ E2) as [Hp2 Hm2].
    pose proof (prefix_length _ _ Hp1). pose proof (prefix_length _ _ Hp2).
    split; [etrans; eassumption|]. constructor.
    + apply (mirrors_prefix _ _ _ _ _ Hp2) in Hm1.
      revert Hm1. apply mirrors_weaken. unfold in_range. lia.
    + revert Hm2. intros HF2; eapply Forall2_impl; [exact HF2|]; intros v' j'. apply mirrors_weaken.
      unfold in_range. lia.
Qed.

Definition parse_prop (p : jsstring * json) (h : heap) : heap * (jsstring * value) :=
  let '(h1, v) := JSON_parse (snd p) h in (h1, (fst p, v)).

Lemma parse_props_spec (jps : list (jsstring * json)) :
  Forall (fun jp => parse_ok (snd jp)) jps ->
  forall h hc vps, map_heap parse_prop jps h = (hc, vps) ->
    h `prefix_of` hc /\ props_mirror (in_range (length h) (length hc)) hc vps jps.
Proof.
  induction 1 as [|jp jps Hj _ IH]; intros h hc vps; cbn [map_heap].
  - intros [= <- <-]. split; [reflexivity|constructor].
  - unfold parse_prop at 1. destruct (JSON_parse (snd jp) h) as [h1 v] eqn:E1.
    destruct (map_heap parse_prop jps h1) as [h2 vps'] eqn:E2. intros [= <- <-].
    destruct (Hj _ _ _ E1) as [Hp1 Hm1]. destruct (IH _ _ _ E2) as [Hp2 Hm2].
    pose proof (prefix_length _ _ Hp1). pose proof (prefix_length _ _ Hp2).
    split; [etrans; eassumption|]. constructor.
    + split; [reflexivity|]. cbn [snd].
      apply (mirrors_prefix _ _ _ _ _ Hp2) in Hm1.
      revert Hm1. apply mirrors_weaken. unfold in_range. lia.
    + revert Hm2. apply props_mirror_weaken. unfold in_range. lia.
Qed.

Lemma JSON_parse_spec j : parse_ok j.
Proof.
  induction j as [| b | x | s | items IH | props IH] using json_induction;
    intros h h' v; cbn [JSON_parse].
  1-4: intros [= <- <-]; split; [reflexivity|constructor].
  - destruct (map_heap JSON_parse items h) as [hc vs] eqn:E. unfold alloc. intros [= <- <-].
    destruct (parse_items_spec items IH _ _ _ E) as [Hp Hm].
    pose proof (prefix_length _ _ Hp).
    assert (Hp' : hc `prefix_of` hc ++ [Array vs]) by (eexists; reflexivity).
    split; [etrans; eassumption|].
    apply mirrors_array with vs.
    + unfold in_range. rewrite length_app. simpl. lia.
    + apply lookup_alloc.
    + revert Hm. intros HF2; eapply Forall2_impl; [exact HF2|]; intros v' j' Hv.
      apply (mirrors_prefix _ _ _ _ _ Hp') in Hv. revert Hv. apply mirrors_weaken.
      unfold in_range. rewrite length_app. simpl. lia.
  - change (map_heap _ props h) with (map_heap parse_prop props h).
    destruct (map_heap parse_prop props h) as [hc vps] eqn:E. unfold alloc. intros [= <- <-].
    destruct (parse_props_spec props IH _ _ _ E) as [Hp Hm].
    pose proof (prefix_length _ _ Hp).
    assert (Hp' : hc `prefix_of` hc ++ [Object vps]) by (eexists; reflexivity).
    split; [etrans; eassumption|].
    apply mirrors_object with vps.
    + unfold in_range. rewrite length_app. simpl. lia.
    + apply lookup_alloc.
    + apply (props_mirror_prefix _ _ _ _ _ Hp') in Hm. revert Hm.
      apply props_mirror_weaken. unfold in_range. rewrite length_app. simpl. lia.
Qed.

(** The clone of an object: its cell is the last one, its children are
    images made of the new cells before it. *)
Lemma JSON_parse_object (jps : list (jsstring * json)) (h : heap) :
  exists hc vps,
    JSON_parse (JObject jps) h = (hc ++ [Object vps], VObject (length hc))
    /\ h `prefix_of` hc
    /\ props_mirror (in_range (length h) (length hc)) hc vps jps.
Proof.
  cbn [JSON_parse]. change (map_heap _ jps h) with (map_heap parse_prop jps h).
  destruct (map_heap parse_prop jps h) as [hc vps] eqn:E.
  exists hc, vps. split; [reflexivity|].
  apply (parse_props_spec jps); [|exact E].
  apply Forall_forall. intros jp _. apply JSON_parse_spec.
Qed.

Lemma mirrors_bounded P h v j :
  mirrors P h v j -> mirrors (fun l => P l /\ l < length h) h v j.
Proof.
  revert v. induction j as [| b | x | s | items IH | props IH] using json_induction;
    intros v Hm; inversion Hm as [| | | |l vs js Hl Hc Hvs|l vps jps Hl Hc Hps];
    subst; try constructor.
  - apply mirrors_array with vs; [|exact Hc|exact (Forall2_under _ _ _ _ IH Hvs)].
    split; [exact Hl|exact (lookup_lt_Some _ _ _ Hc)].
  - apply mirrors_object with vps; [|exact Hc|exact (props_under _ _ _ _ IH Hps)].
    split; [exact Hl|exact (lookup_lt_Some _ _ _ Hc)].
Qed.

Lemma insert_alloc (h : heap) (c c' : cell) (rest : heap) :
  <[length h := c']> (h ++ c :: rest) = h ++ c' :: rest.
Proof.
  rewrite insert_app_r_alt by lia. rewrite Nat.sub_diag. reflexivity.
Qed.

Lemma lookup_middle (h : heap) (c : cell) (rest : heap) :
  (h ++ c :: rest) !! length h = Some c.
Proof. rewrite lookup_app_r by lia. rewrite Nat.sub_diag. reflexivity. Qed.

(** *** Property lists *)

Lemma props_mirror_assoc P h vps jps k :
  props_mirror P h vps jps ->
  match assoc k vps, assoc k jps with
  | Some v, Some j => mirrors P h v j
  | None, None => True
  | _, _ => False
  end.
Proof.
  induction 1 as [|[kv v] [kj j] vps jps [Hk Hv] _ IH]; [exact I|].
  cbn in Hk, Hv. subst kj. cbn [assoc]. destruct (eqb k kv); [exact Hv|exact IH].
Qed.

Lemma props_mirror_set_assoc P h vps jps k v j :
  props_mirror P h vps jps -> mirrors P h v j ->
  props_mirror P h (set_assoc k v vps) (set_assoc k j jps).
Proof.
  intros H Hvj. induction H as [|[kv v'] [kj j'] vps jps [Hk Hv] Hrest IH]; cbn [set_assoc].
  - constructor; [split; [reflexivity|exact Hvj]|constructor].
  - cbn in Hk, Hv. subst kj. destruct (eqb k kv).
    + constructor; [split; [reflexivity|exact Hvj]|exact Hrest].
    + constructor; [split; [reflexivity|exact Hv]|exact IH].
Qed.

Lemma mirrors_truthy P h v j : mirrors P h v j -> truthy v = json_truthy j.
Proof. intros H. inversion H; reflexivity. Qed.

End heap_facts.

Section reading.
Import JsString Json JsHeap.

(** A tree that [JSON.stringify] can produce with [n] levels of nesting:
    its numbers are finite and none is [-0]. *)
Fixpoint fits (n : nat) (j : json) : Prop :=
  match j with
  | JNumber x => json_number x = JNumber x
  | JArray items =>
    match n with
    | S m => Forall (fits m) items
    | O => False
    end
  | JObject props =>
    match n with
    | S m => Forall (fun p => fits m (snd p)) props
    | O => False
    end
  | _ => True
  end.

Lemma fits_mono n m j : n <= m -> fits n j -> fits m j.
Proof.
  revert m j. induction n as [|n IH]; intros m j Hle; destruct j, m; cbn [fits];
    try contradiction; try (intros H; exact H); try lia.
  - apply List.Forall_impl. intros a. apply IH. lia.
  - apply List.Forall_impl. intros a. apply IH. lia.
Qed.

Lemma json_number_fits x : fits O (json_number x).
Proof.
  unfold json_number. destruct (is_finite x) eqn:Hf; [|exact I].
  destruct (is_zero x) eqn:Hz; cbn [fits]; unfold json_number.
  - reflexivity.
  - rewrite Hf, Hz. reflexivity.
Qed.

Lemma sequence_Some {A : Type} (l : list (option A)) (l' : list A) :
  sequence l = Some l' -> Forall2 (fun o a => o = Some a) l l'.
Proof.
  revert l'. induction l as [|[a|] l IH]; intros l'; cbn [sequence]; try discriminate.
  - intros [= <-]. constructor.
  - destruct (sequence l) as [r|]; [|discriminate]. intros [= <-].
    constructor; [reflexivity|apply IH; reflexivity].
Qed.

Lemma Some_sequence {A : Type} (l : list (option A)) (l' : list A) :
  Forall2 (fun o a => o = Some a) l l' -> sequence l = Some l'.
Proof.
  induction 1 as [|o a l l' -> _ IH]; [reflexivity|]. cbn [sequence]. rewrite IH. reflexivity.
Qed.

(** What [JSON.stringify] returns fits the fuel it was given. *)
Lemma to_json_fits n h v j : to_json n h v = Some j -> fits n j.
Proof.
  revert v j. induction n as [|n IH]; intros v j; destruct v; cbn [to_json];
    try (intros [= <-]; first [exact I | apply (fits_mono O); [lia|apply json_number_fits]]);
    try discriminate.
  match goal with |- context [h !! ?x] => destruct (h !! x) as [[props|items]|] end; [| |discriminate].
  - destruct (sequence _) as [jps|] eqn:E; [|discriminate]. intros [= <-]. cbn [fits].
    apply sequence_Some in E. apply Forall2_fmap_l in E.
    induction E as [|vp jp vps jps Hp _ IHE]; constructor; [|exact IHE].
    unfold compose in Hp. cbn beta in Hp.
    destruct (to_json n h (snd vp)) as [j'|] eqn:Ej; [|discriminate Hp].
    cbn in Hp. injection Hp as <-. apply (IH _ _ Ej).
  - destruct (sequence _) as [js|] eqn:E; [|discriminate]. intros [= <-]. cbn [fits].
    apply sequence_Some in E. apply Forall2_fmap_l in E.
    induction E as [|v j' vs js Hp _ IHE]; constructor; [|exact IHE].
    unfold compose in Hp. apply (IH _ _ Hp).
Qed.

(** An image is read back as its tree. *)
Lemma mirrors_to_json P h v j n : mirrors P h v j -> fits n j -> to_json n h v = Some j.
Proof.
  revert v n. induction j as [| b | x | s | items IH | props IH] using json_induction;
    intros v n Hm Hfit; inversion Hm as [| | | |l vs js Hl Hc Hvs|l vps jps Hl Hc Hps];
    subst; cbn [fits] in Hfit.
  1-4: destruct n; cbn [to_json]; try reflexivity; rewrite Hfit; reflexivity.
  - destruct n as [|n]; [contradiction|]. cbn [fits] in Hfit. cbn [to_json]. rewrite Hc.
    assert (E : sequence (map (to_json n h) vs) = Some items).
    { apply Some_sequence, Forall2_fmap_l.
      clear Hm Hc. induction Hvs as [|v' j' vs js Hv _ IHv]; [constructor|].
      inversion IH as [|? ? Hj Hjs]; subst. inversion Hfit as [|? ? Hf Hfs]; subst.
      constructor; [apply Hj; assumption|apply IHv; assumption]. }
    rewrite E. reflexivity.
  - destruct n as [|n]; [contradiction|]. cbn [fits] in Hfit. cbn [to_json]. rewrite Hc.
    assert (Hdef : List.filter defined vps = vps).
    { clear Hm Hc IH Hfit. induction Hps as [|vp jp vps jps [_ Hv] _ IHp]; [reflexivity|].
      cbn [List.filter]. unfold defined at 1. rewrite IHp.
      inversion Hv; reflexivity. }
    rewrite Hdef.
    assert (E : sequence (map (fun p => pair (fst p) <$> to_json n h (snd p)) vps)
                = Some props).
    { apply Some_sequence, Forall2_fmap_l.
      clear Hm Hc Hdef. induction Hps as [|vp jp vps jps [Hk Hv] _ IHp]; [constructor|].
      inversion IH as [|? ? Hj Hjs]; subst. inversion Hfit as [|? ? Hf Hfs]; subst.
      constructor; [|apply IHp; assumption].
      unfold compose. rewrite (Hj _ _ Hv Hf). cbn. rewrite Hk. destruct jp; reflexivity. }
    rewrite E. reflexivity.
Qed.

(** Reading is stable: more fuel and a longer heap give the same tree. *)
Lemma to_json_extend n m h ext v j :
  to_json n h v = Some j -> n <= m -> to_json m (h ++ ext) v = Some j.
Proof.
  revert m v j. induction n as [|n IH]; intros m v j Hj Hle; destruct v, m;
    cbn [to_json] in *; try exact Hj; try discriminate; try lia.
  match type of Hj with context [h !! ?x] => destruct (h !! x) as [c|] eqn:Hc end;
    [|discriminate].
  rewrite (lookup_app_l_Some _ _ _ _ Hc). destruct c as [props|items].
  - destruct (sequence _) as [jps|] eqn:E in Hj; [|discriminate]. injection Hj as <-.
    apply sequence_Some, Forall2_fmap_l in E.
    assert (E' : sequence (map (fun p => pair (fst p) <$> to_json m (h ++ ext) (snd p))
                               (List.filter defined props)) = Some jps).
    { apply Some_sequence, Forall2_fmap_l. eapply Forall2_impl; [exact E|].
      intros vp jp Hp. unfold compose in *. cbn beta in *.
      destruct (to_json n h (snd vp)) as [j'|] eqn:Ej; [|discriminate Hp].
      rewrite (IH m _ _ Ej) by lia. exact Hp. }
    rewrite E'. reflexivity.
  - destruct (sequence _) as [js|] eqn:E in Hj; [|discriminate]. injection Hj as <-.
    apply sequence_Some, Forall2_fmap_l in E.
    assert (E' : sequence (map (to_json m (h ++ ext)) items) = Some js).
    { apply Some_sequence, Forall2_fmap_l. eapply Forall2_impl; [exact E|].
      intros v j' Hp. unfold compose in *. apply (IH m _ _ Hp). lia. }
    rewrite E'. reflexivity.
Qed.

End reading.

Section sanitizer_spec.
Import JsString Json JsHeap HtmlSanitizer.
Variable document : Document.

(** *** The sanitizer in the words of the specification, on trees *)

(** [stripMarkup] of a field value; what is not a string gives [''] . *)
Definition strip_json (j : json) : json :=
  JString (match j with JString s => stripHtmlTags document s | _ => [] end).

(** [stripMarkup] applied to field [k], when the field is set. *)
Definition strip_field (k : jsstring) (jps : list (jsstring * json)) : list (jsstring * json) :=
  match assoc k jps with
  | Some j => if json_truthy j then set_assoc k (strip_json j) jps else jps
  | None => jps
  end.

(** [f] applied to every element of the array in field [k]. *)
Definition map_field (k : jsstring) (f : json -> json) (jps : list (jsstring * json))
  : list (jsstring * json) :=
  match assoc k jps with
  | Some (JArray items) => set_assoc k (JArray (map f items)) jps
  | _ => jps
  end.

Definition spec_lesson (j : json) : json :=
  match j with
  | JObject jps => JObject (strip_field (lit "description") (strip_field (lit "content") jps))
  | _ => j
  end.

Definition spec_section (j : json) : json :=
  match j with
  | JObject jps =>
    JObject (map_field (lit "lessons") spec_lesson (strip_field (lit "description") jps))
  | _ => j
  end.

(** [sanitizeCourse]: the course description, every section description
    and every lesson content and description are stripped; nothing else
    changes. *)
Definition spec_course (j : json) : json :=
  match j with
  | JObject jps =>
    JObject (map_field (lit "sections") spec_section (strip_field (lit "description") jps))
  | _ => j
  end.

Definition is_object (j : json) : Prop :=
  match j with JObject _ => True | _ => False end.

(** A section: an object whose [lessons], when an array, holds objects. *)
Definition section_shaped (j : json) : Prop :=
  match j with
  | JObject jps =>
    match assoc (lit "lessons") jps with
    | Some (JArray ls) => Forall is_object ls
    | _ => True
    end
  | _ => False
  end.

(** A course: an object whose [sections], when an array, holds sections. *)
Definition course_shaped (j : json) : Prop :=
  match j with
  | JObject jps =>
    match assoc (lit "sections") jps with
    | Some (JArray ss) => Forall section_shaped ss
    | _ => True
    end
  | _ => False
  end.

(** *** One field *)

Definition strip_props (k : jsstring) (vps : list (jsstring * value))
  : list (jsstring * value) :=
  match assoc k vps with
  | Some v => if truthy v then set_assoc k (VString (stripHtmlTags_value document v)) vps else vps
  | None => vps
  end.

Lemma sanitize_field_run k o h vps :
  h !! o = Some (Object vps) ->
  sanitize_field document k o h = <[o := Object (strip_props k vps)]> h.
Proof.
  intros Ho. unfold sanitize_field, strip_props, get_prop. rewrite Ho.
  destruct (assoc k vps) as [v|]; cbn [default from_option id].
  - destruct (truthy v).
    + unfold set_prop. rewrite Ho. reflexivity.
    + symmetry. apply list_insert_id, Ho.
  - cbn [truthy]. symmetry. apply list_insert_id, Ho.
Qed.

Lemma strip_props_mirror P h k vps jps :
  props_mirror P h vps jps -> props_mirror P h (strip_props k vps) (strip_field k jps).
Proof.
  intros H. pose proof (props_mirror_assoc P h vps jps k H) as Hk.
  unfold strip_props, strip_field.
  destruct (assoc k vps) as [v|], (assoc k jps) as [j|]; try contradiction; [|exact H].
  rewrite (mirrors_truthy _ _ _ _ Hk). destruct (json_truthy j); [|exact H].
  apply props_mirror_set_assoc; [exact H|].
  unfold strip_json. inversion Hk; subst; constructor.
Qed.

(** *** A callback and its specification *)

(** [f] builds, from the image of a tree that satisfies [ok], the image of
    [fspec] of that tree; it only adds cells. *)
Definition implements (f : value -> heap -> heap * value) (fspec : json -> json)
    (ok : json -> Prop) : Prop :=
  forall (P : loc -> Prop) h x jx,
    mirrors P h x jx -> ok jx ->
    exists ext y,
      f x h = (h ++ ext, y)
      /\ mirrors (fun l => P l \/ in_range (length h) (length (h ++ ext)) l) (h ++ ext) y
           (fspec jx).

Lemma map_heap_implements f fspec ok :
  implements f fspec ok ->
  forall (P : loc -> Prop) items js h,
    Forall2 (mirrors P h) items js -> Forall ok js ->
    exists ext ys,
      map_heap f items h = (h ++ ext, ys)
      /\ Forall2 (mirrors (fun l => P l \/ in_range (length h) (length (h ++ ext)) l)
                          (h ++ ext))
                 ys (map fspec js).
Proof.
  intros Hf P items js. revert items.
  induction js as [|j js IH]; intros items h H Hok; inversion H as [|x ? xs ? Hx Hxs]; subst.
  - exists [], []. rewrite app_nil_r. split; [reflexivity|constructor].
  - inversion Hok as [|? ? Hj Hjs]; subst.
    destruct (Hf P h x j Hx Hj) as (ext1 & y & Hrun & Hy).
    assert (Hp : h `prefix_of` h ++ ext1) by (eexists; reflexivity).
    assert (Hxs' : Forall2 (mirrors P (h ++ ext1)) xs js).
    { eapply Forall2_impl; [exact Hxs|]. intros v' j'. apply mirrors_prefix, Hp. }
    destruct (IH xs (h ++ ext1) Hxs' Hjs) as (ext2 & ys & Hrun2 & Hys).
    exists (ext1 ++ ext2), (y :: ys). cbn [map_heap map]. rewrite Hrun, Hrun2.
    rewrite <- app_assoc in *. split; [reflexivity|]. constructor.
    + assert (Hp2 : h ++ ext1 `prefix_of` h ++ ext1 ++ ext2)
        by (exists ext2; rewrite app_assoc; reflexivity).
      apply (mirrors_prefix _ _ _ _ _ Hp2) in Hy. revert Hy. apply mirrors_weaken.
      unfold in_range. rewrite !length_app. intros l [Hl|Hl]; [left; exact Hl|right; lia].
    + eapply Forall2_impl; [exact Hys|]. intros v' j'. apply mirrors_weaken.
      unfold in_range. rewrite !length_app. intros l [Hl|Hl]; [left; exact Hl|right; lia].
Qed.

(** *** An object with a description and an array field

    What [sanitizeCourseForStorage] does to the clone, and [sanitizeSection]
    to the copy of a section: [o] is the new object, the last cell of
    [h1]. *)
Definition object_pass (k : jsstring) (f : value -> heap -> heap * value) (o : loc)
    (h1 : heap) : heap * value :=
  let h2 := sanitize_field document (lit "description") o h1 in
  match as_array h2 (get_prop h2 (VObject o) k) with
  | Some items =>
    let '(h3, mapped) := map_heap f items h2 in
    let '(h4, a) := alloc (Array mapped) h3 in
    (set_prop h4 o k (VObject a), VObject o)
  | None => (h2, VObject o)
  end.

Lemma object_pass_spec k f fspec ok (P : loc -> Prop) hb vps jps :
  implements f fspec ok ->
  props_mirror P hb vps jps ->
  (forall js, assoc k (strip_field (lit "description") jps) = Some (JArray js) -> Forall ok js) ->
  exists ext,
    object_pass k f (length hb) (hb ++ [Object vps]) = (hb ++ ext, VObject (length hb))
    /\ mirrors (fun l => P l \/ in_range (length hb) (length (hb ++ ext)) l) (hb ++ ext)
         (VObject (length hb))
         (JObject (map_field k fspec (strip_field (lit "description") jps))).
Proof.
  intros Hf Hps Hok. set (o := length hb).
  assert (Hps' : props_mirror (fun l => P l /\ l < o) hb vps jps).
  { eapply Forall2_impl; [exact Hps|]. intros vp jp [Hk Hv].
    split; [exact Hk|apply mirrors_bounded, Hv]. }
  clear Hps. set (Q := fun l => P l /\ l < o) in *.
  set (vps2 := strip_props (lit "description") vps).
  set (jps2 := strip_field (lit "description") jps) in *.
  assert (H2 : props_mirror Q hb vps2 jps2) by apply strip_props_mirror, Hps'.
  set (h2 := hb ++ [Object vps2]).
  assert (E2 : sanitize_field document (lit "description") o (hb ++ [Object vps]) = h2).
  { rewrite (sanitize_field_run (lit "description") o (hb ++ [Object vps]) vps)
      by apply lookup_alloc.
    apply insert_alloc. }
  unfold object_pass. cbv zeta. rewrite E2.
  assert (Hp2 : hb `prefix_of` h2) by (eexists; reflexivity).
  assert (Hroot : forall ext' vps' jps',
            props_mirror (fun l => P l \/ in_range o (length (hb ++ Object vps' :: ext')) l)
                         (hb ++ Object vps' :: ext') vps' jps' ->
            mirrors (fun l => P l \/ in_range o (length (hb ++ Object vps' :: ext')) l)
                    (hb ++ Object vps' :: ext') (VObject o) (JObject jps')).
  { intros ext' vps' jps' H. apply mirrors_object with vps'; [|apply lookup_middle|exact H].
    right. unfold in_range. rewrite length_app. cbn [length]. fold o. lia. }
  assert (Hkeep : forall ext',
            props_mirror (fun l => P l \/ in_range o (length (hb ++ Object vps2 :: ext')) l)
                         (hb ++ Object vps2 :: ext') vps2 jps2).
  { intros ext'. assert (Hp : hb `prefix_of` hb ++ Object vps2 :: ext')
      by (eexists; reflexivity).
    apply (props_mirror_prefix _ _ _ _ _ Hp) in H2. revert H2.
    apply props_mirror_weaken. intros l [Hl _]. left. exact Hl. }
  unfold get_prop. replace (h2 !! o) with (Some (Object vps2)) by (symmetry; apply lookup_alloc).
  pose proof (props_mirror_assoc Q hb vps2 jps2 k H2) as Hk.
  unfold map_field.
  destruct (assoc k vps2) as [v|] eqn:Ev, (assoc k jps2) as [j|] eqn:Ej; try contradiction;
    cbn [default from_option id as_array].
  2: { exists [Object vps2]. split; [reflexivity|]. apply (Hroot []), Hkeep. }
  inversion Hk as [| | | |l vs js Hl Hc Hvs|l ovps ojps Hl Hc Hops]; subst v j;
    cbn [as_array].
  1-4: exists [Object vps2]; split; [reflexivity|]; apply (Hroot []), Hkeep.
  2: { assert (Hc2 : h2 !! l = Some (Object ovps)) by (apply lookup_app_l_Some, Hc).
       rewrite Hc2. exists [Object vps2]. split; [reflexivity|]. apply (Hroot []), Hkeep. }
  assert (Hc2 : h2 !! l = Some (Array vs)) by (apply lookup_app_l_Some, Hc).
  rewrite Hc2.
  assert (Hvs2 : Forall2 (mirrors Q h2) vs js).
  { eapply Forall2_impl; [exact Hvs|]. intros v' j'. apply mirrors_prefix, Hp2. }
  destruct (map_heap_implements f fspec ok Hf Q vs js h2 Hvs2 (Hok js eq_refl))
    as (ext & ys & Hrun & Hys).
  rewrite Hrun. unfold alloc.
  set (h3 := h2 ++ ext) in *. set (a := length h3).
  assert (Ho4 : (h3 ++ [Array ys]) !! o = Some (Object vps2)).
  { unfold h3, h2. rewrite <- !app_assoc. apply lookup_middle. }
  unfold set_prop. rewrite Ho4.
  set (vps3 := set_assoc k (VObject a) vps2).
  assert (Hfinal : <[o := Object vps3]> (h3 ++ [Array ys])
                   = hb ++ Object vps3 :: (ext ++ [Array ys])).
  { unfold h3, h2. rewrite <- !app_assoc. cbn [app]. apply insert_alloc. }
  rewrite Hfinal. exists (Object vps3 :: (ext ++ [Array ys])). split; [reflexivity|].
  set (hf := hb ++ Object vps3 :: (ext ++ [Array ys])).
  set (F := fun l => P l \/ in_range o (length hf) l).
  assert (Hlen3 : length h3 = o + 1 + length ext).
  { unfold h3, h2. rewrite !length_app. cbn [length]. fold o. lia. }
  assert (Hlenf : length hf = o + 1 + length ext + 1).
  { unfold hf. rewrite length_app. cbn [length]. rewrite length_app. cbn [length]. fold o. lia. }
  assert (Hsame : forall l, l <> o -> l < length h3 -> hf !! l = h3 !! l).
  { intros l0 Hne Hlt. unfold hf. rewrite <- Hfinal.
    rewrite list_lookup_insert_ne by (intros E; apply Hne; symmetry; exact E).
    apply lookup_app_l. exact Hlt. }
  apply mirrors_object with vps3.
  - right. unfold in_range. lia.
  - apply lookup_middle.
  - apply props_mirror_set_assoc.
    + assert (Hp : hb `prefix_of` hf) by (eexists; reflexivity).
      apply (props_mirror_prefix _ _ _ _ _ Hp) in H2. revert H2.
      apply props_mirror_weaken. intros l' [Hl' _]. left. exact Hl'.
    + apply mirrors_array with ys.
      * right. unfold in_range, a. lia.
      * unfold hf, a. rewrite <- Hfinal.
        rewrite list_lookup_insert_ne by lia. apply lookup_alloc.
      * eapply Forall2_impl; [exact Hys|]. intros y' j' Hy.
        apply (mirrors_bounded _ _ _ _) in Hy.
        apply (mirrors_agree _ _ hf) in Hy.
        -- revert Hy. apply mirrors_weaken.
           intros l' [[[Hl' _]|Hl'] Hb]; [left; exact Hl'|].
           right. unfold in_range in *. unfold h2 in Hl'. rewrite length_app in Hl'.
           cbn [length] in Hl'. fold o in Hl'. lia.
        -- intros l' [[[_ Hl']|Hl'] Hb]; apply Hsame; try lia; try exact Hb.
           unfold in_range, h2 in Hl'. rewrite length_app in Hl'. cbn [length] in Hl'.
           fold o in Hl'. lia.
Qed.

(** *** Lessons, sections, the course *)

Lemma assoc_set_assoc_ne {A : Type} (k k' : jsstring) (a : A) (l : list (jsstring * A)) :
  eqb k k' = false -> assoc k (set_assoc k' a l) = assoc k l.
Proof.
  intros Hne. induction l as [|[key a'] l IH]; cbn [set_assoc assoc].
  - rewrite Hne. reflexivity.
  - destruct (eqb k' key) eqn:E; cbn [assoc].
    + apply eqb_eq in E. subst key. rewrite Hne. reflexivity.
    + destruct (eqb k key); [reflexivity|exact IH].
Qed.

Lemma assoc_strip_field_ne (k k' : jsstring) jps :
  eqb k k' = false -> assoc k (strip_field k' jps) = assoc k jps.
Proof.
  intros Hne. unfold strip_field. destruct (assoc k' jps) as [j|]; [|reflexivity].
  destruct (json_truthy j); [|reflexivity]. apply assoc_set_assoc_ne, Hne.
Qed.

Lemma sanitizeLesson_implements :
  implements (sanitizeLesson document) spec_lesson is_object.
Proof.
  intros P h x jx Hm Hok. destruct jx as [| | | | |jps]; try contradiction.
  inversion Hm as [| | | | |l vps ? Hl Hc Hps]; subst.
  unfold sanitizeLesson, spread, own_props, alloc. rewrite Hc.
  rewrite (sanitize_field_run (lit "content") (length h) (h ++ [Object vps]) vps)
    by apply lookup_alloc.
  rewrite insert_alloc.
  rewrite (sanitize_field_run (lit "description") (length h) _ _ (lookup_alloc h _)).
  rewrite insert_alloc.
  eexists [_], _. split; [reflexivity|].
  assert (Hp : h `prefix_of` h ++ [Object (strip_props (lit "description")
                                            (strip_props (lit "content") vps))])
    by (eexists; reflexivity).
  apply mirrors_object with (strip_props (lit "description") (strip_props (lit "content") vps)).
  - right. unfold in_range. rewrite length_app. cbn [length]. lia.
  - apply lookup_alloc.
  - cbn [spec_lesson]. apply (props_mirror_prefix _ _ _ _ _ Hp).
    apply (props_mirror_weaken P); [intros l' Hl'; left; exact Hl'|].
    apply strip_props_mirror, strip_props_mirror, Hps.
Qed.

Lemma sanitizeSection_implements :
  implements (sanitizeSection document) spec_section section_shaped.
Proof.
  intros P h x jx Hm Hok. destruct jx as [| | | | |jps]; try contradiction.
  inversion Hm as [| | | | |l vps ? Hl Hc Hps]; subst.
  assert (Hrun : sanitizeSection document (VObject l) h
                 = object_pass (lit "lessons") (sanitizeLesson document) (length h)
                     (h ++ [Object vps])).
  { unfold sanitizeSection, object_pass, spread, own_props, alloc. rewrite Hc. reflexivity. }
  rewrite Hrun.
  destruct (object_pass_spec (lit "lessons") (sanitizeLesson document) spec_lesson is_object
              P h vps jps sanitizeLesson_implements Hps) as (ext & Hpass & Hmir).
  - intros js Hjs. rewrite assoc_strip_field_ne in Hjs by reflexivity.
    cbn [section_shaped] in Hok. rewrite Hjs in Hok. exact Hok.
  - exists ext, (VObject (length h)). split; [exact Hpass|exact Hmir].
Qed.

(** The clone is sanitized in place: the result is the image of
    [spec_course], all of it in cells that did not exist before, and the
    heap the caller had is a prefix of the new one. *)
Lemma sanitizeCourseForStorage_mirrors h l jps :
  JSON_stringify h (VObject l) = Some (JObject jps) ->
  course_shaped (JObject jps) ->
  exists ext c,
    sanitizeCourseForStorage document (VObject l) h = (h ++ ext, VObject c)
    /\ mirrors (fun l' => length h <= l') (h ++ ext) (VObject c) (spec_course (JObject jps)).
Proof.
  intros Hj Hok. unfold sanitizeCourseForStorage. rewrite Hj.
  destruct (JSON_parse_object jps h) as (hc & vps & Hparse & [ext0 ->] & Hps).
  rewrite Hparse.
  destruct (object_pass_spec (lit "sections") (sanitizeSection document) spec_section
              section_shaped _ (h ++ ext0) vps jps sanitizeSection_implements Hps)
    as (ext & Hpass & Hmir).
  - intros js Hjs. rewrite assoc_strip_field_ne in Hjs by reflexivity.
    cbn [course_shaped] in Hok. rewrite Hjs in Hok. exact Hok.
  - unfold object_pass in Hpass. cbv zeta in Hpass.
    exists (ext0 ++ ext), (length (h ++ ext0)). rewrite app_assoc. split; [exact Hpass|].
    revert Hmir. apply mirrors_weaken. unfold in_range. rewrite !length_app.
    intros l' [Hl'|Hl']; lia.
Qed.

Lemma fits_string n s : fits n (JString s).
Proof. destruct n; exact I. Qed.

Lemma Forall_set_assoc {A : Type} (Q : A -> Prop) k a (l : list (jsstring * A)) :
  Forall (fun p => Q (snd p)) l -> Q a -> Forall (fun p => Q (snd p)) (set_assoc k a l).
Proof.
  intros Hl Ha. induction Hl as [|[k' a'] l Hp Hl IH]; cbn [set_assoc].
  - constructor; [exact Ha|constructor].
  - destruct (eqb k k'); constructor; assumption.
Qed.

Lemma Forall_assoc {A : Type} (Q : A -> Prop) k a (l : list (jsstring * A)) :
  Forall (fun p => Q (snd p)) l -> assoc k l = Some a -> Q a.
Proof.
  induction 1 as [|[k' a'] l Hp _ IH]; cbn [assoc]; [discriminate|].
  destruct (eqb k k'); [intros [= <-]; exact Hp|exact IH].
Qed.

Lemma strip_field_fits n k jps :
  Forall (fun p => fits n (snd p)) jps -> Forall (fun p => fits n (snd p)) (strip_field k jps).
Proof.
  intros H. unfold strip_field. destruct (assoc k jps) as [j|]; [|exact H].
  destruct (json_truthy j); [|exact H].
  apply (Forall_set_assoc (fits n)); [exact H|apply fits_string].
Qed.

Lemma map_field_fits n k f jps :
  (forall m j, fits m j -> fits m (f j)) ->
  Forall (fun p => fits n (snd p)) jps -> Forall (fun p => fits n (snd p)) (map_field k f jps).
Proof.
  intros Hf H. unfold map_field. destruct (assoc k jps) as [[| | | |items|]|] eqn:E; try exact H.
  apply (Forall_set_assoc (fits n)); [exact H|].
  pose proof (Forall_assoc (fits n) _ _ _ H E) as Hitems.
  destruct n as [|n]; [contradiction|]. cbn [fits] in *.
  apply Forall_map. revert Hitems. apply List.Forall_impl. intros j. apply Hf.
Qed.

Lemma spec_lesson_fits m j : fits m j -> fits m (spec_lesson j).
Proof.
  destruct j; try (intros H; exact H). destruct m as [|m]; [intros []|]. cbn [spec_lesson fits].
  intros H. apply strip_field_fits, strip_field_fits, H.
Qed.

Lemma spec_section_fits m j : fits m j -> fits m (spec_section j).
Proof.
  destruct j; try (intros H; exact H). destruct m as [|m]; [intros []|]. cbn [spec_section fits].
  intros H. apply map_field_fits; [apply spec_lesson_fits|]. apply strip_field_fits, H.
Qed.

Lemma spec_course_fits m j : fits m j -> fits m (spec_course j).
Proof.
  destruct j; try (intros H; exact H). destruct m as [|m]; [intros []|]. cbn [spec_course fits].
  intros H. apply map_field_fits; [apply spec_section_fits|]. apply strip_field_fits, H.
Qed.

(** *** What the sanitizer keeps *)

(** Field [k] of an object. *)
Definition field (k : jsstring) (j : json) : option json :=
  match j with JObject jps => assoc k jps | _ => None end.

(** The elements of the array in field [k], in order. *)
Definition elements (k : jsstring) (j : json) : list json :=
  match field k j with Some (JArray items) => items | _ => [] end.

(** [j'] has every field of [j] unchanged, the fields [but] apart. *)
Definition same_fields (but : list jsstring) (j j' : json) : Prop :=
  forall k, existsb (eqb k) but = false -> field k j' = field k j.

Lemma assoc_set_assoc_eq {A : Type} (k : jsstring) (a : A) (l : list (jsstring * A)) :
  assoc k (set_assoc k a l) = Some a.
Proof.
  induction l as [|[key a'] l IH]; cbn [set_assoc assoc].
  - rewrite eqb_refl. reflexivity.
  - destruct (eqb k key) eqn:E; cbn [assoc]; [rewrite eqb_refl; reflexivity|].
    rewrite E. exact IH.
Qed.

Lemma assoc_map_field_ne (k k' : jsstring) f jps :
  eqb k k' = false -> assoc k (map_field k' f jps) = assoc k jps.
Proof.
  intros Hne. unfold map_field. destruct (assoc k' jps) as [[]|]; try reflexivity.
  apply assoc_set_assoc_ne, Hne.
Qed.

Lemma elements_map_field k f jps :
  elements k (JObject (map_field k f jps)) = map f (elements k (JObject jps)).
Proof.
  unfold elements, field, map_field.
  destruct (assoc k jps) as [[]|] eqn:E; rewrite ?E; try reflexivity.
  rewrite assoc_set_assoc_eq. reflexivity.
Qed.

Lemma elements_strip_field_ne k k' jps :
  eqb k k' = false -> elements k (JObject (strip_field k' jps)) = elements k (JObject jps).
Proof. intros Hne. unfold elements, field. rewrite assoc_strip_field_ne by exact Hne. reflexivity. Qed.

Lemma Forall2_map_same {A : Type} (R : A -> A -> Prop) (f : A -> A) (l : list A) :
  (forall x, R x (f x)) -> Forall2 R l (map f l).
Proof. intros H. induction l; constructor; auto. Qed.

Lemma spec_lesson_same j : same_fields [lit "content"; lit "description"] j (spec_lesson j).
Proof.
  intros k Hk. destruct j; try reflexivity. cbn [existsb] in Hk.
  apply orb_false_iff in Hk as [Hc Hk]. apply orb_false_iff in Hk as [Hd _].
  cbn [spec_lesson field]. rewrite !assoc_strip_field_ne by assumption. reflexivity.
Qed.

Lemma spec_section_same j :
  same_fields [lit "description"; lit "lessons"] j (spec_section j)
  /\ Forall2 (same_fields [lit "content"; lit "description"])
       (elements (lit "lessons") j) (elements (lit "lessons") (spec_section j)).
Proof.
  split.
  - intros k Hk. destruct j; try reflexivity. cbn [existsb] in Hk.
    apply orb_false_iff in Hk as [Hd Hk]. apply orb_false_iff in Hk as [Hl _].
    cbn [spec_section field]. rewrite assoc_map_field_ne, assoc_strip_field_ne by assumption.
    reflexivity.
  - destruct j; try constructor. cbn [spec_section].
    rewrite elements_map_field, elements_strip_field_ne by reflexivity.
    apply Forall2_map_same, spec_lesson_same.
Qed.

Lemma spec_course_same j :
  same_fields [lit "description"; lit "sections"] j (spec_course j)
  /\ Forall2 (fun s s' =>
       same_fields [lit "description"; lit "lessons"] s s'
       /\ Forall2 (same_fields [lit "content"; lit "description"])
            (elements (lit "lessons") s) (elements (lit "lessons") s'))
       (elements (lit "sections") j) (elements (lit "sections") (spec_course j)).
Proof.
  split.
  - intros k Hk. destruct j; try reflexivity. cbn [existsb] in Hk.
    apply orb_false_iff in Hk as [Hd Hk]. apply orb_false_iff in Hk as [Hl _].
    cbn [spec_course field]. rewrite assoc_map_field_ne, assoc_strip_field_ne by assumption.
    reflexivity.
  - destruct j; try constructor. cbn [spec_course].
    rewrite elements_map_field, elements_strip_field_ne by reflexivity.
    apply Forall2_map_same, spec_section_same.
Qed.

End sanitizer_spec.

Section sanitizer_frame.
Import JsString Json JsHeap HtmlSanitizer.

(** A course with markup in every field the sanitizer touches. *)
Definition nested_course : json :=
  JObject [(lit "id", JString (lit "c1"));
           (lit "title", JString (lit "<b>Rocq</b>"));
           (lit "description", JString (lit "<p>An  introduction</p>"));
           (lit "status", JString (lit "published"));
           (lit "sections",
            JArray [JObject [(lit "id", JString (lit "s1"));
                             (lit "description", JString (lit "<i>First</i>"));
                             (lit "lessons",
                              JArray [JObject [(lit "id", JString (lit "l1"));
                                               (lit "content", JString (lit "<h1>Hello</h1>"))];
                                      JObject [(lit "id", JString (lit "l2"));
                                               (lit "description", JString (lit "<u>two</u>"))]])];
                    JObject [(lit "id", JString (lit "s2"))]])].

Definition nested_props : list (jsstring * json) :=
  match nested_course with JObject jps => jps | _ => [] end.

(** The heap after the course was read from a text, and the course in it. *)
Definition nested_heap : heap := fst (JSON_parse nested_course []).
Definition nested_loc : loc :=
  match snd (JSON_parse nested_course []) with VObject l => l | _ => O end.

End sanitizer_frame.

(** C7.  For a course [course] that [JSON.stringify] can write, with
    sections and lessons that are objects,
    [sanitizeCourseForStorage(course)] returns a new object: the heap the
    caller had is a prefix of the heap after the call, so [course] and
    everything reachable from it read as before; every cell of the result
    was allocated by the call; the result reads as the course with the
    course description, the section descriptions and the lesson contents
    and descriptions stripped; every other field of the course, of each
    section and of each lesson (id, title, category, difficulty, status
    among them) is as it was, and sections and lessons keep their number
    and order. *)
Theorem sanitizeCourseForStorage_frame
    (document : HtmlSanitizer.Document) (h : JsHeap.heap) (l : JsHeap.loc)
    (jps : list (JsString.jsstring * Json.json)) :
  let course := Json.JObject jps in
  let sanitized := spec_course document course in
  JsHeap.JSON_stringify h (JsHeap.VObject l) = Some course ->
  course_shaped course ->
  exists ext c,
    HtmlSanitizer.sanitizeCourseForStorage document (JsHeap.VObject l) h
      = (h ++ ext, JsHeap.VObject c)
    /\ JsHeap.JSON_stringify (h ++ ext) (JsHeap.VObject l) = Some course
    /\ mirrors (fun l' => length h <= l') (h ++ ext) (JsHeap.VObject c) sanitized
    /\ JsHeap.JSON_stringify (h ++ ext) (JsHeap.VObject c) = Some sanitized
    /\ same_fields [JsString.lit "description"; JsString.lit "sections"] course sanitized
    /\ Forall2 (fun s s' =>
         same_fields [JsString.lit "description"; JsString.lit "lessons"] s s'
         /\ Forall2 (same_fields [JsString.lit "content"; JsString.lit "description"])
              (elements (JsString.lit "lessons") s) (elements (JsString.lit "lessons") s'))
         (elements (JsString.lit "sections") course)
         (elements (JsString.lit "sections") sanitized).
Proof.
  intros course sanitized Hj Hok.
  destruct (sanitizeCourseForStorage_mirrors document h l jps Hj Hok) as (ext & c & Hrun & Hmir).
  exists ext, c. split; [exact Hrun|].
  assert (Hlen : length h <= length (h ++ ext)) by (rewrite length_app; lia).
  split; [exact (to_json_extend _ _ _ ext _ _ Hj Hlen)|].
  split; [exact Hmir|].
  split.
  - apply (mirrors_to_json _ _ _ _ _ Hmir). apply spec_course_fits.
    apply (fits_mono (length h)); [exact Hlen|]. exact (to_json_fits _ _ _ _ Hj).
  - apply spec_course_same.
Qed.

Lemma sanitizeCourseForStorage_frame_witness :
  JsHeap.JSON_stringify nested_heap (JsHeap.VObject nested_loc) = Some (Json.JObject nested_props)
  /\ course_shaped (Json.JObject nested_props)
  /\ exists ext c,
       HtmlSanitizer.sanitizeCourseForStorage None (JsHeap.VObject nested_loc) nested_heap
         = (nested_heap ++ ext, JsHeap.VObject c)
       /\ JsHeap.JSON_stringify (nested_heap ++ ext) (JsHeap.VObject c)
          = Some (spec_course None (Json.JObject nested_props)).
Proof.
  assert (Hj : JsHeap.JSON_stringify nested_heap (JsHeap.VObject nested_loc)
               = Some (Json.JObject nested_props)) by (vm_compute; reflexivity).
  assert (Hok : course_shaped (Json.JObject nested_props))
    by (cbn; repeat constructor).
  split; [exact Hj|]. split; [exact Hok|].
  destruct (sanitizeCourseForStorage_frame None nested_heap nested_loc nested_props Hj Hok)
    as (ext & c & Hrun & _ & _ & Hread & _).
  exists ext, c. split; [exact Hrun|exact Hread].
Defined.

Section sanitizer_examples.
Import JsString Json JsHeap HtmlSanitizer.

(** The nested course, run: the caller's cells are the first cells of the
    new heap, and only the description and content fields lost their
    markup; the title keeps its own. *)
Example sanitizeCourseForStorage_nested :
  let '(h, v) := sanitizeCourseForStorage None (VObject nested_loc) nested_heap in
  take (length nested_heap) h = nested_heap
  /\ v = VObject 13
  /\ JSON_stringify h v
     = Some (JObject
         [(lit "id", JString (lit "c1"));
          (lit "title", JString (lit "<b>Rocq</b>"));
          (lit "description", JString (lit "An introduction"));
          (lit "status", JString (lit "published"));
          (lit "sections",
           JArray [JObject [(lit "id", JString (lit "s1"));
                            (lit "description", JString (lit "First"));
                            (lit "lessons",
                             JArray [JObject [(lit "id", JString (lit "l1"));
                                              (lit "content", JString (lit "Hello"))];
                                     JObject [(lit "id", JString (lit "l2"));
                                              (lit "description", JString (lit "two"))]])];
                   JObject [(lit "id", JString (lit "s2"))]])]).
Proof. vm_compute. repeat split; reflexivity. Qed.

(** A structure that refers to itself cannot be written: the [catch] branch
    hands the argument back, the very same object. *)
Example sanitizeCourseForStorage_circular :
  let h := [Object [(lit "self", VObject 0)]] in
  sanitizeCourseForStorage None (VObject 0) h = (h, VObject 0).
Proof. vm_compute. reflexivity. Qed.

End sanitizer_examples.

(** ** Rounding never passes a double *)

Section rounding_bounds.
Import Number.
Local Open Scope Z_scope.

Lemma shr_record_of_loc_m m l : shr_m (shr_record_of_loc m l) = m.
Proof. destruct l as [|[]]; reflexivity. Qed.

Lemma shr_1_m mrs : 0 <= shr_m mrs -> shr_m (shr_1 mrs) = shr_m mrs / 2.
Proof.
  destruct mrs as [m r s]. cbn [shr_m]. intros Hm.
  destruct m as [|[p|p|]|p]; cbn [shr_1 shr_m]; try lia; try reflexivity.
  - rewrite Pos2Z.inj_xI. apply Z.div_unique with 1; lia.
  - rewrite Pos2Z.inj_xO. apply Z.div_unique with 0; lia.
Qed.

(** [n] right shifts divide the mantissa by [2^n]. *)
Lemma iter_shr_1_m p mrs :
  0 <= shr_m mrs -> shr_m (SpecFloat.iter_pos shr_1 p mrs) = shr_m mrs / 2 ^ Z.pos p.
Proof.
  revert mrs. induction p as [p IH|p IH|]; intros mrs Hm; cbn [SpecFloat.iter_pos].
  - assert (H1 : 0 <= shr_m (shr_1 mrs)) by (rewrite shr_1_m by exact Hm; apply Z.div_pos; lia).
    assert (H2 : 0 <= shr_m (SpecFloat.iter_pos shr_1 p (shr_1 mrs)))
      by (rewrite IH by exact H1; apply Z.div_pos; lia).
    rewrite IH, IH, shr_1_m by assumption.
    assert (E : 2 ^ Z.pos p~1 = 2 * 2 ^ Z.pos p * 2 ^ Z.pos p).
    { replace (Z.pos p~1) with (1 + Z.pos p + Z.pos p) by lia.
      rewrite !Z.pow_add_r by lia. reflexivity. }
    rewrite E, !Z.div_div by lia. f_equal. ring.
  - assert (H2 : 0 <= shr_m (SpecFloat.iter_pos shr_1 p mrs))
      by (rewrite IH by exact Hm; apply Z.div_pos; lia).
    rewrite IH, IH by assumption.
    assert (E : 2 ^ Z.pos p~0 = 2 ^ Z.pos p * 2 ^ Z.pos p).
    { replace (Z.pos p~0) with (Z.pos p + Z.pos p) by lia.
      rewrite !Z.pow_add_r by lia. reflexivity. }
    rewrite E, !Z.div_div by lia. reflexivity.
  - rewrite shr_1_m by exact Hm. reflexivity.
Qed.

(** [shr_fexp] truncates to the exponent the format asks for. *)
Lemma shr_fexp_spec m e l :
  0 <= m ->
  let e1 := Z.max e (fexp prec emax (Zdigits2 m + e)) in
  snd (shr_fexp prec emax m e l) = e1
  /\ shr_m (fst (shr_fexp prec emax m e l)) = m / 2 ^ (e1 - e).
Proof.
  intros Hm e1. unfold shr_fexp, shr. subst e1.
  destruct (fexp prec emax (Zdigits2 m + e) - e) as [|p|p] eqn:En; cbn [fst snd].
  - replace (Z.max e _ - e) with 0 by lia. rewrite Z.pow_0_r, Z.div_1_r.
    split; [lia|apply shr_record_of_loc_m].
  - replace (Z.max e _ - e) with (Z.pos p) by lia.
    split; [lia|]. rewrite iter_shr_1_m; rewrite shr_record_of_loc_m; [reflexivity|exact Hm].
  - replace (Z.max e _ - e) with 0 by lia. rewrite Z.pow_0_r, Z.div_1_r.
    split; [lia|apply shr_record_of_loc_m].
Qed.

Lemma round_nearest_even_bounds m l : m <= round_nearest_even m l <= m + 1.
Proof. destruct l as [|[]]; cbn [round_nearest_even]; try lia. destruct (Z.even m); lia. Qed.

Lemma Zdigits2_le m n : 0 <= m < 2 ^ n -> 0 <= n -> Zdigits2 m <= n.
Proof.
  intros [Hm Hlt] Hn. destruct m as [|p|p]; cbn [Zdigits2]; [exact Hn| |lia].
  pose proof (digits2_pos_bounds p) as [Hlo _].
  assert (H : 2 ^ (Z.pos (digits2_pos p) - 1) < 2 ^ n) by lia.
  apply Z.pow_lt_mono_r_iff in H; lia.
Qed.

Lemma Zdigits2_upper m : 0 <= m -> m < 2 ^ Zdigits2 m.
Proof.
  intros Hm. destruct m as [|p|p]; cbn [Zdigits2]; [reflexivity| |lia].
  apply digits2_pos_bounds.
Qed.

Lemma Zdigits2_nonneg m : 0 <= Zdigits2 m.
Proof. destruct m; cbn [Zdigits2]; lia. Qed.

Lemma fexp_mono a b : a <= b -> fexp prec emax a <= fexp prec emax b.
Proof. unfold fexp, SpecFloat.emin, prec, emax. lia. Qed.

Lemma pow2_pos n : 0 <= n -> 0 < 2 ^ n.
Proof. intros. apply Z.pow_pos_nonneg; lia. Qed.

Lemma pow2_split a b : 0 <= a -> 0 <= b -> 2 ^ (a + b) = 2 ^ a * 2 ^ b.
Proof. intros. apply Z.pow_add_r; assumption. Qed.

(** Rounding a value below [B * 2^eb], a point of every grid the rounding
    can use, gives a double that is not above it. *)
Lemma binary_round_aux_bound s mx ex l B eb :
  0 <= mx -> 0 < B -> ex <= eb ->
  fexp prec emax (Zdigits2 B + eb) <= eb -> eb <= emax - prec ->
  mx < B * 2 ^ (eb - ex) ->
  match binary_round_aux prec emax s mx ex l with
  | S754_zero _ => True
  | S754_finite _ m e => e <= eb /\ Z.pos m <= B * 2 ^ (eb - e)
  | _ => False
  end.
Proof.
  intros Hmx HB Hex Hgrid Hmax Hlt.
  pose proof (Zdigits2_upper B (Z.lt_le_incl _ _ HB)) as HdB.
  pose proof (Zdigits2_nonneg B) as HdB0.
  assert (Hbelow : forall m e, e <= eb -> 0 <= m <= B * 2 ^ (eb - e) ->
                     Zdigits2 m + e <= Zdigits2 B + eb).
  { intros m e He [Hm0 Hm].
    assert (Hp : 0 < 2 ^ (eb - e)) by (apply pow2_pos; lia).
    assert (m < 2 ^ (Zdigits2 B + (eb - e))) by (rewrite pow2_split by lia; nia).
    pose proof (Zdigits2_le m (Zdigits2 B + (eb - e))). lia. }
  unfold binary_round_aux.
  pose proof (shr_fexp_spec mx ex l Hmx) as S1. cbv zeta in S1.
  destruct (shr_fexp prec emax mx ex l) as [r1 e1]. cbn [fst snd] in S1.
  destruct S1 as [He1 Hm1]. rewrite <- He1 in Hm1.
  assert (Hd : Zdigits2 mx + ex <= Zdigits2 B + eb) by (apply Hbelow; lia).
  pose proof (fexp_mono _ _ Hd) as Hf.
  assert (He1b : ex <= e1 <= eb) by lia.
  assert (Hp1 : 0 < 2 ^ (e1 - ex)) by (apply pow2_pos; lia).
  assert (Hr1 : 0 <= shr_m r1 < B * 2 ^ (eb - e1)).
  { rewrite Hm1. split; [apply Z.div_pos; lia|].
    apply Z.div_lt_upper_bound; [exact Hp1|].
    replace (eb - ex) with ((e1 - ex) + (eb - e1)) in Hlt by lia.
    rewrite pow2_split in Hlt by lia. lia. }
  pose proof (round_nearest_even_bounds (shr_m r1) (loc_of_shr_record r1)) as Hrne.
  set (m2 := round_nearest_even (shr_m r1) (loc_of_shr_record r1)) in *.
  assert (Hm2 : 0 <= m2 <= B * 2 ^ (eb - e1)) by lia.
  pose proof (shr_fexp_spec m2 e1 loc_Exact (proj1 Hm2)) as S2. cbv zeta in S2.
  destruct (shr_fexp prec emax m2 e1 loc_Exact) as [r2 e2]. cbn [fst snd] in S2.
  destruct S2 as [He2 Hm2']. rewrite <- He2 in Hm2'.
  pose proof (fexp_mono _ _ (Hbelow m2 e1 (proj2 He1b) Hm2)) as Hf2.
  assert (He2b : e1 <= e2 <= eb) by lia.
  assert (Hp2 : 0 < 2 ^ (e2 - e1)) by (apply pow2_pos; lia).
  assert (Hr2 : 0 <= shr_m r2 <= B * 2 ^ (eb - e2)).
  { rewrite Hm2'. split; [apply Z.div_pos; lia|].
    replace (B * 2 ^ (eb - e2)) with ((B * 2 ^ (eb - e2)) * 2 ^ (e2 - e1) / 2 ^ (e2 - e1))
      by (apply Z.div_mul; lia).
    apply Z.div_le_mono; [exact Hp2|].
    rewrite <- Z.mul_assoc, <- pow2_split by lia.
    replace (eb - e2 + (e2 - e1)) with (eb - e1) by lia. lia. }
  destruct (shr_m r2) as [|m|m]; [exact I| |lia].
  destruct (Z.leb_spec e2 (emax - prec)); [|lia].
  split; [lia|exact (proj2 Hr2)].
Qed.

(** A mantissa that already has the format's exponent is kept. *)
Lemma binary_round_aux_exact s m e :
  fexp prec emax (Z.pos (digits2_pos m) + e) <= e -> e <= emax - prec ->
  binary_round_aux prec emax s (Z.pos m) e loc_Exact = S754_finite s m e.
Proof.
  intros Hf He.
  assert (Hs : shr_fexp prec emax (Z.pos m) e loc_Exact
               = ({| shr_m := Z.pos m; shr_r := false; shr_s := false |}, e)).
  { unfold shr_fexp, shr. cbn [Zdigits2 shr_record_of_loc].
    destruct (fexp prec emax (Z.pos (digits2_pos m) + e) - e) eqn:En; try reflexivity. lia. }
  unfold binary_round_aux. rewrite Hs. cbn [shr_m loc_of_shr_record round_nearest_even].
  rewrite Hs. cbn [shr_m]. destruct (Z.leb_spec e (emax - prec)); [reflexivity|lia].
Qed.

End rounding_bounds.

Section percentage_bounds.
Import Number.
Local Open Scope Z_scope.

Lemma Pos_iter_xO p k : Z.pos (Pos.iter xO p k) = Z.pos p * 2 ^ Z.pos k.
Proof.
  induction k as [|k IH] using Pos.peano_ind.
  - cbn [Pos.iter]. rewrite Pos2Z.inj_xO. change (2 ^ 1) with 2. ring.
  - rewrite Pos.iter_succ, Pos2Z.inj_xO, IH, Pos2Z.inj_succ, Z.pow_succ_r by lia. ring.
Qed.

Lemma digits2_pos_iter_xO p k :
  Z.pos (digits2_pos (Pos.iter xO p k)) = Z.pos (digits2_pos p) + Z.pos k.
Proof.
  induction k as [|k IH] using Pos.peano_ind.
  - cbn [Pos.iter digits2_pos]. lia.
  - rewrite Pos.iter_succ. cbn [digits2_pos]. rewrite Pos2Z.inj_succ, IH. lia.
Qed.

(** A counter below [2^53] is a double: [n = m * 2^e] with a mantissa of
    53 bits. *)
Lemma of_nat_exact n :
  0 < Z.of_nat n < 2 ^ 53 ->
  exists m e,
    Prim2SF (of_nat n) = S754_finite false m e
    /\ -52 <= e <= 0
    /\ Z.pos m = Z.of_nat n * 2 ^ (- e)
    /\ Z.pos (digits2_pos m) = 53.
Proof.
  intros [Hpos Hlt]. unfold of_nat, of_Z.
  destruct (Z.ltb_spec (Z.of_nat n) 0) as [Hneg|_]; [lia|].
  rewrite of_uint63_spec, to_Z_of_Z_small by (change (2 ^ 63) with 9223372036854775808;
    change (2 ^ 53) with 9007199254740992 in Hlt; lia).
  destruct (Z.of_nat n) as [|p|p]; [lia| |lia].
  unfold binary_normalize, binary_round.
  pose proof (digits2_pos_bounds p) as [Hlo Hhi].
  assert (Hd : Z.pos (digits2_pos p) <= 53).
  { assert (H : 2 ^ (Z.pos (digits2_pos p) - 1) < 2 ^ 53) by lia.
    apply Z.pow_lt_mono_r_iff in H; lia. }
  assert (Hf : fexp prec emax (Z.pos (digits2_pos p) + 0) = Z.pos (digits2_pos p) - 53)
    by (unfold fexp, SpecFloat.emin, prec, emax; lia).
  rewrite Hf. unfold shl_align.
  destruct (Z.pos (digits2_pos p) - 53 - 0) as [|k|k] eqn:Ek; [| lia |].
  - exists p, 0. rewrite binary_round_aux_exact.
    + repeat split; lia.
    + rewrite Hf. lia.
    + unfold prec, emax. lia.
  - exists (Pos.iter xO p k), (Z.pos (digits2_pos p) - 53).
    pose proof (digits2_pos_iter_xO p k) as Hdk.
    rewrite binary_round_aux_exact.
    + repeat split; try lia. rewrite Pos_iter_xO. f_equal. f_equal. lia.
    + unfold fexp, SpecFloat.emin, prec, emax. lia.
    + unfold prec, emax. lia.
Qed.

(** A double between [0] and [B * 2^eb]. *)
Definition below (B eb : Z) (sf : spec_float) : Prop :=
  match sf with
  | S754_zero s => s = false
  | S754_finite s m e => s = false /\ e <= eb /\ Z.pos m <= B * 2 ^ (eb - e)
  | _ => False
  end.

Lemma binary_round_aux_below mx ex l B eb :
  0 <= mx -> 0 < B -> ex <= eb ->
  fexp prec emax (Zdigits2 B + eb) <= eb -> eb <= emax - prec ->
  mx < B * 2 ^ (eb - ex) ->
  below B eb (binary_round_aux prec emax false mx ex l).
Proof.
  intros H1 H2 H3 H4 H5 H6.
  pose proof (binary_round_aux_bound false mx ex l B eb H1 H2 H3 H4 H5 H6) as Hb.
  pose proof (binary_round_aux_sign false mx ex l) as Hs.
  unfold below. destruct (binary_round_aux prec emax false mx ex l); try contradiction.
  - exact Hs.
  - split; [exact Hs|exact Hb].
Qed.

Lemma div_eucl_eq a b : Z.div_eucl a b = (a / b, a mod b).
Proof. unfold Z.div, Z.modulo. destruct (Z.div_eucl a b). reflexivity. Qed.

(** The quotient and remainder the division rounds, for mantissas of 53
    bits. *)
Lemma SFdiv_core_binary_53 m1 e1 m2 e2 :
  Z.pos (digits2_pos m1) = 53 -> Z.pos (digits2_pos m2) = 53 ->
  let e' := Z.min (fexp prec emax (e1 - e2)) (e1 - e2) in
  let m' := Z.pos m1 * 2 ^ (e1 - e2 - e') in
  SFdiv_core_binary prec emax (Z.pos m1) e1 (Z.pos m2) e2
  = (m' / Z.pos m2, e', new_location (Z.pos m2) (m' mod Z.pos m2)).
Proof.
  intros H1 H2 e' m'. unfold SFdiv_core_binary. cbv zeta. cbn [Zdigits2]. rewrite H1, H2.
  replace (53 + e1 - (53 + e2)) with (e1 - e2) by lia. fold e'.
  assert (Hs : 0 <= e1 - e2 - e') by (subst e'; lia).
  assert (Hm : match e1 - e2 - e' with
               | 0 => Z.pos m1
               | Z.pos _ => Z.shiftl (Z.pos m1) (e1 - e2 - e')
               | Z.neg _ => 0
               end = m').
  { subst m'. destruct (e1 - e2 - e') as [|p|p] eqn:E; [|apply Z.shiftl_mul_pow2; lia|lia].
    rewrite Z.pow_0_r. lia. }
  rewrite Hm, div_eucl_eq. reflexivity.
Qed.

(** Fewer completed lessons than lessons: the quotient is below [1]. *)
Lemma div_below_one c t :
  0 < Z.of_nat c < Z.of_nat t -> Z.of_nat t < 2 ^ 53 ->
  below 9007199254740991 (-53) (Prim2SF (of_nat c / of_nat t)).
Proof.
  intros Hc Ht.
  destruct (of_nat_exact c) as (mc & ec & Hxc & Hec & Hmc & Hdc); [lia|].
  destruct (of_nat_exact t) as (mt & et & Hxt & Het & Hmt & Hdt); [lia|].
  rewrite div_spec, Hxc, Hxt. unfold SF64div, SFdiv.
  rewrite (SFdiv_core_binary_53 mc ec mt et Hdc Hdt). cbv zeta.
  change (2 ^ 53) with 9007199254740992 in Ht.
  pose proof (digits2_pos_bounds mc) as [Hmc52 _]. rewrite Hdc in Hmc52.
  pose proof (digits2_pos_bounds mt) as [_ Hmt53]. rewrite Hdt in Hmt53.
  change (2 ^ (53 - 1)) with 4503599627370496 in Hmc52.
  change (2 ^ 53) with 9007199254740992 in Hmt53.
  assert (HA : 0 < 2 ^ (- ec)) by (apply pow2_pos; lia).
  assert (HB : 0 < 2 ^ (- et)) by (apply pow2_pos; lia).
  assert (Hee : ec <= et).
  { destruct (Z.le_gt_cases ec et) as [H|H]; [exact H|exfalso].
    assert (E : 2 ^ (- et) = 2 ^ (- ec) * 2 ^ (ec - et))
      by (rewrite <- pow2_split by lia; f_equal; lia).
    assert (2 <= 2 ^ (ec - et)).
    { change 2 with (2 ^ 1) at 1. apply Z.pow_le_mono_r; lia. }
    rewrite E in Hmt. nia. }
  set (e' := Z.min (fexp prec emax (ec - et)) (ec - et)).
  assert (He' : e' <= -53) by (subst e'; unfold fexp, SpecFloat.emin, prec, emax; lia).
  assert (Hs : 0 <= ec - et - e') by (subst e'; lia).
  assert (HF : 0 < 2 ^ (-53 - e')) by (apply pow2_pos; lia).
  apply binary_round_aux_below.
  - apply Z.div_pos; [|lia]. pose proof (pow2_pos _ Hs). lia.
  - lia.
  - exact He'.
  - apply Z.leb_le. vm_compute. reflexivity.
  - apply Z.leb_le. vm_compute. reflexivity.
  - apply Z.div_lt_upper_bound; [lia|].
    assert (E : 2 ^ (- ec) * 2 ^ (ec - et - e')
                = 2 ^ (- et) * (9007199254740992 * 2 ^ (-53 - e'))).
    { change 9007199254740992 with (2 ^ 53). rewrite <- !pow2_split by lia. f_equal. lia. }
    rewrite Hmc, Hmt, <- Z.mul_assoc, E.
    set (K := 2 ^ (- et) * 2 ^ (-53 - e')).
    assert (HK : 0 < K) by (subst K; lia).
    replace (Z.of_nat c * (2 ^ (- et) * (9007199254740992 * 2 ^ (-53 - e'))))
      with (Z.of_nat c * 9007199254740992 * K) by (subst K; ring).
    replace (Z.of_nat t * 2 ^ (- et) * (9007199254740991 * 2 ^ (-53 - (e'))))
      with (Z.of_nat t * 9007199254740991 * K) by (subst K; ring).
    apply Z.mul_lt_mono_pos_r; [exact HK|lia].
Qed.

(** A quotient below [1] times [100] is at most [100]. *)
Lemma mul_hundred_below x :
  below 9007199254740991 (-53) (Prim2SF x) ->
  below 7036874417766400 (-46) (Prim2SF (x * 100)).
Proof.
  intros Hx. rewrite mul_spec. unfold SF64mul.
  change (Prim2SF 100) with (S754_finite false 7036874417766400 (-46)).
  destruct (Prim2SF x) as [s|s| |s m e]; cbn [below] in Hx; try contradiction.
  - subst s. reflexivity.
  - destruct Hx as (-> & He & Hm). cbn [SFmul xorb].
    assert (HF : 0 < 2 ^ (-53 - e)) by (apply pow2_pos; lia).
    assert (HE : 2 ^ (- e) = 9007199254740992 * 2 ^ (-53 - e)).
    { change 9007199254740992 with (2 ^ 53). rewrite <- pow2_split by lia. f_equal. lia. }
    apply binary_round_aux_below.
    + lia.
    + lia.
    + lia.
    + apply Z.leb_le. vm_compute. reflexivity.
    + apply Z.leb_le. vm_compute. reflexivity.
    + replace (-46 - (e + -46)) with (- e) by lia. rewrite Pos2Z.inj_mul, HE. nia.
Qed.

(** [Math.round] of a double between [0] and [100]. *)
Lemma Math_round_below x :
  below 7036874417766400 (-46) (Prim2SF x) ->
  exists z, 0 <= z <= 100 /\ Math_round x = of_Z z.
Proof.
  intros Hx. unfold Math_round.
  destruct (Prim2SF x) as [s|s| |s m e] eqn:E; cbn [below] in Hx; try contradiction.
  - subst s. exists 0. split; [lia|].
    rewrite <- (SF2Prim_Prim2SF x), E. reflexivity.
  - destruct Hx as (-> & He & Hm). cbn [signed].
    destruct (Z.leb_spec 0 e) as [H|_]; [lia|].
    assert (HF : 0 < 2 ^ (-46 - e)) by (apply pow2_pos; lia).
    assert (HE : 2 ^ (- e) = 70368744177664 * 2 ^ (-46 - e)).
    { change 70368744177664 with (2 ^ 46). rewrite <- pow2_split by lia. f_equal. lia. }
    assert (HE1 : 2 ^ (1 - e) = 2 * 2 ^ (- e)).
    { replace (1 - e) with (Z.succ (- e)) by lia. apply Z.pow_succ_r. lia. }
    assert (Hz : 0 <= round_half_up (Z.pos m) e < 101).
    { unfold round_half_up. rewrite HE1. split.
      - apply Z.div_pos; lia.
      - apply Z.div_lt_upper_bound; [lia|]. rewrite HE. lia. }
    destruct (Z.eqb_spec (round_half_up (Z.pos m) e) 0) as [Hz0|_].
    + exists 0. split; [lia|reflexivity].
    + exists (round_half_up (Z.pos m) e). split; [lia|reflexivity].
Qed.

(** A double divided by itself is [1]. *)
Lemma div_self n :
  0 < Z.of_nat n < 2 ^ 53 -> (of_nat n / of_nat n)%float = 1%float.
Proof.
  intros Hn. destruct (of_nat_exact n Hn) as (m & e & Hx & He & Hm & Hd).
  rewrite <- (SF2Prim_Prim2SF (of_nat n / of_nat n)), div_spec, Hx.
  unfold SF64div, SFdiv. rewrite (SFdiv_core_binary_53 m e m e Hd Hd). cbv zeta.
  replace (e - e) with 0 by lia.
  change (Z.min (fexp prec emax 0) 0) with (-53). change (0 - -53) with 53.
  rewrite Z.mul_comm, Z.div_mul, Z.mod_mul by lia.
  assert (Hl : new_location (Z.pos m) 0 = loc_Exact).
  { unfold new_location, new_location_even, new_location_odd.
    destruct (Z.even (Z.pos m)); reflexivity. }
  rewrite Hl. vm_compute. reflexivity.
Qed.

(** The percentage is a whole number between [0] and [100]. *)
Lemma percentage_range c t :
  (c <= t)%nat -> 0 < Z.of_nat t < 2 ^ 53 ->
  exists z, 0 <= z <= 100 /\ ProgressTracking.percentage c t = of_Z z.
Proof.
  intros Hc Ht. unfold ProgressTracking.percentage.
  destruct (Nat.eq_dec c t) as [->|Hne].
  - rewrite div_self by exact Ht. exists 100. split; [lia|]. vm_compute. reflexivity.
  - destruct c as [|c].
    + apply Math_round_below. rewrite mul_spec, div_spec.
      destruct (of_nat_exact t Ht) as (m & e & Hx & _). rewrite Hx. reflexivity.
    + apply Math_round_below, mul_hundred_below, div_below_one; lia.
Qed.

End percentage_bounds.

Section course_progress_bounds.
Import JsString Json Model Storage ProgressTracking Number.

(** C10.  For a course with fewer than [2^53] lessons (the range in which a
    counter is an exact double) and any store, the record that
    [calculateCourseProgress] returns has
    [0 <= completedLessons <= totalLessons],
    [0 <= completedSections <= totalSections], and a [completionPercentage]
    that is a whole number between [0] and [100]. *)
Theorem calculateCourseProgress_bounds (course : option Course) (st : localStorage) :
  (Z.of_nat (length (lessons_of (sections_of course))) < 2 ^ 53)%Z ->
  exists r,
    calculateCourseProgress course st = (Return r, st)
    /\ 0 <= completedLessons r <= totalLessons r
    /\ 0 <= completedSections r <= totalSections r
    /\ exists z, (0 <= z <= 100)%Z /\ completionPercentage r = of_Z z.
Proof.
  unfold sections_of.
  destruct course as [c|]; [destruct (sections c) as [ss|] eqn:Hs|];
    cbn [default from_option id]; intros Hlt.
  - eexists. split; [exact (calculateCourseProgress_run c ss st Hs)|].
    cbn [totalLessons completedLessons completedSections totalSections completionPercentage].
    pose proof (filter_length_le (lesson_done (ledger st)) (lessons_of ss)) as Hle.
    pose proof (filter_length_le (section_done (ledger st)) ss) as Hsec.
    repeat split; try lia.
    destruct (Nat.ltb_spec 0 (length (lessons_of ss))) as [Hpos|_].
    + apply percentage_range; [exact Hle|lia].
    + exists 0%Z. split; [lia|reflexivity].
  - eexists. split; [exact (calculateCourseProgress_no_sections c st Hs)|].
    cbn. repeat split; try lia. exists 0%Z. split; [lia|reflexivity].
  - eexists. split; [reflexivity|].
    cbn. repeat split; try lia. exists 0%Z. split; [lia|reflexivity].
Qed.

Lemma calculateCourseProgress_bounds_witness :
  (Z.of_nat (length (lessons_of (sections_of (Some forty_lessons)))) < 2 ^ 53)%Z
  /\ exists r,
       calculateCourseProgress (Some forty_lessons) twenty_three_done
       = (Return r, twenty_three_done)
       /\ completedLessons r <= totalLessons r
       /\ exists z, (0 <= z <= 100)%Z /\ completionPercentage r = of_Z z.
Proof.
  assert (H : (Z.of_nat (length (lessons_of (sections_of (Some forty_lessons)))) < 2 ^ 53)%Z)
    by (vm_compute; reflexivity).
  split; [exact H|].
  destruct (calculateCourseProgress_bounds (Some forty_lessons) twenty_three_done H)
    as (r & Hrun & Hl & _ & Hp).
  exists r. split; [exact Hrun|]. split; [exact (proj2 Hl)|exact Hp].
Defined.

End course_progress_bounds.

(** ** Progress ledger: reading after writing *)

Section ledger_round_trips.
Import JsString Json Model Storage ProgressTracking ProgressData.
Variable host : Host.


Lemma eqb_neq (a b : jsstring) : eqb a b = false <-> a <> b.
Proof.
  split.
  - intros H E. apply eqb_eq in E. congruence.
  - intros H. destruct (eqb a b) eqn:E; [|reflexivity]. apply eqb_eq in E. contradiction.
Qed.




End ledger_round_trips.

(** ** The learning streak *)

Section streak_facts.
Import JsString Json Model Storage ProgressTracking ProgressData.
Variable host : Host.






End streak_facts.

(** ** Bookmarks *)

Section bookmark_facts.
Import JsString Json Model Storage ProgressTracking ProgressData.

(** The bookmarks a loader sees: none when the key is missing or does not
    parse. *)
Definition bookmarked (st : localStorage) : list jsstring :=
  match course_bookmarks st with
  | Some (Doc l) => l
  | _ => []
  end.

Lemma loadBookmarkedCourses_run st :
  loadBookmarkedCourses st = (Return (bookmarked st), st).
Proof.
  unfold loadBookmarkedCourses, bookmarked, try_catch, bind, getItem, ret, throw,
    Storage.JSON_parse.
  destruct (course_bookmarks st) as [[[|c s]|l]|]; reflexivity.
Qed.


Lemma toggleCourseBookmark_run courseId st :
  toggleCourseBookmark courseId st
  = if existsb (eqb courseId) (bookmarked st)
    then (Return false,
          set_course_bookmarks
            (Some (Doc (List.filter (fun id => negb (eqb id courseId)) (bookmarked st)))) st)
    else (Return true,
          set_course_bookmarks (Some (Doc (bookmarked st ++ [courseId]))) st).
Proof.
  unfold toggleCourseBookmark, try_catch, bind at 1. rewrite loadBookmarkedCourses_run.
  destruct (existsb (eqb courseId) (bookmarked st)); reflexivity.
Qed.

Lemma bookmarked_set l st : bookmarked (set_course_bookmarks (Some (Doc l)) st) = l.
Proof. reflexivity. Qed.

Lemma eqb_sym (a b : jsstring) : eqb a b = eqb b a.
Proof.
  destruct (eqb a b) eqn:E.
  - apply eqb_eq in E. subst b. symmetry. apply eqb_refl.
  - destruct (eqb b a) eqn:E'; [|reflexivity]. apply eqb_eq in E'. subst b.
    rewrite eqb_refl in E. discriminate E.
Qed.

Lemma existsb_filter_other (x y : jsstring) (l : list jsstring) :
  existsb (eqb x) (List.filter (fun id => negb (eqb id y)) l)
  = existsb (eqb x) l && negb (eqb x y).
Proof.
  induction l as [|c r IH]; [reflexivity|]. cbn [List.filter existsb].
  destruct (eqb c y) eqn:Ecy; cbn [negb existsb].
  - rewrite IH. apply eqb_eq in Ecy. subst c.
    destruct (eqb x y); cbn [orb negb]; [|reflexivity].
    rewrite andb_false_r. reflexivity.
  - rewrite IH. destruct (eqb x c) eqn:Exc; cbn [orb]; [|reflexivity].
    apply eqb_eq in Exc. subst c. rewrite Ecy. reflexivity.
Qed.

Lemma filter_absent (y : jsstring) (l : list jsstring) :
  existsb (eqb y) l = false -> List.filter (fun id => negb (eqb id y)) l = l.
Proof.
  induction l as [|c r IH]; [reflexivity|]. cbn [existsb List.filter]. intros H.
  apply orb_false_iff in H as [Hc Hr]. rewrite eqb_sym, Hc. cbn [negb].
  rewrite (IH Hr). reflexivity.
Qed.


(** X5.  Two calls of [toggleCourseBookmark(courseId)] give back the list
    of bookmarks when the course was not bookmarked; when it was, every
    occurrence of it is removed and one is appended, so the course moves to
    the end of the list. *)
Theorem toggleCourseBookmark_twice (courseId : jsstring) (st : localStorage) :
  let st'' := snd (toggleCourseBookmark courseId (snd (toggleCourseBookmark courseId st))) in
  exists before,
    fst (loadBookmarkedCourses st) = Return before
    /\ fst (loadBookmarkedCourses st'')
       = Return (if existsb (eqb courseId) before
                 then List.filter (fun id => negb (eqb id courseId)) before ++ [courseId]
                 else before).
Proof.
  cbv zeta. exists (bookmarked st). rewrite !loadBookmarkedCourses_run. cbn [fst].
  split; [reflexivity|]. rewrite (toggleCourseBookmark_run courseId st).
  destruct (existsb (eqb courseId) (bookmarked st)) eqn:Hin; cbn [snd];
    rewrite toggleCourseBookmark_run, bookmarked_set.
  - rewrite existsb_filter_other, eqb_refl. cbn [negb]. rewrite andb_false_r.
    cbn [snd]. rewrite bookmarked_set. reflexivity.
  - rewrite existsb_app. cbn [existsb]. rewrite eqb_refl, orb_true_r. cbn [snd].
    rewrite bookmarked_set, List.filter_app. cbn [List.filter]. rewrite eqb_refl. cbn [negb].
    rewrite app_nil_r, filter_absent by exact Hin. reflexivity.
Qed.

End bookmark_facts.

(** ** Reset, export and import *)

Section dump_facts.
Import JsString Json Model Storage ProgressTracking ProgressData.
Variable host : Host.




(** An import of [null] fails and writes nothing; an object without the
    three properties succeeds and writes nothing. *)
Lemma importProgressData_nothing (st : localStorage) :
  importProgressData None st = (Return false, st)
  /\ importProgressData
       (Some {| progress := None; bookmarks := None; streak := None; exportDate := None |}) st
     = (Return true, st).
Proof. split; reflexivity. Qed.

End dump_facts.

(** ** Course progress: the extremes, and all courses at once *)

Section course_progress_extremes.
Import JsString Json Model Storage ProgressTracking ProgressData Number.

Lemma percentage_none t :
  (0 < Z.of_nat t < 2 ^ 53)%Z -> percentage 0 t = 0%float.
Proof.
  intros Ht. unfold percentage.
  destruct (of_nat_exact t Ht) as (m & e & Hx & _).
  assert (E : Prim2SF (of_nat 0 / of_nat t * 100)%float = S754_zero false).
  { rewrite mul_spec, div_spec, Hx. reflexivity. }
  unfold Math_round. rewrite E.
  rewrite <- (SF2Prim_Prim2SF (of_nat 0 / of_nat t * 100)%float), E. reflexivity.
Qed.

Lemma percentage_all t :
  (0 < Z.of_nat t < 2 ^ 53)%Z -> percentage t t = 100%float.
Proof.
  intros Ht. unfold percentage. rewrite div_self by exact Ht. vm_compute. reflexivity.
Qed.

Lemma filter_length_all {A : Type} (f : A -> bool) (l : list A) :
  Forall (fun x => f x = true) l -> List.filter f l = l.
Proof.
  induction 1 as [|x l Hx _ IH]; [reflexivity|]. cbn [List.filter]. rewrite Hx, IH. reflexivity.
Qed.

Lemma filter_length_none {A : Type} (f : A -> bool) (l : list A) :
  Forall (fun x => f x = false) l -> List.filter f l = [].
Proof.
  induction 1 as [|x l Hx _ IH]; [reflexivity|]. cbn [List.filter]. rewrite Hx. exact IH.
Qed.

Lemma Forall_lessons_of (P : Lesson -> Prop) (secs : list Section) :
  Forall P (lessons_of secs) ->
  Forall (fun s => Forall P (default [] (lessons s))) secs.
Proof.
  unfold lessons_of. induction secs as [|s secs IH]; [constructor|].
  cbn [flat_map]. intros H. apply Forall_app in H as [H1 H2].
  constructor; [exact H1|exact (IH H2)].
Qed.

(** A section that has lessons. *)
Definition has_lessons (s : Section) : bool :=
  match lessons s with
  | Some (_ :: _) => true
  | _ => false
  end.

(** X8.  For a course with at least one and fewer than [2^53] lessons: when
    every lesson has a completed record, [calculateCourseProgress] reports
    all lessons completed, [100] percent, and as many completed sections as
    there are sections with lessons; when no lesson has one, it reports [0]
    completed lessons, [0] percent and no completed section. *)
Theorem calculateCourseProgress_extremes (course : Course) (secs : list Section)
    (st : localStorage) :
  sections course = Some secs ->
  (0 < Z.of_nat (length (lessons_of secs)) < 2 ^ 53)%Z ->
  exists r,
    calculateCourseProgress (Some course) st = (Return r, st)
    /\ totalLessons r = length (lessons_of secs)
    /\ (Forall (fun l => is_completed (ledger st !! lesson_id l) = true) (lessons_of secs) ->
        completedLessons r = totalLessons r
        /\ completionPercentage r = 100%float
        /\ completedSections r = length (List.filter has_lessons secs))
    /\ (Forall (fun l => is_completed (ledger st !! lesson_id l) = false) (lessons_of secs) ->
        completedLessons r = 0
        /\ completionPercentage r = 0%float
        /\ completedSections r = 0).
Proof.
  intros Hs Ht. eexists. split; [exact (calculateCourseProgress_run course secs st Hs)|].
  cbn [totalLessons completedLessons completionPercentage completedSections].
  split; [reflexivity|].
  assert (Hpos : (0 <? length (lessons_of secs)) = true) by (apply Nat.ltb_lt; lia).
  rewrite Hpos. split.
  - intros Hall.
    rewrite (filter_length_all (lesson_done (ledger st)) _ Hall).
    split; [reflexivity|]. split; [apply percentage_all, Ht|].
    f_equal. apply Forall_lessons_of in Hall. clear - Hall.
    induction Hall as [|s secs Hs' _ IH]; [reflexivity|]. cbn [List.filter].
    rewrite IH. f_equal.
    unfold section_done, has_lessons. destruct (lessons s) as [[|l ls]|]; try reflexivity.
    cbn [default from_option id] in Hs'. cbn [length]. cbn [Nat.ltb Nat.leb andb].
    rewrite (proj2 (forallb_forall _ _)); [reflexivity|].
    intros x Hx. exact (proj1 (List.Forall_forall _ _) Hs' x Hx).
  - intros Hnone.
    rewrite (filter_length_none (lesson_done (ledger st)) _ Hnone). cbn [length].
    split; [reflexivity|]. split; [apply percentage_none, Ht|].
    apply Forall_lessons_of in Hnone.
    rewrite filter_length_none; [reflexivity|].
    clear - Hnone. induction Hnone as [|s secs Hs' _ IH]; constructor; [|exact IH].
    unfold section_done. destruct (lessons s) as [[|l ls]|]; try reflexivity.
    cbn [default from_option id] in Hs'. inversion Hs' as [|? ? Hl _]; subst.
    cbn [forallb]. unfold lesson_done at 1. rewrite Hl. cbn [andb]. apply andb_false_r.
Qed.

Lemma calculateCourseProgress_extremes_witness :
  sections two_lessons = Some (default [] (sections two_lessons))
  /\ (0 < Z.of_nat (length (lessons_of (default [] (sections two_lessons)))) < 2 ^ 53)%Z
  /\ exists r,
       calculateCourseProgress (Some two_lessons) empty_storage = (Return r, empty_storage)
       /\ totalLessons r = 2
       /\ completedLessons r = 0
       /\ completionPercentage r = 0%float.
Proof.
  assert (Hs : sections two_lessons = Some (default [] (sections two_lessons)))
    by reflexivity.
  assert (Ht : (0 < Z.of_nat (length (lessons_of (default [] (sections two_lessons))))
                < 2 ^ 53)%Z) by (vm_compute; split; reflexivity).
  split; [exact Hs|]. split; [exact Ht|].
  destruct (calculateCourseProgress_extremes two_lessons _ empty_storage Hs Ht)
    as (r & Hrun & Htot & _ & Hnone).
  exists r. split; [exact Hrun|]. split; [exact Htot|].
  destruct Hnone as (Hc & Hp & _); [repeat constructor|].
  split; [exact Hc|exact Hp].
Defined.

(** The statistics of one course; the call cannot fail. *)
Lemma calculateCourseProgress_returns (c : Course) (st : localStorage) :
  exists p, calculateCourseProgress (Some c) st = (Return p, st).
Proof.
  destruct (sections c) as [secs|] eqn:Hs.
  - eexists. exact (calculateCourseProgress_run c secs st Hs).
  - eexists. exact (calculateCourseProgress_no_sections c st Hs).
Qed.

Definition progress_of (st : localStorage) (c : Course) : option CourseProgress :=
  match fst (calculateCourseProgress (Some c) st) with
  | Return p => Some p
  | Throw _ => None
  end.

(** X9.  [getAllCoursesProgress(courses)] writes nothing and maps every id
    that occurs among the courses to the statistics of the last course with
    that id, so with distinct ids every course has its own entry; other ids
    have no entry, and an argument that is not an array gives the empty
    object. *)
Theorem getAllCoursesProgress_entries (cs : list Course) (st : localStorage) :
  getAllCoursesProgress None st = (Return ∅, st)
  /\ exists m,
       getAllCoursesProgress (Some cs) st = (Return m, st)
       /\ forall id,
            m !! id
            = find (fun c => eqb (course_id c) id) (rev cs) ≫= progress_of st.
Proof.
  split; [reflexivity|]. unfold getAllCoursesProgress.
  induction cs as [|c cs IH] using rev_ind.
  - exists ∅. split; [reflexivity|]. intros id. rewrite lookup_empty. reflexivity.
  - destruct IH as (m & Hm & Hlook). rewrite fold_left_app. cbn [fold_left].
    unfold bind at 1. rewrite Hm. unfold bind.
    destruct (calculateCourseProgress_returns c st) as [p Hp].
    rewrite Hp. eexists. split; [reflexivity|].
    intros id. rewrite rev_app_distr. cbn [rev app find].
    destruct (eqb (course_id c) id) eqn:E.
    + apply eqb_eq in E. subst id. rewrite lookup_insert_eq. cbn.
      unfold progress_of. rewrite Hp. reflexivity.
    + apply eqb_neq in E. rewrite lookup_insert_ne by exact E. apply Hlook.
Qed.

End course_progress_extremes.

(** ** The sanitizer on a whole payload *)

Section parse_depth.
Import JsString Json JsHeap.

(** A tree whose numbers are finite and not [-0]: what [JSON.stringify]
    writes back as it is. *)
Definition normal (j : json) : Prop := exists n, fits n j.

Lemma normal_items n items : fits n (JArray items) -> Forall normal items.
Proof.
  destruct n as [|n]; [intros []|]. cbn [fits]. apply List.Forall_impl. intros j H. exists n. exact H.
Qed.

Lemma normal_props n props : fits n (JObject props) -> Forall (fun p => normal (snd p)) props.
Proof.
  destruct n as [|n]; [intros []|]. cbn [fits]. apply List.Forall_impl. intros j H. exists n. exact H.
Qed.

(** The cells that [JSON.parse] adds are at least as many as the tree is
    deep. *)
Definition parse_deep (j : json) : Prop :=
  normal j -> forall h h' v, JSON_parse j h = (h', v) -> fits (length h' - length h) j.

Lemma parse_items_fits (js : list json) :
  Forall parse_deep js -> Forall normal js ->
  forall h hc vs, map_heap JSON_parse js h = (hc, vs) ->
    Forall (fits (length hc - length h)) js.
Proof.
  induction 1 as [|j js Hj _ IH]; intros Hn h hc vs; cbn [map_heap]; [constructor|].
  inversion Hn as [|? ? Hnj Hnjs]; subst.
  destruct (JSON_parse j h) as [h1 v] eqn:E1.
  destruct (map_heap JSON_parse js h1) as [h2 vs'] eqn:E2. intros [= <- <-].
  destruct (JSON_parse_spec j _ _ _ E1) as [Hp1 _].
  assert (Hok : Forall parse_ok js) by (apply Forall_forall; intros; apply JSON_parse_spec).
  destruct (parse_items_spec js Hok _ _ _ E2) as [Hp2 _].
  pose proof (prefix_length _ _ Hp1). pose proof (prefix_length _ _ Hp2).
  constructor.
  - apply (fits_mono (length h1 - length h)); [lia|]. exact (Hj Hnj _ _ _ E1).
  - specialize (IH Hnjs _ _ _ E2). revert IH. apply List.Forall_impl.
    intros j'. apply fits_mono. lia.
Qed.

Lemma parse_props_fits (jps : list (jsstring * json)) :
  Forall (fun p => parse_deep (snd p)) jps -> Forall (fun p => normal (snd p)) jps ->
  forall h hc vps, map_heap parse_prop jps h = (hc, vps) ->
    Forall (fun p => fits (length hc - length h) (snd p)) jps.
Proof.
  induction 1 as [|jp jps Hj _ IH]; intros Hn h hc vps; cbn [map_heap]; [constructor|].
  inversion Hn as [|? ? Hnj Hnjs]; subst.
  unfold parse_prop at 1. destruct (JSON_parse (snd jp) h) as [h1 v] eqn:E1.
  destruct (map_heap parse_prop jps h1) as [h2 vps'] eqn:E2. intros [= <- <-].
  destruct (JSON_parse_spec (snd jp) _ _ _ E1) as [Hp1 _].
  assert (Hok : Forall (fun p : jsstring * json => parse_ok (snd p)) jps)
    by (apply Forall_forall; intros; apply JSON_parse_spec).
  destruct (parse_props_spec jps Hok _ _ _ E2) as [Hp2 _].
  pose proof (prefix_length _ _ Hp1). pose proof (prefix_length _ _ Hp2).
  constructor.
  - apply (fits_mono (length h1 - length h)); [lia|]. exact (Hj Hnj _ _ _ E1).
  - specialize (IH Hnjs _ _ _ E2). revert IH. apply List.Forall_impl.
    intros j'. apply fits_mono. lia.
Qed.

Lemma JSON_parse_deep j : parse_deep j.
Proof.
  induction j as [| b | x | s | items IH | props IH] using json_induction;
    intros [n Hn] h h' v; cbn [JSON_parse].
  1-4: intros [= <- <-]; apply (fits_mono 0); [lia|]; destruct n; exact Hn.
  - destruct (map_heap JSON_parse items h) as [hc vs] eqn:E. unfold alloc. intros [= <- <-].
    assert (Hok : Forall parse_ok items) by (apply Forall_forall; intros; apply JSON_parse_spec).
    destruct (parse_items_spec items Hok _ _ _ E) as [Hp _].
    pose proof (prefix_length _ _ Hp). rewrite length_app. cbn [length].
    replace (length hc + 1 - length h) with (S (length hc - length h)) by lia.
    cbn [fits]. exact (parse_items_fits items IH (normal_items n items Hn) _ _ _ E).
  - change (map_heap _ props h) with (map_heap parse_prop props h).
    destruct (map_heap parse_prop props h) as [hc vps] eqn:E. unfold alloc. intros [= <- <-].
    assert (Hok : Forall (fun p : jsstring * json => parse_ok (snd p)) props)
      by (apply Forall_forall; intros; apply JSON_parse_spec).
    destruct (parse_props_spec props Hok _ _ _ E) as [Hp _].
    pose proof (prefix_length _ _ Hp). rewrite length_app. cbn [length].
    replace (length hc + 1 - length h) with (S (length hc - length h)) by lia.
    cbn [fits]. exact (parse_props_fits props IH (normal_props n props Hn) _ _ _ E).
Qed.

(** [JSON.stringify(JSON.parse(text))] gives the value of [text] back. *)
Lemma JSON_stringify_parse j :
  normal j -> let '(h, v) := JSON_parse j [] in JSON_stringify h v = Some j.
Proof.
  intros Hn. destruct (JSON_parse j []) as [h v] eqn:E.
  destruct (JSON_parse_spec j _ _ _ E) as [_ Hm].
  pose proof (JSON_parse_deep j Hn _ _ _ E) as Hf. cbn [length] in Hf.
  rewrite Nat.sub_0_r in Hf. exact (mirrors_to_json _ _ _ _ _ Hm Hf).
Qed.

End parse_depth.

Section sanitize_courses.
Import JsString Json JsHeap HtmlSanitizer.
Variable document : Document.



End sanitize_courses.

(** ** Migration: what a run stores *)

Section payload_facts.
Import JsString Json JsHeap HtmlSanitizer.

(** A payload of two courses, the first with markup. *)
Definition two_courses : list json :=
  [nested_course;
   JObject [(lit "id", JString (lit "c2")); (lit "title", JString (lit "Plain"));
            (lit "description", JString (lit "no markup"))]].





End payload_facts.

Section migration_runs.
Import JsString Json Model Storage DataMigration BackupRestore.

(** The marker and the backups after a run. *)
Lemma migrateExistingData_effects (document : HtmlSanitizer.Document) (now : Z)
    (createBackup : bool) (st : localStorage) :
  exists r st',
    migrateExistingData document now createBackup st = (Return r, st')
    /\ (if DataMigration.success r
        then migration_version st' = Some CURRENT_MIGRATION_VERSION
        else migration_version st' = migration_version st)
    /\ backups st'
       = (if createBackup && negb (missing (courses st))
          then match courses st with
               | Some t => <[now := t]> (backups st)
               | None => backups st
               end
          else backups st).
Proof.
  unfold migrateExistingData, try_catch, bind, getItem, update, ret, throw, Storage.JSON_parse.
  destruct (courses st) as [[[|c s]|j]|] eqn:Hc; cbn [missing negb andb].
  - eexists _, _. split; [reflexivity|]. cbn. rewrite andb_false_r. repeat split.
  - destruct createBackup; cbn; eexists _, _; (split; [reflexivity|]); cbn;
      repeat split.
  - destruct createBackup, j; cbn;
      try (eexists _, _; (split; [reflexivity|]); cbn; repeat split);
      destruct (HtmlSanitizer.sanitized_text document (JArray items)); cbn;
      eexists _, _; (split; [reflexivity|]); cbn; repeat split.
  - eexists _, _. split; [reflexivity|]. cbn. rewrite andb_false_r. repeat split.
Qed.



Definition stored_two_courses : localStorage :=
  set_courses (Some (Doc (JArray two_courses))) empty_storage.


Lemma cleanupOldBackups_version keepCount st :
  exists r st',
    cleanupOldBackups keepCount st = (Return r, st')
    /\ migration_version st' = migration_version st
    /\ courses st' = courses st.
Proof.
  unfold cleanupOldBackups, listBackups, try_catch, bind, getItem, update, ret.
  destruct (length _ <=? keepCount); eexists _, _; (split; [reflexivity|]); split; reflexivity.
Qed.

(** The result of a run that found nothing to do. *)
Definition not_needed : MigrationResult * bool :=
  ({| DataMigration.success := true; DataMigration.message := "No migration needed";
      DataMigration.error := None; coursesProcessed := None |}, false).

(** X13.  [runAutoMigration] never throws, and once it has reported success
    a further call finds nothing to do: it returns "No migration needed"
    with [migrationRun: false] and leaves the store as it is, so the stored
    courses are sanitized at most once. *)
Theorem runAutoMigration_once (document : HtmlSanitizer.Document) (now now' : Z)
    (st : localStorage) :
  exists res ran st',
    runAutoMigration document now st = (Return (res, ran), st')
    /\ (if DataMigration.success res
        then runAutoMigration document now' st' = (Return not_needed, st')
        else ran = true /\ migration_version st' = migration_version st).
Proof.
  unfold runAutoMigration at 1. unfold try_catch, bind at 1. rewrite isMigrationNeeded_run.
  assert (Hcur : forall s, migration_version s = Some CURRENT_MIGRATION_VERSION ->
                   runAutoMigration document now' s = (Return not_needed, s)).
  { intros s Hs. unfold runAutoMigration, try_catch, bind. rewrite isMigrationNeeded_run, Hs.
    reflexivity. }
  destruct (migration_version st) as [v|] eqn:Hv;
    [destruct (eqb v CURRENT_MIGRATION_VERSION) eqn:Ev|]; cbn [negb].
  - eexists _, _, _. split; [reflexivity|]. cbn [DataMigration.success].
    apply Hcur. rewrite Hv. f_equal. apply eqb_eq, Ev.
  - destruct (migrateExistingData_effects document now true st) as (r & st1 & Hrun & Hmark & _).
    unfold bind. rewrite Hrun. destruct (DataMigration.success r) eqn:Hsucc.
    + destruct (cleanupOldBackups_version 3 st1) as (cr & st2 & Hclean & Hver & _).
      rewrite Hclean. eexists _, _, _. split; [reflexivity|]. rewrite Hsucc.
      apply Hcur. rewrite Hver. exact Hmark.
    + eexists _, _, _. split; [reflexivity|]. rewrite Hsucc.
      split; [reflexivity|]. rewrite Hmark. exact Hv.
  - destruct (migrateExistingData_effects document now true st) as (r & st1 & Hrun & Hmark & _).
    unfold bind. rewrite Hrun. destruct (DataMigration.success r) eqn:Hsucc.
    + destruct (cleanupOldBackups_version 3 st1) as (cr & st2 & Hclean & Hver & _).
      rewrite Hclean. eexists _, _, _. split; [reflexivity|]. rewrite Hsucc.
      apply Hcur. rewrite Hver. exact Hmark.
    + eexists _, _, _. split; [reflexivity|]. rewrite Hsucc.
      split; [reflexivity|]. rewrite Hmark. exact Hv.
Qed.



(** A key without a backup, and a backup that is not an array of courses:
    nothing is restored and the store is left as it is. *)
Lemma restoreFromBackup_refuses (backupKey : Z) (st : localStorage) :
  match backups st !! backupKey with
  | Some (Doc (JArray _)) => True
  | _ =>
    exists r, restoreFromBackup backupKey st = (Return r, st)
              /\ BackupRestore.success r = false
  end.
Proof.
  unfold restoreFromBackup, try_catch, bind, getItem, update, ret, throw, Storage.JSON_parse.
  destruct (backups st !! backupKey) as [[[|c s]|j]|]; cbn [missing];
    try (eexists; split; reflexivity).
  destruct j; try exact I; eexists; split; reflexivity.
Qed.

End migration_runs.

(** ** Backups: listing and cleaning up *)

Section backup_facts.
Import JsString Json Model Storage DataMigration.

(** The entry [listBackups] makes of one stored backup. *)
Definition backup_entry (kv : Z * text json) : option Backup :=
  match snd kv with
  | Doc (JArray items) => Some {| timestamp := fst kv; coursesCount := length items |}
  | Doc _ => Some {| timestamp := fst kv; coursesCount := O |}
  | Raw _ => None
  end.

(** The entries of all backups that parse, in no particular order. *)
Definition entries (m : gmap Z (text json)) : list Backup :=
  omap backup_entry (map_to_list m).

Lemma listBackups_run st :
  listBackups st = (Return (merge_sort newer (entries (backups st))), st).
Proof. reflexivity. Qed.

Global Instance newer_total : Total newer.
Proof. intros a b. unfold newer. lia. Qed.

Global Instance newer_trans : Transitive newer.
Proof. intros a b c. unfold newer. lia. Qed.

Lemma backup_entry_timestamp kv b : backup_entry kv = Some b -> timestamp b = fst kv.
Proof.
  unfold backup_entry. destruct (snd kv) as [s|[]]; try discriminate;
    intros [= <-]; reflexivity.
Qed.

Lemma timestamps_sublist (l : list (Z * text json)) :
  (timestamp <$> omap backup_entry l) `sublist_of` (fst <$> l).
Proof.
  induction l as [|kv l IH]; [constructor|]. cbn [omap fmap list_fmap list_omap].
  destruct (backup_entry kv) as [b|] eqn:E.
  - cbn. rewrite (backup_entry_timestamp _ _ E). apply sublist_skip, IH.
  - apply sublist_cons, IH.
Qed.

Lemma NoDup_entries_timestamps m : NoDup (timestamp <$> entries m).
Proof.
  unfold entries. eapply sublist_NoDup; [|apply timestamps_sublist].
  apply NoDup_fst_map_to_list.
Qed.

Lemma NoDup_entries m : NoDup (entries m).
Proof. apply (NoDup_fmap_1 timestamp), NoDup_entries_timestamps. Qed.

Lemma elem_of_entries m b :
  b ∈ entries m <-> backup_entry (timestamp b, default (Raw []) (m !! timestamp b)) = Some b
                    /\ is_Some (m !! timestamp b).
Proof.
  unfold entries. rewrite list_elem_of_omap. split.
  - intros ([k v] & Hin & He). apply elem_of_map_to_list in Hin.
    pose proof (backup_entry_timestamp _ _ He) as Ht. cbn [fst] in Ht. subst k.
    rewrite Hin. cbn [default from_option id]. split; [exact He|eexists; reflexivity].
  - intros [He [v Hv]]. rewrite Hv in He. cbn [default from_option id] in He.
    exists (timestamp b, v). split; [apply elem_of_map_to_list, Hv|exact He].
Qed.

(** Entries with the same time stamp are the same entry. *)
Lemma entries_timestamp_inj m a b :
  a ∈ entries m -> b ∈ entries m -> timestamp a = timestamp b -> a = b.
Proof.
  intros Ha Hb E. apply elem_of_entries in Ha as [Ha _]. apply elem_of_entries in Hb as [Hb _].
  rewrite E in Ha. rewrite Ha in Hb. injection Hb as Hb. exact Hb.
Qed.

Lemma elem_of_listed m b : b ∈ merge_sort newer (entries m) <-> b ∈ entries m.
Proof. rewrite merge_sort_Permutation. reflexivity. Qed.

Lemma NoDup_listed m : NoDup (merge_sort newer (entries m)).
Proof. rewrite merge_sort_Permutation. apply NoDup_entries. Qed.

Lemma StronglySorted_take {A : Type} (R : relation A) (l : list A) (n : nat) :
  StronglySorted R l -> StronglySorted R (take n l).
Proof.
  intros H. revert n. induction H as [|x l _ IH Hx]; intros [|n]; cbn [take]; try constructor.
  - apply IH.
  - apply Forall_take, Hx.
Qed.

Lemma strictly_sorted (l : list Backup) :
  StronglySorted newer l -> NoDup (timestamp <$> l) ->
  StronglySorted (fun a b => (timestamp b < timestamp a)%Z) l.
Proof.
  induction 1 as [|x l _ IH Hx]; intros Hnd; [constructor|].
  cbn [fmap list_fmap] in Hnd. apply NoDup_cons in Hnd as [Hnot Hnd].
  constructor; [exact (IH Hnd)|].
  apply Forall_forall. intros b Hb.
  pose proof (proj1 (Forall_forall _ _) Hx b Hb) as Hle. unfold newer in Hle.
  assert (timestamp b <> timestamp x).
  { intros E. apply Hnot. rewrite <- E. apply list_elem_of_fmap. exists b. split; [reflexivity|exact Hb]. }
  lia.
Qed.

(** X15.  [listBackups()] writes nothing and lists exactly the backups
    whose stored text parses, each once, with the number of courses of an
    array payload (and [0] for any other value), ordered by strictly
    decreasing time stamp; a backup that does not parse is left out. *)
Theorem listBackups_newest_first (st : localStorage) :
  exists found,
    listBackups st = (Return found, st)
    /\ StronglySorted (fun a b => (timestamp b < timestamp a)%Z) found
    /\ forall b,
         b ∈ found
         <-> exists j,
               backups st !! timestamp b = Some (Doc j)
               /\ coursesCount b = match j with JArray items => length items | _ => O end.
Proof.
  eexists. split; [apply listBackups_run|]. split.
  - apply strictly_sorted; [apply StronglySorted_merge_sort; apply _|].
    rewrite merge_sort_Permutation. apply NoDup_entries_timestamps.
  - intros b. rewrite elem_of_listed, elem_of_entries. unfold backup_entry. cbn [fst snd].
    split.
    + intros [He [v Hv]]. rewrite Hv in *. cbn [default from_option id] in He.
      destruct v as [s|j]; [discriminate He|]. exists j. split; [reflexivity|].
      destruct j; injection He as <-; reflexivity.
    + intros (j & Hj & Hcount). rewrite Hj. cbn [default from_option id].
      split; [|eexists; reflexivity].
      destruct b as [t n]. cbn [timestamp coursesCount] in *. subst n.
      destruct j; reflexivity.
Qed.

Lemma lookup_removed (rm : list Backup) (m : gmap Z (text json)) (t : Z) :
  foldr (fun b m => delete (timestamp b) m) m rm !! t
  = if decide (t ∈ timestamp <$> rm) then None else m !! t.
Proof.
  induction rm as [|b rm IH]; cbn [foldr fmap list_fmap].
  - rewrite decide_False; [reflexivity|]. intros H. inversion H.
  - destruct (decide (t = timestamp b)) as [E|Hne].
    + rewrite E, lookup_delete_eq, decide_True; [reflexivity|]. left.
    + rewrite lookup_delete_ne by congruence. rewrite IH.
      destruct (decide (t ∈ timestamp <$> rm)) as [H|H].
      * rewrite decide_True; [reflexivity|]. right. exact H.
      * rewrite decide_False; [reflexivity|].
        intros H'. apply elem_of_cons in H' as [E|H']; [congruence|contradiction].
Qed.

(** What is listed after the old entries were removed. *)
Lemma listed_after_removal (m : gmap Z (text json)) (keepCount : nat) :
  let found := merge_sort newer (entries m) in
  merge_sort newer
    (entries (foldr (fun b m => delete (timestamp b) m) m (drop keepCount found)))
  = take keepCount found.
Proof.
  cbv zeta. set (found := merge_sort newer (entries m)).
  set (m' := foldr (fun b m => delete (timestamp b) m) m (drop keepCount found)).
  assert (Hfound : forall b, b ∈ found <-> b ∈ entries m) by (intros; apply elem_of_listed).
  assert (Hnd : NoDup found) by apply NoDup_listed.
  assert (Hsplit : found = take keepCount found ++ drop keepCount found)
    by (symmetry; apply take_drop).
  assert (Hkept : forall b, b ∈ entries m' <-> b ∈ take keepCount found).
  { intros b. rewrite elem_of_entries. subst m'. rewrite lookup_removed.
    rewrite Hsplit in Hnd. apply NoDup_app in Hnd as (_ & Hdisj & _).
    split.
    - destruct (decide (timestamp b ∈ timestamp <$> drop keepCount found)) as [Hin|Hout].
      + intros [_ [v Hv]]. discriminate Hv.
      + intros Hb. assert (Hbm : b ∈ found) by (apply Hfound, elem_of_entries, Hb).
        rewrite Hsplit in Hbm. apply elem_of_app in Hbm as [Ht|Hd]; [exact Ht|].
        exfalso. apply Hout. apply list_elem_of_fmap. exists b. split; [reflexivity|exact Hd].
    - intros Ht. assert (Hbm : b ∈ entries m).
      { apply Hfound. rewrite Hsplit. apply elem_of_app. left. exact Ht. }
      destruct (decide (timestamp b ∈ timestamp <$> drop keepCount found)) as [Hin|Hout].
      + exfalso. apply list_elem_of_fmap in Hin as (b' & Hts & Hb').
        assert (Hb'm : b' ∈ entries m).
        { apply Hfound. rewrite Hsplit. apply elem_of_app. right. exact Hb'. }
        pose proof (entries_timestamp_inj m b b' Hbm Hb'm Hts). subst b'.
        exact (Hdisj b Ht Hb').
      + apply elem_of_entries, Hbm. }
  apply (StronglySorted_unique_strong newer).
  - intros x1 x2 H1 H2 H12 H21.
    apply elem_of_listed, Hkept in H1.
    apply (entries_timestamp_inj m).
    + apply Hfound. rewrite Hsplit. apply elem_of_app. left. exact H1.
    + apply Hfound. rewrite Hsplit. apply elem_of_app. left. exact H2.
    + unfold newer in *. lia.
  - apply StronglySorted_merge_sort; apply _.
  - apply StronglySorted_take, StronglySorted_merge_sort; apply _.
  - rewrite merge_sort_Permutation. apply NoDup_Permutation.
    + apply NoDup_entries.
    + eapply sublist_NoDup; [exact Hnd|apply sublist_take].
    + exact Hkept.
Qed.

(** X16.  [cleanupOldBackups(keepCount)] keeps the [keepCount] newest of
    the backups that parse: a following [listBackups()] gives the first
    [keepCount] entries of the list before.  The counts it reports add up
    to the number of backups that were listed; a backup whose text does not
    parse is never removed; nothing else in the store changes. *)
Theorem cleanupOldBackups_keeps_newest (keepCount : nat) (st : localStorage) :
  exists found r st',
    listBackups st = (Return found, st)
    /\ cleanupOldBackups keepCount st = (Return r, st')
    /\ listBackups st' = (Return (take keepCount found), st')
    /\ backupsRemaining r = length (take keepCount found)
    /\ backupsRemoved r + backupsRemaining r = length found
    /\ (forall t s, backups st !! t = Some (Raw s) -> backups st' !! t = Some (Raw s))
    /\ st' = set_backups (backups st') st.
Proof.
  exists (merge_sort newer (entries (backups st))).
  unfold cleanupOldBackups, bind. rewrite listBackups_run.
  set (found := merge_sort newer (entries (backups st))).
  destruct (Nat.leb_spec (length found) keepCount) as [Hle|Hgt].
  - eexists _, _. split; [reflexivity|]. split; [reflexivity|].
    rewrite take_ge by exact Hle. cbn [backupsRemaining backupsRemoved].
    split; [apply listBackups_run|]. split; [reflexivity|]. split; [lia|].
    split; [intros t s H; exact H|]. destruct st; reflexivity.
  - eexists _, _. split; [reflexivity|]. split; [reflexivity|].
    cbn [backupsRemaining backupsRemoved]. rewrite listBackups_run.
    cbn [backups set_backups]. fold found.
    split; [f_equal; f_equal; apply (listed_after_removal (backups st) keepCount)|].
    rewrite length_drop, length_take. split; [lia|]. split; [lia|].
    split; [|reflexivity].
    intros t s Hraw. rewrite lookup_removed.
    destruct (decide (t ∈ timestamp <$> drop keepCount found)) as [Hin|_]; [|exact Hraw].
    exfalso. apply list_elem_of_fmap in Hin as (b & -> & Hb).
    assert (Hi : b ∈ found).
    { rewrite <- (take_drop keepCount found). apply elem_of_app. right. exact Hb. }
    apply elem_of_listed, elem_of_entries in Hi as [He _].
    rewrite Hraw in He. discriminate He.
Qed.

Lemma cleanupOldBackups_listed (keepCount : nat) (st : localStorage) :
  exists r st',
    cleanupOldBackups keepCount st = (Return r, st')
    /\ listBackups st'
       = (Return (take keepCount (merge_sort newer (entries (backups st)))), st').
Proof.
  unfold cleanupOldBackups, bind. rewrite listBackups_run.
  set (found := merge_sort newer (entries (backups st))).
  destruct (Nat.leb_spec (length found) keepCount) as [Hle|Hgt].
  - eexists _, _. split; [reflexivity|]. rewrite take_ge by exact Hle. apply listBackups_run.
  - eexists _, _. split; [reflexivity|]. rewrite listBackups_run.
    cbn [backups set_backups]. fold found.
    f_equal. f_equal. apply (listed_after_removal (backups st) keepCount).
Qed.

(** X17.  When [runAutoMigration] ran a migration and it succeeded, at most
    three backups that parse are left in the store, the newest ones. *)
Theorem runAutoMigration_bounds_backups (document : HtmlSanitizer.Document) (now : Z)
    (st : localStorage) :
  exists res ran st',
    runAutoMigration document now st = (Return (res, ran), st')
    /\ (if ran && DataMigration.success res
        then exists found,
               listBackups st' = (Return found, st') /\ length found <= 3
        else True).
Proof.
  unfold runAutoMigration, try_catch, bind at 1. rewrite isMigrationNeeded_run.
  destruct (negb _).
  - eexists _, _, _. split; [reflexivity|]. exact I.
  - unfold bind at 1.
    destruct (migrateExistingData_effects document now true st) as (r & st1 & Hrun & _).
    rewrite Hrun. unfold bind. destruct (DataMigration.success r) eqn:Hsucc.
    + destruct (cleanupOldBackups_listed 3 st1) as (cr & st2 & Hclean & Hlist).
      rewrite Hclean. eexists _, _, _. split; [reflexivity|]. rewrite Hsucc. cbn [andb].
      eexists. split; [exact Hlist|]. rewrite length_take. lia.
    + eexists _, _, _. split; [reflexivity|]. rewrite Hsucc. exact I.
Qed.

End backup_facts.

(** ** Sanitizer: the shape of the output *)

Section output_shape.
Import JsString HtmlSanitizer HtmlDisplay.
Local Arguments N.eqb : simpl never.
Local Open Scope N_scope.

Lemma single_spaced_space s c :
  single_spaced s = true -> In c s -> is_space c = true -> c = SP.
Proof.
  induction s as [|d r IH]; [intros _ []|]. intros H [->|Hin] Hc.
  - cbn [single_spaced] in H. rewrite Hc in H.
    apply andb_true_iff in H as [H _]. apply andb_true_iff in H as [H _].
    apply N.eqb_eq, H.
  - exact (IH (single_spaced_tail _ _ H) Hin Hc).
Qed.

Lemma LF_is_space : is_space LF = true.
Proof. reflexivity. Qed.

(** The three facts about a string of the form [trim (collapse_spaces u)]. *)
Lemma cleaned_shape u :
  let t := trim (collapse_spaces u) in
  trim t = t /\ collapse_spaces t = t /\ ~ In LF t.
Proof.
  cbv zeta. set (t := trim (collapse_spaces u)).
  assert (Hss : single_spaced t = true)
    by (apply single_spaced_trim, single_spaced_collapse_spaces).
  split; [apply trim_idem|]. split; [apply collapse_spaces_single_spaced, Hss|].
  intros Hin. pose proof (single_spaced_space t LF Hss Hin LF_is_space) as E.
  discriminate E.
Qed.

(** Both paths end with the same two steps. *)
Lemma stripHtmlTags_shape (document : Document) (s : jsstring) :
  exists u, stripHtmlTags document s = trim (collapse_spaces u).
Proof.
  unfold stripHtmlTags. destruct s as [|c r]; [exists []; reflexivity|].
  destruct document as [parse|].
  - unfold stripHtmlTags_dom. rewrite collapse_blank_lines_collapse_spaces.
    eexists. reflexivity.
  - unfold stripHtmlTags_fallback. eexists. reflexivity.
Qed.

Lemma stripHtmlTags_trimmed (document : Document) (s : jsstring) :
  trim (stripHtmlTags document s) = stripHtmlTags document s.
Proof.
  destruct (stripHtmlTags_shape document s) as [u ->].
  exact (proj1 (cleaned_shape u)).
Qed.

(** X18.  On both paths, with any HTML parser behind the DOM path, the
    output of [stripHtmlTags] is a fixed point of the clean-up the function
    applies: trimming it and collapsing its white space change nothing, and
    it holds no line break.  So the replacement of blank lines in the DOM
    path never finds a match, and text that was stored never spans more
    than one line. *)
Theorem stripHtmlTags_clean (document : Document) (s : jsstring) :
  let t := stripHtmlTags document s in
  trim t = t
  /\ collapse_spaces t = t
  /\ collapse_blank_lines t = t
  /\ ~ In LF t.
Proof.
  cbv zeta.
  destruct (stripHtmlTags_shape document s) as [u ->].
  destruct (cleaned_shape u) as (H1 & H2 & H3).
  split; [exact H1|]. split; [exact H2|]. split; [|exact H3].
  apply collapse_blank_lines_from_no_LF, H3.
Qed.

End output_shape.

Section plain_text.
Import JsString HtmlSanitizer HtmlDisplay.
Local Arguments N.eqb : simpl never.
Local Open Scope N_scope.

(** X19.  Without a DOM, a non-empty text in which [containsHtmlTags] finds
    no tag and which holds no ampersand is only cleaned of white space:
    [stripHtmlTags] gives it back trimmed and with every run of white space
    replaced by one space.  A ['<'] that no ['>'] follows is kept. *)
Theorem stripHtmlTags_plain (s : jsstring) :
  containsHtmlTags s = false -> existsb (N.eqb AMP) s = false ->
  stripHtmlTags None s = trim (collapse_spaces s).
Proof.
  intros Htag Hamp. destruct s as [|c r]; [reflexivity|].
  unfold stripHtmlTags, containsHtmlTags in *.
  rewrite (fallback_no_amp _ (no_amp_In _ Hamp)), (remove_tags_no_tag _ Htag). reflexivity.
Qed.

Lemma stripHtmlTags_plain_witness :
  containsHtmlTags (lit "  if a < b   then") = false
  /\ existsb (N.eqb AMP) (lit "  if a < b   then") = false
  /\ stripHtmlTags None (lit "  if a < b   then") = lit "if a < b then".
Proof.
  split; [reflexivity|]. split; [reflexivity|].
  rewrite (stripHtmlTags_plain (lit "  if a < b   then") eq_refl eq_refl).
  vm_compute. reflexivity.
Defined.

Lemma head_trimmed t c r : trim t = t -> t = c :: r -> is_space c = false.
Proof.
  intros Ht E. rewrite E in Ht. unfold trim in Ht.
  destruct (trim_end_head _ _ _ Ht) as [r0 Hd].
  exact (drop_while_head _ _ _ _ Hd).
Qed.

Lemma trim_end_prefix s : trim_end s `prefix_of` s.
Proof.
  induction s as [|c r IH]; [reflexivity|]. cbn [trim_end].
  destruct (trim_end r) as [|d r'] eqn:E.
  - destruct (is_space c); [apply prefix_nil|]. exists r. reflexivity.
  - destruct IH as [k Hk]. exists k. rewrite Hk at 1. reflexivity.
Qed.

Lemma length_trim_end s : (length (trim_end s) <= length s)%nat.
Proof. apply prefix_length, trim_end_prefix. Qed.

(** X20.  The preview [getContentPreview(content, maxLength)] is never
    longer than [maxLength + 3].  When the stripped text fits it is the
    preview; otherwise the preview is a prefix of the stripped text of at
    most [maxLength] code units, without white space at either end,
    followed by ["..."]. *)
Theorem getContentPreview_bounds (document : Document) (content : jsstring)
    (maxLength : nat) :
  let t := stripHtmlTags document content in
  let p := getContentPreview document content maxLength in
  (length p <= maxLength + 3)%nat
  /\ (if (length t <=? maxLength)%nat then p = t
      else exists body,
             p = body ++ lit "..."
             /\ body `prefix_of` t
             /\ (length body <= maxLength)%nat
             /\ trim body = body).
Proof.
  cbv zeta. unfold getContentPreview.
  destruct content as [|c r].
  - cbn [stripHtmlTags length]. split; [lia|]. reflexivity.
  - set (t := stripHtmlTags document (c :: r)).
    pose proof (stripHtmlTags_trimmed document (c :: r)) as Htrim. fold t in Htrim.
    destruct (Nat.leb_spec (length t) maxLength) as [Hle|Hgt].
    + split; [lia|reflexivity].
    + assert (Hdrop : drop_while is_space (take maxLength t) = take maxLength t).
      { destruct (take maxLength t) as [|d x] eqn:E; [reflexivity|].
        destruct t as [|d' t']; [destruct maxLength; discriminate E|].
        destruct maxLength as [|n]; [discriminate E|]. cbn [take] in E.
        injection E as <- _. cbn [drop_while].
        rewrite (head_trimmed _ _ _ Htrim eq_refl). reflexivity. }
      assert (Hbody : trim (take maxLength t) = trim_end (take maxLength t))
        by (unfold trim; rewrite Hdrop; reflexivity).
      assert (Hlen : (length (trim (take maxLength t)) <= maxLength)%nat).
      { rewrite Hbody. etransitivity; [apply length_trim_end|]. rewrite length_take. lia. }
      split.
      * rewrite length_app. cbn [length lit]. simpl. lia.
      * exists (trim (take maxLength t)). split; [reflexivity|].
        split; [|split; [exact Hlen|apply trim_idem]].
        rewrite Hbody. etransitivity; [apply trim_end_prefix|]. apply prefix_take.
Qed.

Lemma split_lines_one t : ~ In LF t -> split_lines t = [t].
Proof.
  induction t as [|c r IH]; [reflexivity|]. intros H. cbn [split_lines].
  destruct (N.eqb_spec c LF) as [->|_]; [exfalso; apply H; left; reflexivity|].
  rewrite IH; [reflexivity|]. intros Hin. apply H. right. exact Hin.
Qed.

Lemma remove_tags_body t :
  ~ In LT t -> remove_tags_from false (t ++ lit "</p>") = t.
Proof.
  induction t as [|c r IH]; [intros _; reflexivity|]. intros H.
  cbn [app remove_tags_from].
  destruct (N.eqb_spec c LT) as [->|_]; [exfalso; apply H; left; reflexivity|].
  cbn [andb]. rewrite IH; [reflexivity|]. intros Hin. apply H. right. exact Hin.
Qed.

Lemma remove_tags_paragraph t :
  ~ In LT t -> remove_tags (lit "<p>" ++ t ++ lit "</p>") = t.
Proof.
  intros H. unfold remove_tags.
  change (lit "<p>" ++ t ++ lit "</p>") with (LT :: 112 :: GT :: (t ++ lit "</p>")).
  cbn [remove_tags_from]. rewrite N.eqb_refl. cbn [andb existsb].
  assert (E : (GT =? 112) || ((GT =? GT) || existsb (N.eqb GT) (t ++ lit "</p>")) = true)
    by (rewrite N.eqb_refl; apply orb_true_r).
  rewrite E. change (112 =? GT) with false. cbn [negb]. rewrite N.eqb_refl. cbn [negb].
  apply remove_tags_body, H.
Qed.

(** X21.  Stored text survives the editor.  For a text [t] as the sanitizer
    stores it (trimmed, white space collapsed) that holds no ['<'] and no
    ampersand, [restoreBasicHtmlFormatting(t)] is the one paragraph
    [<p>t</p>], and stripping that again without a DOM gives [t] back. *)
Theorem stripHtmlTags_restoreBasicHtmlFormatting (t : jsstring) :
  trim t = t -> collapse_spaces t = t ->
  existsb (N.eqb LT) t = false -> existsb (N.eqb AMP) t = false ->
  restoreBasicHtmlFormatting t
  = match t with [] => [] | _ => lit "<p>" ++ t ++ lit "</p>" end
  /\ stripHtmlTags None (restoreBasicHtmlFormatting t) = t.
Proof.
  intros Htrim Hcol Hlt Hamp.
  assert (Hss : single_spaced t = true)
    by (rewrite <- Hcol; apply single_spaced_collapse_spaces).
  assert (Hlf : ~ In LF t).
  { intros Hin. pose proof (single_spaced_space t LF Hss Hin LF_is_space) as E.
    discriminate E. }
  assert (Hnlt : ~ In LT t).
  { intros Hin. assert (E : existsb (N.eqb LT) t = true).
    { apply existsb_exists. exists LT. split; [exact Hin|apply N.eqb_refl]. }
    congruence. }
  destruct t as [|c r]; [split; reflexivity|].
  assert (Hrestore : restoreBasicHtmlFormatting (c :: r) = lit "<p>" ++ (c :: r) ++ lit "</p>").
  { unfold restoreBasicHtmlFormatting. rewrite (split_lines_one _ Hlf).
    cbn [List.filter]. unfold not_blank. rewrite Htrim. cbn [map concat].
    rewrite Htrim, app_nil_r. reflexivity. }
  split; [exact Hrestore|]. rewrite Hrestore.
  change (stripHtmlTags None (lit "<p>" ++ (c :: r) ++ lit "</p>"))
    with (stripHtmlTags_fallback (lit "<p>" ++ (c :: r) ++ lit "</p>")).
  rewrite fallback_no_amp.
  - rewrite (remove_tags_paragraph _ Hnlt), Hcol, Htrim. reflexivity.
  - intros Hin. apply in_app_or in Hin as [Hin|Hin].
    + cbn in Hin. repeat destruct Hin as [Hin|Hin]; try discriminate Hin; exact Hin.
    + apply in_app_or in Hin as [Hin|Hin].
      * exact (no_amp_In _ Hamp Hin).
      * cbn in Hin. repeat destruct Hin as [Hin|Hin]; try discriminate Hin; exact Hin.
Qed.

Lemma stripHtmlTags_restoreBasicHtmlFormatting_witness :
  trim (lit "Learn Rocq > fast") = lit "Learn Rocq > fast"
  /\ collapse_spaces (lit "Learn Rocq > fast") = lit "Learn Rocq > fast"
  /\ restoreBasicHtmlFormatting (lit "Learn Rocq > fast") = lit "<p>Learn Rocq > fast</p>"
  /\ stripHtmlTags None (restoreBasicHtmlFormatting (lit "Learn Rocq > fast"))
     = lit "Learn Rocq > fast".
Proof.
  assert (H1 : trim (lit "Learn Rocq > fast") = lit "Learn Rocq > fast") by reflexivity.
  assert (H2 : collapse_spaces (lit "Learn Rocq > fast") = lit "Learn Rocq > fast")
    by reflexivity.
  split; [exact H1|]. split; [exact H2|].
  exact (stripHtmlTags_restoreBasicHtmlFormatting (lit "Learn Rocq > fast")
           H1 H2 eq_refl eq_refl).
Defined.

(** Two lines do not survive: the paragraphs are joined without a
    separator. *)
Example restoreBasicHtmlFormatting_two_lines :
  restoreBasicHtmlFormatting (lit "one" ++ [LF] ++ lit "two") = lit "<p>one</p><p>two</p>"
  /\ stripHtmlTags None (lit "<p>one</p><p>two</p>") = lit "onetwo".
Proof. split; vm_compute; reflexivity. Qed.

End plain_text.

(** ** Analytics: counts, and agreement with the per-course statistics *)

Section analytics_counts.
Import JsString Json Model Storage Number ProgressTracking Analytics.

Lemma fold_left_add {A : Type} (f : A -> nat) (l : list A) (n : nat) :
  fold_left (fun sum x => sum + f x) l n = n + sum_list_with f l.
Proof.
  revert n. induction l as [|x l IH]; intros n; cbn [fold_left sum_list_with]; [lia|].
  rewrite IH. lia.
Qed.

Lemma length_lessons_of (secs : list Section) :
  length (lessons_of secs) = sum_list_with lessons_length secs.
Proof.
  unfold lessons_of. induction secs as [|s secs IH]; [reflexivity|].
  cbn [flat_map sum_list_with]. rewrite length_app, IH. unfold lessons_length.
  destruct (lessons s); reflexivity.
Qed.

Lemma course_lessons_eq (c : Course) :
  course_lessons c = length (lessons_of (sections_of (Some c))).
Proof.
  unfold course_lessons, sections_of. destruct (sections c) as [secs|]; [|reflexivity].
  cbn [default from_option id]. rewrite fold_left_add, length_lessons_of. reflexivity.
Qed.

(** The statistics [calculateCourseProgress] gives for a course. *)
Definition statistics (st : localStorage) (c : Course) : CourseProgress :=
  match fst (calculateCourseProgress (Some c) st) with
  | Return p => p
  | Throw _ =>
    {| ProgressTracking.totalLessons := O; completedLessons := O;
       completionPercentage := 0%float; completedSections := O;
       ProgressTracking.totalSections := O |}
  end.

Lemma statistics_totals st c :
  ProgressTracking.totalLessons (statistics st c) = length (lessons_of (sections_of (Some c)))
  /\ ProgressTracking.totalSections (statistics st c) = length (sections_of (Some c)).
Proof.
  unfold statistics, sections_of. destruct (sections c) as [secs|] eqn:Hs.
  - rewrite (calculateCourseProgress_run c secs st Hs). split; reflexivity.
  - rewrite (calculateCourseProgress_no_sections c st Hs). split; reflexivity.
Qed.

Lemma sum_list_with_same {A : Type} (f g : A -> nat) (l : list A) :
  (forall x, f x = g x) -> sum_list_with f l = sum_list_with g l.
Proof.
  intros H. induction l as [|x l IH]; [reflexivity|]. cbn [sum_list_with].
  rewrite H, IH. reflexivity.
Qed.

Lemma filter_exclusive3 {A : Type} (f g h : A -> bool) (l : list A) :
  (forall x, f x && g x = false) -> (forall x, f x && h x = false) ->
  (forall x, g x && h x = false) ->
  length (List.filter f l) + length (List.filter g l) + length (List.filter h l) <= length l.
Proof.
  intros Hfg Hfh Hgh. induction l as [|x l IH]; [reflexivity|]. cbn [List.filter length].
  specialize (Hfg x). specialize (Hfh x). specialize (Hgh x).
  destruct (f x), (g x), (h x); cbn [length] in *; try discriminate; lia.
Qed.

Lemma completion_fold_counts progressData cs t a b :
  let '(t', a', b') := fold_left (completion_step progressData) cs (t, a, b) in
  a' + b' <= a + b + length cs.
Proof.
  revert t a b. induction cs as [|c cs IH]; intros t a b; cbn [fold_left length]; [lia|].
  unfold completion_step at 2.
  destruct (course_lessons c =? 0)%nat.
  - specialize (IH t a b). destruct (fold_left _ cs (t, a, b)) as [[t' a'] b']. lia.
  - cbv zeta. destruct (_ =? 100)%float.
    + match goal with |- context [fold_left _ cs (?t1, S a, b)] => specialize (IH t1 (S a) b) end.
      destruct (fold_left _ cs _) as [[t' a'] b']. lia.
    + destruct (0 <? _)%float.
      * match goal with |- context [fold_left _ cs (?t1, a, S b)] => specialize (IH t1 a (S b)) end.
        destruct (fold_left _ cs _) as [[t' a'] b']. lia.
      * match goal with |- context [fold_left _ cs (?t1, a, b)] => specialize (IH t1 a b) end.
        destruct (fold_left _ cs _) as [[t' a'] b']. lia.
Qed.

(** X22.  [calculateCourseAnalytics] writes nothing and cannot fail.
    [totalCourses] is the number of courses; the published, draft and
    archived courses together are at most that many (a course with another
    status, or none, is in none of the three counts), and so are the
    completed and in-progress courses together.  [totalSections] and
    [totalLessons] are the sums of what [calculateCourseProgress] reports
    for each course. *)
Theorem calculateCourseAnalytics_counts (courses : option (list Course))
    (st : localStorage) :
  let cs := default [] courses in
  exists a,
    calculateCourseAnalytics courses st = (Return a, st)
    /\ totalCourses a = length cs
    /\ publishedCourses a + draftCourses a + archivedCourses a <= totalCourses a
    /\ completedCourses (completionStats a) + inProgressCourses (completionStats a)
       <= totalCourses a
    /\ Analytics.totalLessons a
       = sum_list_with (fun c => ProgressTracking.totalLessons (statistics st c)) cs
    /\ Analytics.totalSections a
       = sum_list_with (fun c => ProgressTracking.totalSections (statistics st c)) cs.
Proof.
  cbv zeta. unfold calculateCourseAnalytics.
  destruct (default [] courses) as [|c cs] eqn:E.
  - eexists. split; [reflexivity|]. cbn. repeat split; lia.
  - unfold bind. rewrite CourseSlice_loadProgressFromStorage_run.
    eexists. split; [reflexivity|].
    cbn [totalCourses publishedCourses draftCourses archivedCourses completionStats
         Analytics.totalLessons Analytics.totalSections].
    split; [reflexivity|]. split; [|split; [|split]].
    + apply filter_exclusive3; intros x; unfold has_status;
        destruct (status x) as [v|]; try reflexivity;
        match goal with
        | |- eqb v ?a && eqb v ?b = false =>
          destruct (eqb v a) eqn:Ea; [|reflexivity];
          apply eqb_eq in Ea; subst v; reflexivity
        end.
    + unfold calculateCompletionStats.
      pose proof (completion_fold_counts (ledger st) (c :: cs) 0%float 0 0) as H.
      destruct (fold_left _ (c :: cs) _) as [[t a'] b'].
      cbn [completedCourses inProgressCourses]. lia.
    + rewrite fold_left_add. cbn [Nat.add]. apply sum_list_with_same.
      intros x. rewrite course_lessons_eq. symmetry. apply statistics_totals.
    + rewrite fold_left_add. cbn [Nat.add]. apply sum_list_with_same.
      intros x. rewrite (proj2 (statistics_totals st x)). unfold sections_of.
      destruct (sections x); reflexivity.
Qed.

End analytics_counts.

Section analytics_completion.
Import JsString Json Model Storage Number ProgressTracking Analytics.

Lemma count_done_fold (progress : Progress) (ls : list Lesson) (n : nat) :
  fold_left (fun n l => if is_completed (progress !! lesson_id l) then S n else n) ls n
  = n + length (List.filter (lesson_done progress) ls).
Proof.
  revert n. induction ls as [|l ls IH]; intros n; cbn [fold_left List.filter length]; [lia|].
  rewrite IH. unfold lesson_done at 2. destruct (is_completed _); cbn [length]; lia.
Qed.

Lemma count_done_sections (progress : Progress) (secs : list Section) (n : nat) :
  fold_left
    (fun n s =>
       match lessons s with
       | Some ls =>
         fold_left (fun n l => if is_completed (progress !! lesson_id l) then S n else n) ls n
       | None => n
       end) secs n
  = n + length (List.filter (lesson_done progress) (lessons_of secs)).
Proof.
  revert n. unfold lessons_of.
  induction secs as [|s secs IH]; intros n; cbn [fold_left flat_map List.filter length]; [lia|].
  rewrite IH. destruct (lessons s) as [ls|]; cbn [default from_option id app].
  - rewrite count_done_fold, List.filter_app, length_app. lia.
  - reflexivity.
Qed.

(** The percentage [calculateCourseProgress] reports for a course. *)
Definition reported (st : localStorage) (c : Course) : float :=
  completionPercentage (statistics st c).

(** One step of the loop of [calculateCompletionStats] adds the reported
    percentage of the course, or skips a course without lessons, whose
    reported percentage is [0]. *)
Lemma completion_step_reported st c t a b :
  let p := reported st c in
  completion_step (ledger st) (t, a, b) c
  = if (course_lessons c =? 0)%nat then (t, a, b)
    else if (p =? 100)%float then ((t + p)%float, S a, b)
    else if (0 <? p)%float then ((t + p)%float, a, S b)
    else ((t + p)%float, a, b).
Proof.
  cbv zeta. unfold completion_step. destruct (Nat.eqb_spec (course_lessons c) 0) as [E|Hne];
    [reflexivity|].
  assert (Hp : reported st c
               = percentage
                   match sections c with
                   | Some secs =>
                     fold_left
                       (fun n s =>
                          match lessons s with
                          | Some ls =>
                            fold_left
                              (fun n l => if is_completed (ledger st !! lesson_id l)
                                          then S n else n) ls n
                          | None => n
                          end) secs 0
                   | None => 0
                   end (course_lessons c)).
  { unfold reported, statistics. rewrite course_lessons_eq in *. unfold sections_of in *.
    destruct (sections c) as [secs|] eqn:Hs; cbn [default from_option id] in *.
    - rewrite (calculateCourseProgress_run c secs st Hs). cbn [fst completionPercentage].
      rewrite count_done_sections. cbn [Nat.add].
      destruct (Nat.ltb_spec 0 (length (lessons_of secs))); [reflexivity|lia].
    - cbn in Hne. congruence. }
  rewrite <- Hp. reflexivity.
Qed.

Lemma reported_no_lessons st c : course_lessons c = 0 -> reported st c = 0%float.
Proof.
  intros E. unfold reported, statistics. rewrite course_lessons_eq in E.
  unfold sections_of in E. destruct (sections c) as [secs|] eqn:Hs;
    cbn [default from_option id] in E.
  - rewrite (calculateCourseProgress_run c secs st Hs). cbn [fst completionPercentage].
    rewrite E. reflexivity.
  - rewrite (calculateCourseProgress_no_sections c st Hs). reflexivity.
Qed.

Definition is_complete (st : localStorage) (c : Course) : bool :=
  (reported st c =? 100)%float.

Definition is_in_progress (st : localStorage) (c : Course) : bool :=
  negb (reported st c =? 100)%float && (0 <? reported st c)%float.

Lemma completion_fold_reported st cs t a b :
  let '(t', a', b') := fold_left (completion_step (ledger st)) cs (t, a, b) in
  a' = a + length (List.filter (is_complete st) cs)
  /\ b' = b + length (List.filter (is_in_progress st) cs).
Proof.
  revert t a b. induction cs as [|c cs IH]; intros t a b; cbn [fold_left List.filter length];
    [split; lia|].
  rewrite completion_step_reported. cbv zeta.
  assert (Hc : is_complete st c = (reported st c =? 100)%float) by reflexivity.
  assert (Hi : is_in_progress st c
               = negb (reported st c =? 100)%float && (0 <? reported st c)%float)
    by reflexivity.
  rewrite Hc, Hi. clear Hc Hi.
  destruct (Nat.eqb_spec (course_lessons c) 0) as [E|Hne].
  - rewrite (reported_no_lessons st c E).
    change (0 =? 100)%float with false. change (0 <? 0)%float with false. cbn [negb andb].
    apply IH.
  - destruct (reported st c =? 100)%float; cbn [negb andb].
    + specialize (IH (t + reported st c)%float (S a) b).
      destruct (fold_left _ cs _) as [[t' a'] b']. cbn [length]. destruct IH; split; lia.
    + destruct (0 <? reported st c)%float.
      * specialize (IH (t + reported st c)%float a (S b)).
        destruct (fold_left _ cs _) as [[t' a'] b']. cbn [length]. destruct IH; split; lia.
      * apply IH.
Qed.

(** X23.  The completion block of the dashboard agrees with the course
    pages: [completedCourses] is the number of courses for which
    [calculateCourseProgress] reports [100] percent, and [inProgressCourses]
    the number for which it reports more than [0] and not [100].  A course
    without lessons is in neither count. *)
Theorem calculateCourseAnalytics_completion (courses : option (list Course))
    (st : localStorage) :
  let cs := default [] courses in
  exists a,
    calculateCourseAnalytics courses st = (Return a, st)
    /\ completedCourses (completionStats a) = length (List.filter (is_complete st) cs)
    /\ inProgressCourses (completionStats a) = length (List.filter (is_in_progress st) cs).
Proof.
  cbv zeta. unfold calculateCourseAnalytics.
  destruct (default [] courses) as [|c cs] eqn:E.
  - eexists. split; [reflexivity|]. split; reflexivity.
  - unfold bind. rewrite CourseSlice_loadProgressFromStorage_run.
    eexists. split; [reflexivity|]. cbn [completionStats]. unfold calculateCompletionStats.
    pose proof (completion_fold_reported st (c :: cs) 0%float 0 0) as H.
    destruct (fold_left _ (c :: cs) _) as [[t a'] b'].
    cbn [completedCourses inProgressCourses]. destruct H as [Ha Hb]. split; [exact Ha|exact Hb].
Qed.

End analytics_completion.

(** ** The course store: saving and loading *)

Section course_store.
Import JsString Json Model Storage DataMigration CourseSlice CourseStore.






End course_store.

Section first_load.
Import JsString Json Model Storage DataMigration CourseSlice CourseStore.




End first_load.

(** ** The analysis after a migration *)

Section analysis_facts.
Import JsString Json Model Storage HtmlSanitizer DataMigration DataAnalysis.
Variable document : Document.















End analysis_facts.

Section analysis_after_migration.
Import JsString Json Model Storage HtmlSanitizer DataMigration DataAnalysis.



(** Before the migration the same store is reported with HTML. *)
Example analyzeExistingData_before_migration :
  exists t s p, fst (analyzeExistingData None stored_two_courses) = Return (Analysed 2 t s p)
                /\ (0 < coursesWithHtml t + sectionsWithHtml t + lessonsWithHtml t)%nat.
Proof. eexists _, _, _. split; [vm_compute; reflexivity|]. cbn. lia. Qed.

(** A tag written with entities is what the fallback path decodes: after
    the migration the analysis finds it. *)
Definition encoded_course : list json :=
  [JObject [(lit "id", JString (lit "c1"));
            (lit "description", JString (lit "&lt;b&gt;bold&lt;/b&gt;"))]].

Example analyzeExistingData_decoded_tag :
  exists t s p,
    fst (analyzeExistingData None
           (snd (migrateExistingData None 0 false
                   (set_courses (Some (Doc (JArray encoded_course))) empty_storage))))
    = Return (Analysed 1 t s p)
    /\ coursesWithHtml t = 1.
Proof. eexists _, _, _. split; [vm_compute; reflexivity|]. reflexivity. Qed.

End analysis_after_migration.

(** ** Toggling a lesson: the status returned *)

Section toggle_status.
Import JsString Json Model Storage ProgressTracking.
Variable host : Host.





(** The status returned and the status stored can differ. *)
Example toggleLessonCompletion_status_differs :
  let data : ProgressRecord := {[ lit "completed" := JBool false ]} in
  let run := toggleLessonCompletion test_host 0 (lit "L1") data empty_storage in
  fst run = Return true
  /\ is_completed (ledger (snd run) !! lit "L1") = false.
Proof. split; vm_compute; reflexivity. Qed.

End toggle_status.

(** ** Resetting the progress *)

Section reset_facts.
Import JsString Json Model Storage ProgressTracking ProgressData Number.



End reset_facts.

(** ** Sums of percentages are exact *)

Section exact_sums.
Import Number.
Local Open Scope Z_scope.

Lemma shr_1_even m :
  0 <= m ->
  shr_1 {| shr_m := 2 * m; shr_r := false; shr_s := false |}
  = {| shr_m := m; shr_r := false; shr_s := false |}.
Proof. intros Hm. destruct m as [|p|p]; [reflexivity|reflexivity|lia]. Qed.

(** Shifting out [k] zero bits loses nothing. *)
Lemma iter_shr_1_exact k m :
  0 <= m ->
  SpecFloat.iter_pos shr_1 k {| shr_m := m * 2 ^ Z.pos k; shr_r := false; shr_s := false |}
  = {| shr_m := m; shr_r := false; shr_s := false |}.
Proof.
  revert m. induction k as [k IH|k IH|]; intros m Hm; cbn [SpecFloat.iter_pos].
  - assert (Hk : 0 < 2 ^ Z.pos k) by (apply pow2_pos; lia).
    assert (E : m * 2 ^ Z.pos k~1 = 2 * (m * 2 ^ Z.pos k * 2 ^ Z.pos k)).
    { replace (Z.pos k~1) with (1 + Z.pos k + Z.pos k) by lia.
      rewrite !Z.pow_add_r by lia. change (2 ^ 1) with 2. ring. }
    rewrite E, shr_1_even by nia. rewrite IH by nia. apply IH, Hm.
  - assert (Hk : 0 < 2 ^ Z.pos k) by (apply pow2_pos; lia).
    assert (E : m * 2 ^ Z.pos k~0 = m * 2 ^ Z.pos k * 2 ^ Z.pos k).
    { replace (Z.pos k~0) with (Z.pos k + Z.pos k) by lia.
      rewrite !Z.pow_add_r by lia. ring. }
    rewrite E, IH by nia. apply IH, Hm.
  - change (2 ^ 1) with 2. rewrite Z.mul_comm. apply shr_1_even, Hm.
Qed.

Lemma digits2_pos_mul_pow2 M p k :
  0 <= k -> Z.pos M = Z.pos p * 2 ^ k ->
  Z.pos (digits2_pos M) = Z.pos (digits2_pos p) + k.
Proof.
  intros Hk HM. destruct k as [|k|k]; [| |lia].
  - rewrite Z.pow_0_r, Z.mul_1_r in HM. injection HM as ->. lia.
  - rewrite <- Pos_iter_xO in HM. injection HM as ->. apply digits2_pos_iter_xO.
Qed.

(** A mantissa of 53 bits followed by [k] zero bits rounds to itself. *)
Lemma binary_round_aux_shifted s m e k :
  Z.pos (digits2_pos m) = 53 -> -1074 <= e <= emax - prec -> 0 <= k ->
  binary_round_aux prec emax s (Z.pos m * 2 ^ k) (e - k) loc_Exact = S754_finite s m e.
Proof.
  intros Hd He Hk. destruct k as [|k|k]; [| |lia].
  - rewrite Z.pow_0_r, Z.mul_1_r, Z.sub_0_r. apply binary_round_aux_exact.
    + rewrite Hd. unfold fexp, SpecFloat.emin, prec, emax in *. lia.
    + lia.
  - assert (HM : exists M, Z.pos M = Z.pos m * 2 ^ Z.pos k).
    { exists (Pos.iter xO m k). apply Pos_iter_xO. }
    destruct HM as [M HM]. rewrite <- HM.
    pose proof (digits2_pos_mul_pow2 M m (Z.pos k) ltac:(lia) HM) as HdM.
    assert (Hs : shr_fexp prec emax (Z.pos M) (e - Z.pos k) loc_Exact
                 = ({| shr_m := Z.pos m; shr_r := false; shr_s := false |}, e)).
    { unfold shr_fexp, shr. cbn [Zdigits2 shr_record_of_loc]. rewrite HdM, Hd.
      replace (fexp prec emax (53 + Z.pos k + (e - Z.pos k)) - (e - Z.pos k)) with (Z.pos k)
        by (unfold fexp, SpecFloat.emin, prec, emax in *; lia).
      rewrite HM, iter_shr_1_exact by lia. f_equal. lia. }
    assert (Hs2 : shr_fexp prec emax (Z.pos m) e loc_Exact
                  = ({| shr_m := Z.pos m; shr_r := false; shr_s := false |}, e)).
    { unfold shr_fexp, shr. cbn [Zdigits2 shr_record_of_loc]. rewrite Hd.
      replace (fexp prec emax (53 + e) - e) with 0
        by (unfold fexp, SpecFloat.emin, prec, emax in *; lia).
      reflexivity. }
    unfold binary_round_aux. rewrite Hs. cbn [shr_m loc_of_shr_record round_nearest_even].
    rewrite Hs2. cbn [shr_m]. destruct (Z.leb_spec e (emax - prec)); [reflexivity|lia].
Qed.

(** Rounding [n * 2^E] written with a mantissa [M = n * 2^(-E)], for a
    whole number [n] below [2^53]: the double of [n]. *)
Lemma binary_round_integer M E n :
  0 < n < 2 ^ 53 -> -52 <= E <= 0 -> Z.pos M = n * 2 ^ (- E) ->
  exists m e,
    binary_round prec emax false M E = S754_finite false m e
    /\ -52 <= e <= 0
    /\ Z.pos m = n * 2 ^ (- e)
    /\ Z.pos (digits2_pos m) = 53.
Proof.
  intros [Hpos Hlt] HE HM. destruct n as [|p|p]; [lia| |lia].
  pose proof (digits2_pos_bounds p) as [Hlo Hhi].
  assert (Hd : 1 <= Z.pos (digits2_pos p) <= 53).
  { split; [lia|]. assert (H : 2 ^ (Z.pos (digits2_pos p) - 1) < 2 ^ 53) by lia.
    apply Z.pow_lt_mono_r_iff in H; lia. }
  pose proof (digits2_pos_mul_pow2 M p (- E) ltac:(lia) HM) as HdM.
  set (e := Z.pos (digits2_pos p) - 53).
  assert (Hf : fexp prec emax (Z.pos (digits2_pos M) + E) = e)
    by (subst e; unfold fexp, SpecFloat.emin, prec, emax; lia).
  assert (Hm : exists m, Z.pos m = Z.pos p * 2 ^ (- e)).
  { destruct (- e) as [|k|k] eqn:Ek; [exists p; lia| |lia].
    exists (Pos.iter xO p k). apply Pos_iter_xO. }
  destruct Hm as [m Hm].
  pose proof (digits2_pos_mul_pow2 m p (- e) ltac:(lia) Hm) as Hdm.
  exists m, e. split; [|split; [lia|split; [exact Hm|lia]]].
  unfold binary_round. rewrite Hf. unfold shl_align.
  destruct (e - E) as [|k|k] eqn:Ek.
  - assert (e = E) by lia. subst E. assert (M = m) by lia. subst M.
    pose proof (binary_round_aux_shifted false m e 0) as H.
    rewrite Z.pow_0_r, Z.mul_1_r, Z.sub_0_r in H. apply H; unfold prec, emax; lia.
  - pose proof (binary_round_aux_shifted false m e (Z.pos k)) as H.
    replace (e - Z.pos k) with E in H by lia.
    replace (Z.pos m * 2 ^ Z.pos k) with (Z.pos M) in H.
    + apply H; unfold prec, emax; lia.
    + rewrite HM, Hm, <- Z.mul_assoc, <- Z.pow_add_r by lia. f_equal. f_equal. lia.
  - assert (Hi : Pos.iter xO M k = m).
    { apply Pos2Z.inj. rewrite Pos_iter_xO, HM, Hm, <- Z.mul_assoc, <- Z.pow_add_r by lia.
      f_equal. f_equal. lia. }
    rewrite Hi.
    pose proof (binary_round_aux_shifted false m e 0) as H.
    rewrite Z.pow_0_r, Z.mul_1_r, Z.sub_0_r in H. apply H; unfold prec, emax; lia.
Qed.

(** A whole number has one normal form. *)
Lemma canonical_unique n m e m' e' :
  0 < n -> e <= 0 -> e' <= 0 ->
  Z.pos m = n * 2 ^ (- e) -> Z.pos (digits2_pos m) = 53 ->
  Z.pos m' = n * 2 ^ (- e') -> Z.pos (digits2_pos m') = 53 ->
  m = m' /\ e = e'.
Proof.
  intros Hn He He' Hm Hd Hm' Hd'.
  pose proof (digits2_pos_bounds m) as Hb. rewrite Hd in Hb.
  pose proof (digits2_pos_bounds m') as Hb'. rewrite Hd' in Hb'.
  change (2 ^ (53 - 1)) with 4503599627370496 in *.
  change (2 ^ 53) with 9007199254740992 in *.
  assert (Hlt : forall a b x y, a < b -> b <= 0 ->
            x = n * 2 ^ (- a) -> y = n * 2 ^ (- b) ->
            4503599627370496 <= y -> x < 9007199254740992 -> False).
  { intros a b x y Hab Hb0 Hx Hy Hy1 Hx1.
    assert (E : 2 ^ (- a) = 2 ^ (- b) * 2 ^ (b - a))
      by (rewrite <- Z.pow_add_r by lia; f_equal; lia).
    assert (2 <= 2 ^ (b - a)).
    { change 2 with (2 ^ 1) at 1. apply Z.pow_le_mono_r; lia. }
    assert (0 < 2 ^ (- b)) by (apply pow2_pos; lia).
    rewrite E in Hx. nia. }
  assert (Hee : e = e').
  { destruct (Z.lt_trichotomy e e') as [H|[H|H]]; [exfalso|exact H|exfalso].
    - exact (Hlt e e' _ _ H He' Hm Hm' (proj1 Hb') (proj2 Hb)).
    - exact (Hlt e' e _ _ H He Hm' Hm (proj1 Hb) (proj2 Hb')). }
  subst e'. split; [|reflexivity]. apply Pos2Z.inj. lia.
Qed.

Lemma of_Z_exact n :
  0 < n < 2 ^ 53 ->
  exists m e,
    Prim2SF (of_Z n) = S754_finite false m e
    /\ -52 <= e <= 0
    /\ Z.pos m = n * 2 ^ (- e)
    /\ Z.pos (digits2_pos m) = 53.
Proof.
  intros Hn. destruct (of_nat_exact (Z.to_nat n)) as (m & e & H); [lia|].
  unfold of_nat in H. rewrite Z2Nat.id in H by lia. exists m, e. exact H.
Qed.

Lemma shl_align_value m e ez :
  ez <= e -> Z.pos (fst (shl_align m e ez)) = Z.pos m * 2 ^ (e - ez).
Proof.
  intros H. unfold shl_align. destruct (ez - e) as [|k|k] eqn:Ek; cbn [fst]; [|lia|].
  - replace (e - ez) with 0 by lia. rewrite Z.pow_0_r. lia.
  - rewrite Pos_iter_xO. f_equal. f_equal. lia.
Qed.

(** The sum of two whole numbers is exact as long as it stays below
    [2^53]. *)
Lemma add_exact a b :
  0 <= a -> 0 <= b -> a + b < 2 ^ 53 -> (of_Z a + of_Z b)%float = of_Z (a + b).
Proof.
  intros Ha Hb Hlt. apply Prim2SF_inj. rewrite add_spec.
  assert (H0 : Prim2SF (of_Z 0) = S754_zero false) by reflexivity.
  destruct (Z.eq_dec a 0) as [->|Ha0]; [|destruct (Z.eq_dec b 0) as [->|Hb0]].
  - rewrite H0, Z.add_0_l. destruct (Z.eq_dec b 0) as [->|Hb0]; [reflexivity|].
    destruct (of_Z_exact b) as (m & e & Hx & _); [lia|]. rewrite Hx. reflexivity.
  - rewrite H0, Z.add_0_r.
    destruct (of_Z_exact a) as (m & e & Hx & _); [lia|]. rewrite Hx. reflexivity.
  - destruct (of_Z_exact a) as (ma & ea & Hxa & Hea & Hma & Hda); [lia|].
    destruct (of_Z_exact b) as (mb & eb & Hxb & Heb & Hmb & Hdb); [lia|].
    destruct (of_Z_exact (a + b)) as (ms & es & Hxs & Hes & Hms & Hds); [lia|].
    rewrite Hxa, Hxb, Hxs. unfold SF64add, SFadd. cbv zeta. cbn [cond_Zopp].
    fold (Z.min ea eb). set (ez := Z.min ea eb).
    pose proof (shl_align_value ma ea ez ltac:(lia)) as HA.
    pose proof (shl_align_value mb eb ez ltac:(lia)) as HB.
    set (A := fst (shl_align ma ea ez)) in *. set (B := fst (shl_align mb eb ez)) in *.
    change (Z.pos A + Z.pos B) with (Z.pos (A + B)). cbn [binary_normalize].
    assert (Hsum : Z.pos (A + B) = (a + b) * 2 ^ (- ez)).
    { rewrite Pos2Z.inj_add, HA, HB, Hma, Hmb, <- !Z.mul_assoc, <- !Z.pow_add_r by lia.
      replace (- ea + (ea - ez)) with (- ez) by lia.
      replace (- eb + (eb - ez)) with (- ez) by lia. ring. }
    destruct (binary_round_integer (A + B) ez (a + b)) as (m & e & Hr & He & Hm & Hd);
      [lia|lia|exact Hsum|].
    rewrite Hr. destruct (canonical_unique (a + b) m e ms es) as [-> ->];
      try assumption; try lia. reflexivity.
Qed.

End exact_sums.

(** ** The average completion *)

Section average_bounds.
Import Number.
Local Open Scope Z_scope.

(** A sum of at most [100] per course, divided by the number of courses,
    is at most [100]. *)
Lemma div_below_hundred S n :
  0 < S <= 100 * n -> n < 2 ^ 46 ->
  below 7054466603810816 (-46) (Prim2SF (of_Z S / of_Z n)).
Proof.
  intros HS Hn. change (2 ^ 46) with 70368744177664 in Hn.
  destruct (of_Z_exact S) as (ms & es & Hxs & Hes & Hms & Hds);
    [change (2 ^ 53) with 9007199254740992; lia|].
  destruct (of_Z_exact n) as (mn & en & Hxn & Hen & Hmn & Hdn);
    [change (2 ^ 53) with 9007199254740992; lia|].
  rewrite div_spec, Hxs, Hxn. unfold SF64div, SFdiv.
  rewrite (SFdiv_core_binary_53 ms es mn en Hds Hdn). cbv zeta.
  pose proof (digits2_pos_bounds ms) as [Hms52 _]. rewrite Hds in Hms52.
  pose proof (digits2_pos_bounds mn) as [_ Hmn53]. rewrite Hdn in Hmn53.
  change (2 ^ (53 - 1)) with 4503599627370496 in Hms52.
  change (2 ^ 53) with 9007199254740992 in Hmn53.
  assert (HA : 0 < 2 ^ (- es)) by (apply pow2_pos; lia).
  assert (HB : 0 < 2 ^ (- en)) by (apply pow2_pos; lia).
  assert (Hee : es - en <= 7).
  { destruct (Z.le_gt_cases (es - en) 7) as [H|H]; [exact H|exfalso].
    assert (E : 2 ^ (- en) = 2 ^ (- es) * 2 ^ (es - en))
      by (rewrite <- pow2_split by lia; f_equal; lia).
    assert (256 <= 2 ^ (es - en)).
    { change 256 with (2 ^ 8). apply Z.pow_le_mono_r; lia. }
    rewrite E in Hmn. nia. }
  set (e' := Z.min (fexp prec emax (es - en)) (es - en)).
  assert (He' : e' <= -46) by (subst e'; unfold fexp, SpecFloat.emin, prec, emax; lia).
  assert (Hs : 0 <= es - en - e') by (subst e'; lia).
  assert (HF : 0 < 2 ^ (-46 - e')) by (apply pow2_pos; lia).
  apply binary_round_aux_below.
  - apply Z.div_pos; [|lia]. pose proof (pow2_pos _ Hs). lia.
  - lia.
  - exact He'.
  - apply Z.leb_le. vm_compute. reflexivity.
  - apply Z.leb_le. vm_compute. reflexivity.
  - apply Z.div_lt_upper_bound; [lia|].
    assert (E : 2 ^ (- es) * 2 ^ (es - en - e')
                = 2 ^ (- en) * (70368744177664 * 2 ^ (-46 - e'))).
    { change 70368744177664 with (2 ^ 46). rewrite <- !pow2_split by lia. f_equal. lia. }
    rewrite Hms, Hmn, <- Z.mul_assoc, E.
    set (K := 2 ^ (- en) * 2 ^ (-46 - e')).
    assert (HK : 0 < K) by (subst K; lia).
    replace (S * (2 ^ (- en) * (70368744177664 * 2 ^ (-46 - e'))))
      with (S * 70368744177664 * K) by (subst K; ring).
    replace (n * 2 ^ (- en) * (7054466603810816 * 2 ^ (-46 - (e'))))
      with (n * 7054466603810816 * K) by (subst K; ring).
    apply Z.mul_lt_mono_pos_r; [exact HK|lia].
Qed.

(** [Math.round] of a double between [0] and [100.25]. *)
Lemma Math_round_below_quarter x :
  below 7054466603810816 (-46) (Prim2SF x) ->
  exists z, 0 <= z <= 100 /\ Math_round x = of_Z z.
Proof.
  intros Hx. unfold Math_round.
  destruct (Prim2SF x) as [s|s| |s m e] eqn:E; cbn [below] in Hx; try contradiction.
  - subst s. exists 0. split; [lia|].
    rewrite <- (SF2Prim_Prim2SF x), E. reflexivity.
  - destruct Hx as (-> & He & Hm). cbn [signed].
    destruct (Z.leb_spec 0 e) as [H|_]; [lia|].
    assert (HF : 0 < 2 ^ (-46 - e)) by (apply pow2_pos; lia).
    assert (HE : 2 ^ (- e) = 70368744177664 * 2 ^ (-46 - e)).
    { change 70368744177664 with (2 ^ 46). rewrite <- pow2_split by lia. f_equal. lia. }
    assert (HE1 : 2 ^ (1 - e) = 2 * 2 ^ (- e)).
    { replace (1 - e) with (Z.succ (- e)) by lia. apply Z.pow_succ_r. lia. }
    assert (Hz : 0 <= round_half_up (Z.pos m) e < 101).
    { unfold round_half_up. rewrite HE1. split.
      - apply Z.div_pos; lia.
      - apply Z.div_lt_upper_bound; [lia|]. rewrite HE. lia. }
    destruct (Z.eqb_spec (round_half_up (Z.pos m) e) 0) as [Hz0|_].
    + exists 0. split; [lia|reflexivity].
    + exists (round_half_up (Z.pos m) e). split; [lia|reflexivity].
Qed.

(** The mean of [n] whole percentages, rounded. *)
Lemma mean_range S n :
  0 <= S <= 100 * n -> 0 < n < 2 ^ 46 ->
  exists z, 0 <= z <= 100 /\ Math_round (of_Z S / of_Z n) = of_Z z.
Proof.
  intros HS Hn. apply Math_round_below_quarter.
  destruct (Z.eq_dec S 0) as [->|H0].
  - rewrite div_spec.
    destruct (of_Z_exact n) as (m & e & Hx & _);
      [change (2 ^ 46) with 70368744177664 in Hn;
       change (2 ^ 53) with 9007199254740992; lia|].
    rewrite Hx. reflexivity.
  - apply div_below_hundred; lia.
Qed.

End average_bounds.

Section average_completion.
Import JsString Json Model Storage Number ProgressTracking Analytics.

Lemma reported_range st c :
  (Z.of_nat (length (lessons_of (sections_of (Some c)))) < 2 ^ 53)%Z ->
  exists z, (0 <= z <= 100)%Z /\ reported st c = of_Z z.
Proof.
  unfold reported, statistics, sections_of. intros Hlt.
  destruct (sections c) as [secs|] eqn:Hs; cbn [default from_option id] in Hlt.
  - rewrite (calculateCourseProgress_run c secs st Hs). cbn [fst completionPercentage].
    destruct (Nat.ltb_spec 0 (length (lessons_of secs))) as [Hpos|_].
    + apply percentage_range; [apply filter_length_le|lia].
    + exists 0%Z. split; [lia|reflexivity].
  - rewrite (calculateCourseProgress_no_sections c st Hs).
    exists 0%Z. split; [lia|reflexivity].
Qed.

(** The running total of [calculateCompletionStats] is a whole number: it
    grows by at most [100] with every course. *)
Lemma completion_fold_total st cs T a b :
  Forall (fun c => (Z.of_nat (length (lessons_of (sections_of (Some c)))) < 2 ^ 53)%Z) cs ->
  (0 <= T)%Z -> (T + 100 * Z.of_nat (length cs) < 2 ^ 53)%Z ->
  exists T',
    (T <= T' <= T + 100 * Z.of_nat (length cs))%Z
    /\ fst (fst (fold_left (completion_step (ledger st)) cs (of_Z T, a, b))) = of_Z T'.
Proof.
  intros Hall. revert T a b.
  induction Hall as [|c cs Hc _ IH]; intros T a b HS Hlt; cbn [fold_left].
  - exists T. split; [cbn [length]; lia|reflexivity].
  - cbn [length] in Hlt. rewrite Nat2Z.inj_succ in Hlt.
    rewrite completion_step_reported. cbv zeta.
    destruct (reported_range st c Hc) as (z & Hz & ->).
    assert (Hsame : exists T1,
              (T <= T1 <= T + 100)%Z
              /\ exists a1 b1,
                   (if (course_lessons c =? 0)%nat then (of_Z T, a, b)
                    else if (of_Z z =? 100)%float then ((of_Z T + of_Z z)%float, S a, b)
                    else if (0 <? of_Z z)%float then ((of_Z T + of_Z z)%float, a, S b)
                    else ((of_Z T + of_Z z)%float, a, b))
                   = (of_Z T1, a1, b1)).
    { destruct (course_lessons c =? 0)%nat.
      - exists T. split; [lia|]. eexists _, _. reflexivity.
      - exists (T + z)%Z. split; [lia|]. rewrite add_exact by lia.
        destruct (of_Z z =? 100)%float; [eexists _, _; reflexivity|].
        destruct (0 <? of_Z z)%float; eexists _, _; reflexivity. }
    destruct Hsame as (T1 & HS1 & a1 & b1 & ->).
    destruct (IH T1 a1 b1) as (T' & HS' & Hfold); [lia|lia|].
    exists T'. split; [cbn [length]; lia|exact Hfold].
Qed.

(** X28.  For fewer than [2^46] courses of fewer than [2^53] lessons each,
    the completion block of [calculateCourseAnalytics] holds whole numbers:
    [totalProgress] is a whole number between [0] and [100] times the
    number of courses (no rounding error builds up in the running sum), and
    [averageCompletion] is a whole number between [0] and [100]. *)
Theorem calculateCourseAnalytics_averageCompletion (courses : option (list Course))
    (st : localStorage) :
  let cs := default [] courses in
  (Z.of_nat (length cs) < 2 ^ 46)%Z ->
  Forall (fun c => (Z.of_nat (length (lessons_of (sections_of (Some c)))) < 2 ^ 53)%Z) cs ->
  exists r,
    calculateCourseAnalytics courses st = (Return r, st)
    /\ (exists T, (0 <= T <= 100 * Z.of_nat (length cs))%Z
                  /\ totalProgress (completionStats r) = of_Z T)
    /\ (exists z, (0 <= z <= 100)%Z /\ averageCompletion (completionStats r) = of_Z z).
Proof.
  cbv zeta. unfold calculateCourseAnalytics. intros Hn Hall.
  destruct (default [] courses) as [|c cs] eqn:E.
  - eexists. split; [reflexivity|]. cbn [completionStats totalProgress averageCompletion].
    split; exists 0%Z; (split; [cbn [length]; lia|reflexivity]).
  - unfold bind. rewrite CourseSlice_loadProgressFromStorage_run.
    eexists. split; [reflexivity|]. cbn [completionStats]. unfold calculateCompletionStats.
    change (2 ^ 46)%Z with 70368744177664%Z in Hn.
    destruct (completion_fold_total st (c :: cs) 0 0 0 Hall) as (T & HS & Hfold);
      [lia|change (2 ^ 53)%Z with 9007199254740992%Z; lia|].
    change (of_Z 0) with 0%float in Hfold.
    destruct (fold_left _ (c :: cs) _) as [[t a'] b']. cbn [fst] in Hfold. subst t.
    cbn [totalProgress averageCompletion]. split.
    + exists T. split; [lia|reflexivity].
    + apply mean_range; [lia|].
      change (2 ^ 46)%Z with 70368744177664%Z. cbn [length] in *. lia.
Qed.

Lemma calculateCourseAnalytics_averageCompletion_witness :
  (Z.of_nat (length [forty_lessons; two_lessons]) < 2 ^ 46)%Z
  /\ exists r,
       calculateCourseAnalytics (Some [forty_lessons; two_lessons]) twenty_three_done
       = (Return r, twenty_three_done)
       /\ exists z, (0 <= z <= 100)%Z /\ averageCompletion (completionStats r) = of_Z z.
Proof.
  assert (Hn : (Z.of_nat (length [forty_lessons; two_lessons]) < 2 ^ 46)%Z)
    by (vm_compute; reflexivity).
  assert (Hall : Forall (fun c => (Z.of_nat (length (lessons_of (sections_of (Some c))))
                                   < 2 ^ 53)%Z) [forty_lessons; two_lessons])
    by (repeat constructor).
  split; [exact Hn|].
  destruct (calculateCourseAnalytics_averageCompletion (Some [forty_lessons; two_lessons])
              twenty_three_done Hn Hall) as (r & Hrun & _ & Hz).
  exists r. split; [exact Hrun|exact Hz].
Defined.

End average_completion.

(** ** Undoing the automatic migration *)

Section latest_backup.
Import JsString Json Model Storage DataMigration.


End latest_backup.

Section undo_migration.
Import JsString Json Model Storage DataMigration BackupRestore.



(** With three backups dated after the current time in the store, the
    backup of the run is among those the clean-up removes. *)
Definition future_backups : localStorage :=
  set_backups
    (<[1700000000001%Z := Doc (JArray [])]>
       (<[1700000000002%Z := Doc (JArray [])]>
          (<[1700000000003%Z := Doc (JArray [])]> ∅)))
    stored_two_courses.

Example runAutoMigration_drops_its_backup :
  let st' := snd (runAutoMigration None 1700000000000 future_backups) in
  courses st' = Some (Doc (JArray (map (spec_course None) two_courses)))
  /\ backups st' !! 1700000000000%Z = None.
Proof. cbv zeta. split; vm_compute; reflexivity. Qed.

End undo_migration.

(** ** Stripping never makes a text longer *)

Section shorter_text.
Import JsString HtmlSanitizer.
Local Arguments N.eqb : simpl never.

Lemma length_remove_tags_from m s : length (remove_tags_from m s) <= length s.
Proof.
  revert m. induction s as [|c r IH]; intros m; cbn [remove_tags_from length]; [lia|].
  destruct m.
  - specialize (IH (negb (c =? GT)%N)). lia.
  - destruct ((c =? LT)%N && existsb (N.eqb GT) r).
    + specialize (IH true). lia.
    + specialize (IH false). cbn [length]. lia.
Qed.

(** Inside a tag that closes, the closing ['>'] at least is dropped. *)
Lemma length_remove_tags_inside r :
  existsb (N.eqb GT) r = true -> S (length (remove_tags_from true r)) <= length r.
Proof.
  induction r as [|c r IH]; cbn [existsb remove_tags_from length]; [discriminate|].
  intros H. destruct (N.eqb_spec c GT) as [->|Hne]; cbn [negb].
  - pose proof (length_remove_tags_from false r). lia.
  - rewrite (proj2 (N.eqb_neq GT c)) in H by congruence. cbn [orb] in H.
    specialize (IH H). lia.
Qed.

(** A tag is at least two code units. *)
Lemma length_remove_tags_tag s :
  has_tag s = true -> 2 + length (remove_tags s) <= length s.
Proof.
  unfold remove_tags. induction s as [|c r IH]; cbn [has_tag remove_tags_from length];
    [discriminate|].
  intros H. destruct ((c =? LT)%N && existsb (N.eqb GT) r) eqn:E.
  - apply andb_true_iff in E as [_ E]. pose proof (length_remove_tags_inside r E). lia.
  - cbn [orb] in H. specialize (IH H). cbn [length]. lia.
Qed.

Lemma starts_with_length pat s : starts_with pat s = true -> length pat <= length s.
Proof.
  revert s. induction pat as [|p pat IH]; intros [|c s]; cbn [starts_with length];
    try discriminate; try lia.
  intros H. apply andb_true_iff in H as [_ H]. specialize (IH s H). lia.
Qed.

(** Replacing a pattern by something that is not longer. *)
Lemma length_replace_from pat rep k s :
  length rep <= length pat ->
  length (replace_from pat rep k s) + Nat.min k (length s) <= length s.
Proof.
  intros Hrep. revert k. induction s as [|c r IH]; intros k; cbn [replace_from length];
    [lia|].
  destruct k as [|k].
  - destruct (starts_with pat (c :: r)) eqn:E.
    + apply starts_with_length in E. cbn [length] in E.
      specialize (IH (Nat.pred (length pat))). rewrite length_app. lia.
    + specialize (IH 0). cbn [length]. lia.
  - specialize (IH k). lia.
Qed.

Lemma length_replace_all pat rep s :
  length rep <= length pat -> length (replace_all pat rep s) <= length s.
Proof.
  intros H. pose proof (length_replace_from pat rep 0 s H). unfold replace_all. lia.
Qed.

Lemma length_collapse_spaces s : length (collapse_spaces s) <= length s.
Proof.
  induction s as [|c r IH]; cbn [collapse_spaces length]; [lia|].
  destruct (is_space c).
  - destruct r as [|c' r']; [cbn [length]; lia|].
    destruct (is_space c'); cbn [length] in *; lia.
  - cbn [length]. lia.
Qed.

Lemma length_drop_while p s : length (drop_while p s) <= length s.
Proof.
  induction s as [|c r IH]; cbn [drop_while length]; [lia|].
  destruct (p c); cbn [length]; lia.
Qed.

Lemma length_trim s : length (trim s) <= length s.
Proof.
  unfold trim. pose proof (length_trim_end (drop_while is_space s)).
  pose proof (length_drop_while is_space s). lia.
Qed.

Lemma length_fallback s :
  length (stripHtmlTags_fallback s) <= length (remove_tags s).
Proof.
  unfold stripHtmlTags_fallback.
  etransitivity; [apply length_trim|]. etransitivity; [apply length_collapse_spaces|].
  repeat (etransitivity; [apply length_replace_all; cbn; lia|]). reflexivity.
Qed.

(** Without a DOM the stripped text is never longer than the text, and
    shorter by two code units at least when the text holds a tag. *)
Lemma length_stripHtmlTags s :
  length (stripHtmlTags None s) <= length s
  /\ (containsHtmlTags s = true -> 2 + length (stripHtmlTags None s) <= length s).
Proof.
  unfold stripHtmlTags, containsHtmlTags. destruct s as [|c r]; [split; [lia|discriminate]|].
  pose proof (length_fallback (c :: r)) as H1.
  pose proof (length_remove_tags_from false (c :: r)) as H2. fold (remove_tags (c :: r)) in H2.
  split; [lia|]. intros Ht. pose proof (length_remove_tags_tag (c :: r) Ht). lia.
Qed.

End shorter_text.

Section analysis_savings.
Import JsString Json Model Storage HtmlSanitizer DataAnalysis.

(** Every text that was counted has saved two code units at least. *)
Definition saves (t : Tally) : Prop :=
  totalCleanedSize t + 2 * (coursesWithHtml t + sectionsWithHtml t + lessonsWithHtml t)
  <= totalOriginalSize t.

Lemma for_each_invariant {A S : Type} (R : S -> S -> Prop) (f : S -> A -> option S) :
  (forall s, R s s) -> (forall a b c, R a b -> R b c -> R a c) ->
  (forall s a s', f s a = Some s' -> R s s') ->
  forall l s s', for_each f l s = Some s' -> R s s'.
Proof.
  intros Hrefl Htrans Hstep. induction l as [|a l IH]; intros s s'; cbn [for_each].
  - intros [= <-]. apply Hrefl.
  - destruct (f s a) as [s1|] eqn:E; [|discriminate].
    intros H. exact (Htrans _ _ _ (Hstep _ _ _ E) (IH _ _ H)).
Qed.

(** What the loops preserve: the courses counted so far, and [saves]. *)
Definition below_course (t t' : Tally) : Prop :=
  coursesWithHtml t' = coursesWithHtml t /\ (saves t -> saves t').

Lemma below_course_refl t : below_course t t.
Proof. split; [reflexivity|exact id]. Qed.

Lemma below_course_trans a b c : below_course a b -> below_course b c -> below_course a c.
Proof. intros [H1 H2] [H3 H4]. split; [congruence|auto]. Qed.

Lemma count_text_saves found x t :
  (forall u, coursesWithHtml (found u) + sectionsWithHtml (found u) + lessonsWithHtml (found u)
             = S (coursesWithHtml u + sectionsWithHtml u + lessonsWithHtml u)
             /\ totalOriginalSize (found u) = totalOriginalSize u
             /\ totalCleanedSize (found u) = totalCleanedSize u) ->
  saves t -> saves (count_text None found x t).
Proof.
  intros Hfound Ht. unfold count_text. destruct x as [[| | |s| |]|]; try exact Ht.
  destruct (containsHtmlTags s) eqn:E; [|exact Ht].
  destruct (length_stripHtmlTags s) as [_ Hlen]. specialize (Hlen E).
  destruct (Hfound t) as (Hn & Ho & Hc). unfold saves in *.
  cbn [add_sizes totalCleanedSize totalOriginalSize coursesWithHtml sectionsWithHtml
       lessonsWithHtml]. lia.
Qed.

Lemma count_text_courses found x t :
  (forall u, coursesWithHtml (found u) = coursesWithHtml u) ->
  coursesWithHtml (count_text None found x t) = coursesWithHtml t.
Proof.
  intros Hfound. unfold count_text. destruct x as [[| | |s| |]|]; try reflexivity.
  destruct (containsHtmlTags s); [|reflexivity]. cbn [add_sizes coursesWithHtml]. apply Hfound.
Qed.

Lemma analyse_lesson_below t l t' :
  analyse_lesson None t l = Some t' -> below_course t t'.
Proof.
  unfold analyse_lesson. destruct (read (lit "content") l) as [x|]; [|discriminate].
  intros [= <-]. split.
  - apply count_text_courses. reflexivity.
  - apply count_text_saves. intros u. cbn. repeat split; lia.
Qed.

Lemma analyse_section_below t s t' :
  analyse_section None t s = Some t' -> below_course t t'.
Proof.
  unfold analyse_section. destruct (read (lit "description") s) as [d|]; [|discriminate].
  assert (H1 : below_course t (count_text None section_found d t)).
  { split.
    - apply count_text_courses. reflexivity.
    - apply count_text_saves. intros u. cbn. repeat split; lia. }
  destruct (read (lit "lessons") s) as [[[| | | |ls|]|]|]; try discriminate;
    try (intros [= <-]; exact H1).
  intros H. apply (below_course_trans _ _ _ H1).
  exact (for_each_invariant below_course _ below_course_refl below_course_trans
           analyse_lesson_below ls _ _ H).
Qed.

Lemma analyse_course_step t c t' :
  analyse_course None t c = Some t' ->
  coursesWithHtml t' <= S (coursesWithHtml t) /\ (saves t -> saves t').
Proof.
  unfold analyse_course. destruct (read (lit "description") c) as [d|]; [|discriminate].
  assert (H1 : coursesWithHtml (count_text None course_found d t) <= S (coursesWithHtml t)
               /\ (saves t -> saves (count_text None course_found d t))).
  { split.
    - unfold count_text. destruct d as [[| | |s| |]|]; try lia.
      destruct (containsHtmlTags s); cbn [add_sizes course_found coursesWithHtml]; lia.
    - apply count_text_saves. intros u. cbn. repeat split; lia. }
  destruct (read (lit "sections") c) as [[[| | | |ss|]|]|]; try discriminate;
    try (intros [= <-]; exact H1).
  intros H.
  destruct (for_each_invariant below_course _ below_course_refl below_course_trans
              analyse_section_below ss _ _ H) as [Hc Hs].
  destruct H1 as [H1 H2]. split; [lia|auto].
Qed.

Lemma for_each_courses_step items t t' :
  for_each (analyse_course None) items t = Some t' ->
  coursesWithHtml t' <= coursesWithHtml t + length items /\ (saves t -> saves t').
Proof.
  revert t. induction items as [|c items IH]; intros t; cbn [for_each length].
  - intros [= <-]. split; [lia|exact id].
  - destruct (analyse_course None t c) as [t1|] eqn:E; [|discriminate].
    intros H. destruct (analyse_course_step _ _ _ E) as [H1 H2].
    destruct (IH _ H) as [H3 H4]. split; [lia|auto].
Qed.

(** X30.  Without a DOM, stripping saves space and the analysis shows it.
    [stripHtmlTags] never returns a longer text, and one that is shorter by
    two code units at least when [containsHtmlTags] holds of the text.  So
    in every report of [analyzeExistingData()], [estimatedSavings] is
    [originalSize - cleanedSize] and at least twice the number of courses,
    sections and lessons reported with HTML, and [coursesWithHtml] is at
    most [totalCourses]. *)
Theorem analyzeExistingData_savings (s : jsstring) (st : localStorage) :
  length (stripHtmlTags None s) <= length s
  /\ (containsHtmlTags s = true -> 2 + length (stripHtmlTags None s) <= length s)
  /\ match fst (analyzeExistingData None st) with
     | Return (Analysed totalCourses t estimatedSavings _) =>
       coursesWithHtml t <= totalCourses
       /\ estimatedSavings
          = (Z.of_nat (totalOriginalSize t) - Z.of_nat (totalCleanedSize t))%Z
       /\ (2 * Z.of_nat (coursesWithHtml t + sectionsWithHtml t + lessonsWithHtml t)
           <= estimatedSavings)%Z
     | _ => True
     end.
Proof.
  destruct (length_stripHtmlTags s) as [H1 H2]. split; [exact H1|]. split; [exact H2|].
  unfold analyzeExistingData, try_catch, bind, getItem, ret, throw, Storage.JSON_parse.
  destruct (courses st) as [[[|c r]|j]|]; cbv beta iota delta [missing ret fst]; try exact I.
  destruct j as [| | | |items|]; try exact I.
  destruct (for_each (analyse_course None) items no_html) as [t|] eqn:E; [|exact I].
  destruct (for_each_courses_step items no_html t E) as [Hc Hs].
  cbn [coursesWithHtml no_html] in Hc.
  assert (Hsaves : saves t) by (apply Hs; unfold saves; cbn; lia).
  unfold saves in Hsaves. cbv zeta. split; [lia|]. split; [reflexivity|lia].
Qed.

End analysis_savings.
